(** * Gabo3Dview: resource lifecycle and framing of the 3D model viewer

    A shallow embedding of [src/app.js].  The viewer keeps its state in
    module-level variables ([currentModel], [currentHDRI],
    [modelInitialTransform], [hologramActive], [originalMaterials]) and
    drives a graphics engine (scene graph, camera, orbit and transform
    controllers).  Here the variables and the engine objects the viewer
    touches are the fields of one record, [Viewer]; every function of
    [app.js] that the verified properties talk about is a function on that
    record, written statement by statement after the source.

    Conventions of the embedding:
    - JavaScript numbers are real numbers ([R]); rounding, infinities and
      NaN are outside the model, so a division is only meaningful where its
      divisor is non-zero;
    - JavaScript objects that are shared by reference (geometries, materials,
      textures, arrays of materials) live in a store indexed by their
      identity, [objects]; scene nodes are a tree value owned by whoever
      holds the model;
    - calls into the engine and the browser are recorded, in order, in
      [trace];
    - a [TypeError] is an outcome of its own, [Thrown], and leaves the
      mutations made before it in place. *)

From Stdlib Require Import Reals Lra Lia.
From stdpp Require Import gmap strings list fin_maps.

(** ** Vectors, Euler angles and boxes *)

Module Geometry.

Local Open Scope R_scope.

Record Vector3 := mkVector3 { vx : R; vy : R; vz : R }.

(** [THREE.Euler]: three angles and the order they are applied in. *)
Record Euler := mkEuler { ex : R; ey : R; ez : R; order : string }.

Definition sub (a b : Vector3) : Vector3 :=
  mkVector3 (vx a - vx b) (vy a - vy b) (vz a - vz b).

Definition setScalar (s : R) : Vector3 := mkVector3 s s s.

Definition set_vy (v : Vector3) (y : R) : Vector3 := mkVector3 (vx v) y (vz v).

(** [THREE.Box3].  [Box3Empty] is the box [makeEmpty] leaves (min = +inf,
    max = -inf), which is what measuring an object without geometry
    gives. *)
Inductive Box3 :=
| Box3Empty
| Box3Make (min max : Vector3).

(** [box.getSize(target)]: the zero vector for an empty box. *)
Definition getSize (b : Box3) : Vector3 :=
  match b with
  | Box3Empty => mkVector3 0 0 0
  | Box3Make lo hi => sub hi lo
  end.

(** [box.getCenter(target)]: the zero vector for an empty box. *)
Definition getCenter (b : Box3) : Vector3 :=
  match b with
  | Box3Empty => mkVector3 0 0 0
  | Box3Make lo hi =>
      mkVector3 ((vx lo + vx hi) * (1 / 2)) ((vy lo + vy hi) * (1 / 2))
                ((vz lo + vz hi) * (1 / 2))
  end.

(** The comparisons [a > b] and [a < b] as tests. *)
Definition gtb (a b : R) : bool := if Rgt_dec a b then true else false.
Definition ltb (a b : R) : bool := if Rlt_dec a b then true else false.

(** [Math.max(a, b, c)]. *)
Definition max3 (a b c : R) : R := Rmax (Rmax a b) c.

(** The image of the interval [[lo, hi]] under [v |-> p + s * v]. *)
Definition axis_lo (p s lo hi : R) : R := p + Rmin (s * lo) (s * hi).
Definition axis_hi (p s lo hi : R) : R := p + Rmax (s * lo) (s * hi).

(** The world-space box of a local box under a translation [p] and a
    per-axis scale [s] (the eight corners are transformed and bounded, as
    [Box3.applyMatrix4] does). *)
Definition transformBox (p s : Vector3) (b : Box3) : Box3 :=
  match b with
  | Box3Empty => Box3Empty
  | Box3Make lo hi =>
      Box3Make
        (mkVector3 (axis_lo (vx p) (vx s) (vx lo) (vx hi))
                   (axis_lo (vy p) (vy s) (vy lo) (vy hi))
                   (axis_lo (vz p) (vz s) (vz lo) (vz hi)))
        (mkVector3 (axis_hi (vx p) (vx s) (vx lo) (vx hi))
                   (axis_hi (vy p) (vy s) (vy lo) (vy hi))
                   (axis_hi (vz p) (vz s) (vz lo) (vz hi)))
  end.

End Geometry.

Export Geometry.

(** ** JavaScript values and the object store *)

(** Identity of a JavaScript object (what [===] compares). *)
Definition ref := nat.

(** What a field or a property can hold, as far as the viewer's tests
    ([if (x)], [typeof x === 'object'], [Array.isArray(x)]) can tell. *)
Inductive value :=
| VUndefined
| VNull
| VPrim (isTruthy : bool)      (* a boolean, number or string *)
| VRef (r : ref).              (* an object *)

(** An object of the store: whether it has a [dispose] method (geometries,
    materials and textures do), its elements when it is an array, and its
    own enumerable properties in insertion order. *)
Record jsobj := mkObj {
  has_dispose : bool;
  items : option (list value);
  props : list (string * value)
}.

Definition plainObject (ps : list (string * value)) : jsobj := mkObj false None ps.

(** [if (v)]. *)
Definition truthy (v : value) : bool :=
  match v with
  | VUndefined | VNull => false
  | VPrim b => b
  | VRef _ => true
  end.

(** The object a reference denotes; an identity the store does not know is
    an object without properties or methods. *)
Definition deref (h : gmap ref jsobj) (r : ref) : jsobj :=
  default (plainObject []) (h !! r).

(** [o[k] = v] on a property list: an existing key keeps its place. *)
Fixpoint assign (k : string) (v : value) (ps : list (string * value))
  : list (string * value) :=
  match ps with
  | [] => [(k, v)]
  | (k', v') :: rest =>
      if String.eqb k k' then (k, v) :: rest else (k', v') :: assign k v rest
  end.

Definition setProp (k : string) (v : value) (o : jsobj) : jsobj :=
  mkObj (has_dispose o) (items o) (assign k v (props o)).

(** [o[k]] on a property list. *)
Fixpoint getProp (k : string) (ps : list (string * value)) : option value :=
  match ps with
  | [] => None
  | (k', v) :: rest => if String.eqb k k' then Some v else getProp k rest
  end.

(** [v.k] read from a value, for the properties the viewer reads: one an
    object does not have is [undefined], and so is each of them on a
    boolean, number or string; reading from [undefined] or [null] is a
    TypeError, which is [None] here. *)
Definition read (h : gmap ref jsobj) (v : value) (k : string) : option value :=
  match v with
  | VRef r => Some (default VUndefined (getProp k (props (deref h r))))
  | VPrim _ => Some VUndefined
  | VUndefined | VNull => None
  end.

(** The values [Object.keys(o).map(k => o[k])] enumerates: array elements
    first, then the named properties. *)
Definition ownValues (o : jsobj) : list value :=
  default [] (items o) ++ map snd (props o).

(** [v && typeof v === 'object' && typeof v.dispose === 'function']. *)
Definition disposable (h : gmap ref jsobj) (v : value) : bool :=
  match v with
  | VRef r => has_dispose (deref h r)
  | _ => false
  end.

(** [Array.isArray(v)], with the elements. *)
Definition asArray (h : gmap ref jsobj) (v : value) : option (list value) :=
  match v with
  | VRef r => items (deref h r)
  | _ => None
  end.

(** ** Scene nodes *)

(** [Object3D.uuid] is a string. *)
Abbreviation uuid_t := string (only parsing).

(** The fields of a [THREE.Object3D] the viewer reads or writes.  [bounds] is
    the box of the geometry below the node, in the node's own frame: the
    engine derives it from the vertex data, which the viewer never looks
    at. *)
Record Fields := mkFields {
  uuid : uuid_t;
  name : string;
  isMesh : bool;
  castShadow : bool;
  receiveShadow : bool;
  geometry : value;
  material : value;
  position : Vector3;
  rotation : Euler;
  scale : Vector3;
  bounds : Box3
}.

Local Unset Elimination Schemes.
Inductive Object3D :=
| Node (fields : Fields) (children : list Object3D).
Local Set Elimination Schemes.

Definition root (o : Object3D) : Fields := match o with Node f _ => f end.
Definition children (o : Object3D) : list Object3D := match o with Node _ cs => cs end.
Definition with_root (g : Fields -> Fields) (o : Object3D) : Object3D :=
  match o with Node f cs => Node (g f) cs end.

(** The nodes in the order [traverse] visits them: a node, then its
    children's subtrees from first to last. *)
Fixpoint nodes (o : Object3D) : list Fields :=
  match o with
  | Node f cs => f :: (fix go (l : list Object3D) : list Fields :=
                         match l with
                         | [] => []
                         | c :: l' => nodes c ++ go l'
                         end) cs
  end.

Definition set_name (n : string) (f : Fields) : Fields :=
  mkFields (uuid f) n (isMesh f) (castShadow f) (receiveShadow f) (geometry f)
           (material f) (position f) (rotation f) (scale f) (bounds f).
Definition set_shadows (c r : bool) (f : Fields) : Fields :=
  mkFields (uuid f) (name f) (isMesh f) c r (geometry f)
           (material f) (position f) (rotation f) (scale f) (bounds f).
Definition set_material (m : value) (f : Fields) : Fields :=
  mkFields (uuid f) (name f) (isMesh f) (castShadow f) (receiveShadow f) (geometry f)
           m (position f) (rotation f) (scale f) (bounds f).
Definition set_position (p : Vector3) (f : Fields) : Fields :=
  mkFields (uuid f) (name f) (isMesh f) (castShadow f) (receiveShadow f) (geometry f)
           (material f) p (rotation f) (scale f) (bounds f).
Definition set_rotation (e : Euler) (f : Fields) : Fields :=
  mkFields (uuid f) (name f) (isMesh f) (castShadow f) (receiveShadow f) (geometry f)
           (material f) (position f) e (scale f) (bounds f).
Definition set_scale (s : Vector3) (f : Fields) : Fields :=
  mkFields (uuid f) (name f) (isMesh f) (castShadow f) (receiveShadow f) (geometry f)
           (material f) (position f) (rotation f) s (bounds f).

(** [{position, rotation, scale}], the shape of [modelInitialTransform]. *)
Record Transform := mkTransform {
  t_position : Vector3;
  t_rotation : Euler;
  t_scale : Vector3
}.

Definition transformOf (f : Fields) : Transform :=
  mkTransform (position f) (rotation f) (scale f).

(** [new THREE.Box3().setFromObject(object)] for an object placed directly
    in the world and not rotated: its translation and scale applied to its
    local box.  The root's rotation does not enter.  That is what the engine
    computes when [setupLoadedModel] measures a model the loader has just
    made, whose root is unrotated.  [resetCamera] and the key F measure the
    current model later, when the render loop or the gizmo may have turned
    it; the engine then measures the turned geometry, and this box is the
    engine's only while the rotation of the root is zero. *)
Definition Box3_setFromObject (o : Object3D) : Box3 :=
  transformBox (position (root o)) (scale (root o)) (bounds (root o)).

(** ** The viewer's state *)

(** Calls into the engine and the browser, in the order they are made. *)
Inductive event :=
| EvDispose (r : ref)                   (* r.dispose() *)
| EvDisposeObject (u : uuid_t)          (* disposeObject(obj) is entered *)
| EvGizmoDetach                         (* transformControls.detach() *)
| EvGizmoAttach (u : uuid_t)            (* transformControls.attach(obj) *)
| EvSceneRemove (u : uuid_t)            (* scene.remove(obj) *)
| EvSceneAdd (u : uuid_t)               (* scene.add(obj) *)
| EvSetEnvironment (r : ref)            (* scene.environment = texture *)
| EvSetBackground (r : ref)             (* scene.background = texture *)
| EvSetEnvMap (u : uuid_t) (r : ref)    (* mesh.material.envMap = texture *)
| EvOrbitUpdate                         (* orbitControls.update() *)
| EvUpdateInfoBar                       (* updateInfoBar() *)
| EvConsoleError (msg : string)
| EvConsoleWarn (msg : string)
| EvAlert (msg : string)
| EvRevokeObjectURL (url : string).

Global Instance event_eq_dec : EqDecision event.
Proof. solve_decision. Defined.

(** [scene.background]: a colour or a texture. *)
Inductive Background :=
| BgColor (hex : Z)
| BgTexture (r : ref).

(** The elements of the page the modelled functions touch; a checkbox that
    is not in the page is [None]. *)
Record Dom := mkDom {
  toggle_hologram : option bool;        (* #toggle-hologram .checked *)
  toggle_hdri_bg : option bool;         (* #toggle-hdri-bg .checked *)
  loading_visible : bool;               (* #loading-overlay has class visible *)
  loading_text : string                 (* its <p> text *)
}.

Record Viewer := mkViewer {
  objects : gmap ref jsobj;             (* the object store *)
  nextRef : ref;                        (* identity of the next [new] object *)
  scene_children : list uuid_t;         (* scene.children *)
  scene_environment : option ref;       (* scene.environment *)
  scene_background : Background;        (* scene.background *)
  camera_fov : R;                       (* camera.fov, in degrees *)
  camera_position : Vector3;            (* camera.position *)
  orbit_target : Vector3;               (* orbitControls.target *)
  gizmo_object : option uuid_t;         (* transformControls.object *)
  currentModel : option Object3D;
  currentHDRI : option ref;
  modelInitialTransform : option Transform;
  hologramActive : bool;
  originalMaterials : gmap string value;
  dom : Dom;
  trace : list event
}.

Definition set_objects (x : gmap ref jsobj) (s : Viewer) : Viewer :=
  mkViewer x (nextRef s) (scene_children s) (scene_environment s)
    (scene_background s) (camera_fov s) (camera_position s) (orbit_target s)
    (gizmo_object s) (currentModel s) (currentHDRI s) (modelInitialTransform s)
    (hologramActive s) (originalMaterials s) (dom s) (trace s).
Definition set_nextRef (x : ref) (s : Viewer) : Viewer :=
  mkViewer (objects s) x (scene_children s) (scene_environment s)
    (scene_background s) (camera_fov s) (camera_position s) (orbit_target s)
    (gizmo_object s) (currentModel s) (currentHDRI s) (modelInitialTransform s)
    (hologramActive s) (originalMaterials s) (dom s) (trace s).
Definition set_scene_children (x : list uuid_t) (s : Viewer) : Viewer :=
  mkViewer (objects s) (nextRef s) x (scene_environment s)
    (scene_background s) (camera_fov s) (camera_position s) (orbit_target s)
    (gizmo_object s) (currentModel s) (currentHDRI s) (modelInitialTransform s)
    (hologramActive s) (originalMaterials s) (dom s) (trace s).
Definition set_scene_environment (x : option ref) (s : Viewer) : Viewer :=
  mkViewer (objects s) (nextRef s) (scene_children s) x
    (scene_background s) (camera_fov s) (camera_position s) (orbit_target s)
    (gizmo_object s) (currentModel s) (currentHDRI s) (modelInitialTransform s)
    (hologramActive s) (originalMaterials s) (dom s) (trace s).
Definition set_scene_background (x : Background) (s : Viewer) : Viewer :=
  mkViewer (objects s) (nextRef s) (scene_children s) (scene_environment s)
    x (camera_fov s) (camera_position s) (orbit_target s)
    (gizmo_object s) (currentModel s) (currentHDRI s) (modelInitialTransform s)
    (hologramActive s) (originalMaterials s) (dom s) (trace s).
Definition set_camera_position (x : Vector3) (s : Viewer) : Viewer :=
  mkViewer (objects s) (nextRef s) (scene_children s) (scene_environment s)
    (scene_background s) (camera_fov s) x (orbit_target s)
    (gizmo_object s) (currentModel s) (currentHDRI s) (modelInitialTransform s)
    (hologramActive s) (originalMaterials s) (dom s) (trace s).
Definition set_orbit_target (x : Vector3) (s : Viewer) : Viewer :=
  mkViewer (objects s) (nextRef s) (scene_children s) (scene_environment s)
    (scene_background s) (camera_fov s) (camera_position s) x
    (gizmo_object s) (currentModel s) (currentHDRI s) (modelInitialTransform s)
    (hologramActive s) (originalMaterials s) (dom s) (trace s).
Definition set_gizmo_object (x : option uuid_t) (s : Viewer) : Viewer :=
  mkViewer (objects s) (nextRef s) (scene_children s) (scene_environment s)
    (scene_background s) (camera_fov s) (camera_position s) (orbit_target s)
    x (currentModel s) (currentHDRI s) (modelInitialTransform s)
    (hologramActive s) (originalMaterials s) (dom s) (trace s).
Definition set_currentModel (x : option Object3D) (s : Viewer) : Viewer :=
  mkViewer (objects s) (nextRef s) (scene_children s) (scene_environment s)
    (scene_background s) (camera_fov s) (camera_position s) (orbit_target s)
    (gizmo_object s) x (currentHDRI s) (modelInitialTransform s)
    (hologramActive s) (originalMaterials s) (dom s) (trace s).
Definition set_currentHDRI (x : option ref) (s : Viewer) : Viewer :=
  mkViewer (objects s) (nextRef s) (scene_children s) (scene_environment s)
    (scene_background s) (camera_fov s) (camera_position s) (orbit_target s)
    (gizmo_object s) (currentModel s) x (modelInitialTransform s)
    (hologramActive s) (originalMaterials s) (dom s) (trace s).
Definition set_modelInitialTransform (x : option Transform) (s : Viewer) : Viewer :=
  mkViewer (objects s) (nextRef s) (scene_children s) (scene_environment s)
    (scene_background s) (camera_fov s) (camera_position s) (orbit_target s)
    (gizmo_object s) (currentModel s) (currentHDRI s) x
    (hologramActive s) (originalMaterials s) (dom s) (trace s).
Definition set_hologramActive (x : bool) (s : Viewer) : Viewer :=
  mkViewer (objects s) (nextRef s) (scene_children s) (scene_environment s)
    (scene_background s) (camera_fov s) (camera_position s) (orbit_target s)
    (gizmo_object s) (currentModel s) (currentHDRI s) (modelInitialTransform s)
    x (originalMaterials s) (dom s) (trace s).
Definition set_originalMaterials (x : gmap string value) (s : Viewer) : Viewer :=
  mkViewer (objects s) (nextRef s) (scene_children s) (scene_environment s)
    (scene_background s) (camera_fov s) (camera_position s) (orbit_target s)
    (gizmo_object s) (currentModel s) (currentHDRI s) (modelInitialTransform s)
    (hologramActive s) x (dom s) (trace s).
Definition set_dom (x : Dom) (s : Viewer) : Viewer :=
  mkViewer (objects s) (nextRef s) (scene_children s) (scene_environment s)
    (scene_background s) (camera_fov s) (camera_position s) (orbit_target s)
    (gizmo_object s) (currentModel s) (currentHDRI s) (modelInitialTransform s)
    (hologramActive s) (originalMaterials s) x (trace s).
Definition set_trace (x : list event) (s : Viewer) : Viewer :=
  mkViewer (objects s) (nextRef s) (scene_children s) (scene_environment s)
    (scene_background s) (camera_fov s) (camera_position s) (orbit_target s)
    (gizmo_object s) (currentModel s) (currentHDRI s) (modelInitialTransform s)
    (hologramActive s) (originalMaterials s) (dom s) x.

(** ** Running viewer code: state and [TypeError] *)

Inductive outcome (A : Type) :=
| Returned (a : A)
| Thrown.                                (* an uncaught TypeError *)
Arguments Returned {A} a.
Arguments Thrown {A}.

Definition M (A : Type) : Type := Viewer -> outcome A * Viewer.

Definition ret {A} (a : A) : M A := fun s => (Returned a, s).
Definition bind {A B} (m : M A) (k : A -> M B) : M B :=
  fun s => match m s with
           | (Returned a, s') => k a s'
           | (Thrown, s') => (Thrown, s')
           end.
Definition throw {A} : M A := fun s => (Thrown, s).
Definition gets {A} (f : Viewer -> A) : M A := fun s => (Returned (f s), s).
Definition modify (f : Viewer -> Viewer) : M unit := fun s => (Returned tt, f s).

Declare Scope viewer_scope.
Delimit Scope viewer_scope with viewer.
Notation "x <- c1 ;; c2" := (bind c1 (fun x => c2))
  (at level 100, c1 at next level, right associativity) : viewer_scope.
Notation "c1 ;; c2" := (bind c1 (fun _ => c2))
  (at level 100, right associativity) : viewer_scope.
Local Open Scope viewer_scope.

Definition emit (e : event) : M unit :=
  modify (fun s => set_trace (trace s ++ [e]) s).

Definition when (b : bool) (m : M unit) : M unit := if b then m else ret tt.

(** [l.forEach(f)]. *)
Fixpoint forEach {A} (f : A -> M unit) (l : list A) : M unit :=
  match l with
  | [] => ret tt
  | x :: l' => f x ;; forEach f l'
  end.

(** [obj.traverse(callback)]: the callback on the node, then the traversal
    of each child.  The callbacks of the viewer mutate the fields of the
    node they are given and never its list of children; the node they
    return is the node after the mutation. *)
Fixpoint traverse (callback : Fields -> M Fields) (o : Object3D) : M Object3D :=
  match o with
  | Node f cs =>
      f' <- callback f ;;
      cs' <- (fix go (l : list Object3D) : M (list Object3D) :=
                match l with
                | [] => ret []
                | c :: l' => c' <- traverse callback c ;;
                             l'' <- go l' ;;
                             ret (c' :: l'')
                end) cs ;;
      ret (Node f' cs')
  end.

(** ** The engine operations the viewer calls *)

(** [target[k] = v].  The module is strict-mode code: assigning a property
    of [undefined], [null] or a primitive throws. *)
Definition setProperty (target : value) (k : string) (v : value) : M unit :=
  match target with
  | VRef r =>
      modify (fun s => set_objects (<[r := setProp k v (deref (objects s) r)]> (objects s)) s)
  | _ => throw
  end.

(** [v.dispose()]: throws unless [v] is an object with that method.  The
    engine's [dispose] only notifies the renderer. *)
Definition callDispose (v : value) : M unit :=
  match v with
  | VRef r =>
      h <- gets objects ;;
      if has_dispose (deref h r) then emit (EvDispose r) else throw
  | _ => throw
  end.

(** [new C(...)]: a fresh identity bound to the new object. *)
Definition alloc (o : jsobj) : M ref :=
  r <- gets nextRef ;;
  modify (fun s => set_nextRef (S r) (set_objects (<[r := o]> (objects s)) s)) ;;
  ret r.

(** Removal of the first occurrence, as [indexOf] and [splice] do. *)
Fixpoint removeFirst (u : uuid_t) (l : list uuid_t) : list uuid_t :=
  match l with
  | [] => []
  | x :: l' => if String.eqb u x then l' else x :: removeFirst u l'
  end.

(** [scene.remove(obj)]. *)
Definition scene_remove (obj : Object3D) : M unit :=
  emit (EvSceneRemove (uuid (root obj))) ;;
  modify (fun s => set_scene_children (removeFirst (uuid (root obj)) (scene_children s)) s).

(** [scene.add(obj)]: the object leaves the parent it has, then is pushed. *)
Definition scene_add (obj : Object3D) : M unit :=
  emit (EvSceneAdd (uuid (root obj))) ;;
  modify (fun s => set_scene_children
                     (removeFirst (uuid (root obj)) (scene_children s) ++ [uuid (root obj)]) s).

(** [transformControls.detach()] and [transformControls.attach(obj)]. *)
Definition transformControls_detach : M unit :=
  emit EvGizmoDetach ;; modify (set_gizmo_object None).
Definition transformControls_attach (obj : Object3D) : M unit :=
  emit (EvGizmoAttach (uuid (root obj))) ;;
  modify (set_gizmo_object (Some (uuid (root obj)))).

(** [orbitControls.update()].  The state records the call.  The controller
    then moves the camera on its own: [camera_position] stays the position
    the viewer has assigned, which is where the controller finds the camera,
    and [updatedDistance] below is how far from the target it leaves it. *)
Definition orbitControls_update : M unit := emit EvOrbitUpdate.

Section OrbitLimits.
Local Open Scope R_scope.

(** [orbitControls.minDistance = 0.1] and [orbitControls.maxDistance = 100],
    as [init()] sets them. *)
Definition minDistance : R := 0.1.
Definition maxDistance : R := 100.

(** [a.distanceTo(b)]. *)
Definition distanceTo (a b : Vector3) : R :=
  let d := sub a b in
  sqrt (vx d * vx d + vy d * vy d + vz d * vz d).

(** The controller's [clampDistance(dist)]:
    [Math.max(minDistance, Math.min(maxDistance, dist))]. *)
Definition clampDistance (dist : R) : R := Rmax minDistance (Rmin maxDistance dist).

(** The distance from the target at which [orbitControls.update()] leaves a
    camera it finds at [position]: the length of the offset, times the zoom
    factor of a wheel gesture not yet applied ([zoom] is 1 when there is
    none), kept within the limits. *)
Definition updatedDistance (zoom : R) (position target : Vector3) : R :=
  clampDistance (distanceTo position target * zoom).

End OrbitLimits.

(** ** UI helpers *)

(** [showLoading(visible, message)]. *)
Definition showLoading (visible : bool) (message : option string) : M unit :=
  modify (fun s =>
    let d := dom s in
    let text := match message with
                | Some m => if String.eqb m "" then loading_text d else m
                | None => loading_text d
                end in
    set_dom (mkDom (toggle_hologram d) (toggle_hdri_bg d) visible text) s).

(** [v.k] as an expression of the program: it throws where the read is a
    TypeError. *)
Definition readProp (v : value) (k : string) : M value :=
  h <- gets objects ;;
  match read h v k with
  | Some x => ret x
  | None => throw
  end.

(** The callback of the traversal in [updateInfoBar()]: on a mesh with a
    geometry it reads [c.geometry.index] and then either [idx.count] or
    [c.geometry.attributes.position.count].  The count itself only goes
    into the text of the bar; what the state can tell is whether the reads
    succeed. *)
Definition countTriangles (c : Fields) : M Fields :=
  when (isMesh c && truthy (geometry c))
       (idx <- readProp (geometry c) "index" ;;
        if truthy idx
        then _ <- readProp idx "count" ;; ret tt
        else attributes <- readProp (geometry c) "attributes" ;;
             position <- readProp attributes "position" ;;
             _ <- readProp position "count" ;; ret tt) ;;
  ret c.

(** [updateInfoBar()] counts the triangles of the current model and then
    rewrites the text of the info bar, an element the page is taken to
    have.  The state does not carry the text: the event records that the
    function has reached its last statement, which it does not when the
    count throws. *)
Definition updateInfoBar : M unit :=
  current <- gets currentModel ;;
  match current with
  | Some model => _ <- traverse countTriangles model ;; ret tt
  | None => ret tt
  end ;;
  emit EvUpdateInfoBar.

(** ** Dispose helper *)

(** [disposeMaterial(material)]. *)
Definition disposeMaterial (material : value) : M unit :=
  match material with
  | VRef r =>
      h <- gets objects ;;
      forEach (fun value =>
                 h' <- gets objects ;;
                 when (disposable h' value) (callDispose value))
              (ownValues (deref h r)) ;;
      callDispose material
  | _ => throw       (* no keys to enumerate on null; no dispose on a primitive *)
  end.

(** The callback of [disposeObject]. *)
Definition disposeNode (child : Fields) : M Fields :=
  when (truthy (geometry child)) (callDispose (geometry child)) ;;
  when (truthy (material child))
       (h <- gets objects ;;
        match asArray h (material child) with
        | Some ms => forEach disposeMaterial ms
        | None => disposeMaterial (material child)
        end) ;;
  ret child.

(** [disposeObject(obj)]. *)
Definition disposeObject (obj : Object3D) : M unit :=
  emit (EvDisposeObject (uuid (root obj))) ;;
  traverse disposeNode obj ;;
  ret tt.

(** ** Camera framing *)

Section Framing.
Local Open Scope R_scope.

(** The local [cameraZ] of [frameModel], from [camera.fov] (degrees) and
    [maxDim]. *)
Definition cameraZ (camera_fov maxDim : R) : R :=
  let fov := camera_fov * (PI / 180) in
  let cameraZ := Rabs (maxDim / (2 * tan (fov / 2))) in
  cameraZ * 1.2.

(** [frameModel(object)]. *)
Definition frameModel (object : Object3D) : M unit :=
  (camera_fov <- gets camera_fov ;;
   let box := Box3_setFromObject object in
   let size := getSize box in
   let center := getCenter box in
   let maxDim := max3 (vx size) (vy size) (vz size) in
   let cameraZ := cameraZ camera_fov maxDim in
   modify (set_camera_position
             (mkVector3 (vx center + cameraZ * 0.4) (vy center + cameraZ * 0.25)
                        (vz center + cameraZ * 0.9))) ;;
   modify (set_orbit_target center) ;;
   orbitControls_update)%viewer.

(** The statements of [frameModel] before its last one, the call of
    [orbitControls.update()]; [frameModel_steps] below shows that
    [frameModel] is these followed by that call. *)
Definition frameModel_assign (object : Object3D) : M unit :=
  (camera_fov <- gets camera_fov ;;
   let box := Box3_setFromObject object in
   let size := getSize box in
   let center := getCenter box in
   let maxDim := max3 (vx size) (vy size) (vz size) in
   let cameraZ := cameraZ camera_fov maxDim in
   modify (set_camera_position
             (mkVector3 (vx center + cameraZ * 0.4) (vy center + cameraZ * 0.25)
                        (vz center + cameraZ * 0.9))) ;;
   modify (set_orbit_target center))%viewer.

(** ** Shared model setup *)

(** The placement of [setupLoadedModel]: the model is measured, moved so
    that its box is centred and rests on the ground, and rescaled when its
    largest dimension is above 10 or below 0.1.  Numbers are real numbers
    here.  For [maxDim = 0] the source divides by zero: the scale it sets
    is [Infinity] and what the engine computes from it is not a number,
    while the quotient below is a real number of no meaning; the statements
    about the scale are for [maxDim > 0]. *)
Definition centerAndScale (model : Object3D) : Object3D :=
  let box := Box3_setFromObject model in
  let size := getSize box in
  let center := getCenter box in
  let model := with_root (fun f => set_position (sub (position f) center) f) model in
  let model := with_root (fun f => set_position
                                     (set_vy (position f) (vy (position f) + vy size / 2)) f)
                         model in
  let maxDim := max3 (vx size) (vy size) (vz size) in
  with_root (fun f => set_scale (if gtb maxDim 10 || ltb maxDim 0.1
                                 then let scale := 3 / maxDim in setScalar scale
                                 else scale f) f)
            model.

End Framing.

(** The first callback of [setupLoadedModel]: shadows on every mesh. *)
Definition enableShadows (child : Fields) : M Fields :=
  if isMesh child then
    let child := set_shadows true true child in
    when (truthy (material child))
         (setProperty (material child) "envMapIntensity" (VPrim true)) ;;
    ret child
  else ret child.

(** [name || 'LoadedModel']. *)
Definition nameOr (name : option string) (fallback : string) : string :=
  match name with
  | Some n => if String.eqb n "" then fallback else n
  | None => fallback
  end.

(** [setupLoadedModel(model, name)]. *)
Definition setupLoadedModel (model : Object3D) (name : option string) : M unit :=
  previous <- gets currentModel ;;
  match previous with
  | Some old =>
      transformControls_detach ;;
      scene_remove old ;;
      disposeObject old
  | None => ret tt
  end ;;
  let model := with_root (set_name (nameOr name "LoadedModel")) model in
  model <- traverse enableShadows model ;;
  let model := centerAndScale model in
  scene_add model ;;
  modify (set_currentModel (Some model)) ;;
  modify (set_modelInitialTransform (Some (transformOf (root model)))) ;;
  modify (set_hologramActive false) ;;
  modify (set_originalMaterials ∅) ;;
  modify (fun s =>
            let d := dom s in
            set_dom (mkDom (match toggle_hologram d with
                            | Some _ => Some false
                            | None => None
                            end)
                           (toggle_hdri_bg d) (loading_visible d) (loading_text d)) s) ;;
  transformControls_attach model ;;
  frameModel model ;;
  updateInfoBar.

(** The success callback of [loadGLBModel]; [url] is the object URL when the
    model came from a local file. *)
Definition loadGLBModel_onLoad (gltf_scene : Object3D) (modelName : string)
    (url : option string) : M unit :=
  setupLoadedModel gltf_scene (Some modelName) ;;
  showLoading false None ;;
  match url with
  | Some u => emit (EvRevokeObjectURL u)
  | None => ret tt
  end.

(** ** Reset of the model transform *)

(** [resetModelTransform()]. *)
Definition resetModelTransform : M unit :=
  current <- gets currentModel ;;
  initial <- gets modelInitialTransform ;;
  match current, initial with
  | Some model, Some t =>
      modify (set_currentModel
                (Some (with_root (fun f => set_scale (t_scale t)
                                             (set_rotation (t_rotation t)
                                                (set_position (t_position t) f)))
                                 model)))
  | _, _ => ret tt
  end.

(** A transform edit: the gizmo writes the position, rotation and scale of
    the object it holds, and the render loop adds to [rotation.y]; either is
    a function on the transform of the current model. *)
Definition editTransform (g : Transform -> Transform) : M unit :=
  current <- gets currentModel ;;
  match current with
  | Some model =>
      modify (set_currentModel
                (Some (with_root (fun f =>
                                    let t := g (transformOf f) in
                                    set_scale (t_scale t)
                                      (set_rotation (t_rotation t)
                                         (set_position (t_position t) f)))
                                 model)))
  | None => ret tt
  end.

(** ** Environment map *)

(** The callback of [applyEnvironmentTexture] on the current model.  The
    assignment of [needsUpdate] is kept as the assignment of a property; on
    an engine material it is a setter that bumps the material's [version],
    which holds a primitive as well. *)
Definition useEnvironment (texture : ref) (child : Fields) : M Fields :=
  when (isMesh child && truthy (material child))
       (setProperty (material child) "envMap" (VRef texture) ;;
        emit (EvSetEnvMap (uuid child) texture) ;;
        setProperty (material child) "envMapIntensity" (VPrim true) ;;
        setProperty (material child) "needsUpdate" (VPrim true)) ;;
  ret child.

(** [applyEnvironmentTexture(texture)]. *)
Definition applyEnvironmentTexture (texture : ref) : M unit :=
  setProperty (VRef texture) "mapping" (VPrim true) ;;
  modify (set_scene_environment (Some texture)) ;;
  emit (EvSetEnvironment texture) ;;
  modify (set_scene_background (BgTexture texture)) ;;
  emit (EvSetBackground texture) ;;
  modify (fun s =>
            let d := dom s in
            set_dom (mkDom (toggle_hologram d)
                           (match toggle_hdri_bg d with
                            | Some _ => Some true
                            | None => None
                            end)
                           (loading_visible d) (loading_text d)) s) ;;
  previous <- gets currentHDRI ;;
  match previous with
  | Some old => callDispose (VRef old)
  | None => ret tt
  end ;;
  modify (set_currentHDRI (Some texture)) ;;
  current <- gets currentModel ;;
  match current with
  | Some model => traverse (useEnvironment texture) model ;; ret tt
  | None => ret tt
  end ;;
  updateInfoBar.

(** [loadHDRI(file)] up to the call of the loader: the overlay is shown and
    an object URL [url] is made for the file. *)
Definition loadHDRI_start : M unit :=
  showLoading true (Some "Cargando HDRI...").

(** The success callback of [loadHDRI]. *)
Definition loadHDRI_onLoad (url : string) (texture : ref) : M unit :=
  applyEnvironmentTexture texture ;;
  showLoading false None ;;
  emit (EvRevokeObjectURL url).

(** The failure callback of [loadHDRI]. *)
Definition loadHDRI_onError (url : string) : M unit :=
  emit (EvConsoleError "Error loading HDRI:") ;;
  showLoading false None ;;
  emit (EvAlert "Error al cargar el archivo HDRI. Revisa la consola para más detalles.") ;;
  emit (EvRevokeObjectURL url).

(** The failure callback of [loadPresetEXR], for the preset whose label is
    [label]. *)
Definition loadPresetEXR_onError (label : string) : M unit :=
  emit (EvConsoleWarn ("Could not load preset EXR (" ++ label ++ "):")) ;;
  showLoading false None.

(** ** Hologram material *)

(** [createHologramMaterial()]: a new [THREE.ShaderMaterial] over new
    uniform holders.  Of the material's own properties those the viewer
    passes are listed; the others are primitives and plain objects. *)
Definition createHologramMaterial : M ref :=
  color <- alloc (plainObject []) ;;
  uColor <- alloc (plainObject [("value", VRef color)]) ;;
  uAlpha <- alloc (plainObject [("value", VPrim true)]) ;;
  uniforms <- alloc (plainObject [("uColor", VRef uColor); ("uAlpha", VRef uAlpha)]) ;;
  alloc (mkObj true None
           [("vertexShader", VPrim true); ("fragmentShader", VPrim true);
            ("uniforms", VRef uniforms); ("transparent", VPrim true);
            ("side", VPrim true); ("depthWrite", VPrim false)]).

(** [originalMaterials.has(k)]. *)
Definition has (m : gmap string value) (k : string) : bool :=
  match m !! k with Some _ => true | None => false end.

(** [originalMaterials.get(k)]: [undefined] for a missing key. *)
Definition get (m : gmap string value) (k : string) : value :=
  default VUndefined (m !! k).

(** The callback of [toggleHologram(true)]. *)
Definition applyHologram (child : Fields) : M Fields :=
  if isMesh child then
    saved <- gets originalMaterials ;;
    when (negb (has saved (uuid child)))
         (modify (set_originalMaterials (<[uuid child := material child]> saved))) ;;
    hologram <- createHologramMaterial ;;
    ret (set_shadows false false (set_material (VRef hologram) child))
  else ret child.

(** The callback of [toggleHologram(false)]. *)
Definition restoreOriginal (child : Fields) : M Fields :=
  saved <- gets originalMaterials ;;
  if isMesh child && has saved (uuid child) then
    h <- gets objects ;;
    when (disposable h (material child)) (callDispose (material child)) ;;
    ret (set_shadows true true (set_material (get saved (uuid child)) child))
  else ret child.

(** [toggleHologram(enabled)]. *)
Definition toggleHologram (enabled : bool) : M unit :=
  current <- gets currentModel ;;
  match current with
  | None => ret tt
  | Some model =>
      modify (set_hologramActive enabled) ;;
      model <- traverse (if enabled then applyHologram else restoreOriginal) model ;;
      modify (set_currentModel (Some model))
  end.

(** ** The state [init()] leaves *)

Section Initial.
Local Open Scope R_scope.

(** The scene after [init()]: the four lights, the grid, the axes, the
    ground plane and the transform gizmo, named here by what they are; a
    black background, a 45 degree camera at (3, 2, 5), nothing loaded yet and
    the overlay announcing the default model. *)
Definition initial : Viewer :=
  mkViewer ∅ 0%nat
    ["__ambient__"; "__dirLight__"; "__fillLight__"; "__hemiLight__";
     "gridHelper"; "axesHelper"; "__ground__"; "transformControls"]
    None (BgColor 0)
    45 (mkVector3 3 2 5) (mkVector3 0 0 0)
    None None None None false ∅
    (mkDom (Some false) (Some true) true "Cargando modelo...")
    [].

End Initial.

(** ** Notions the statements use *)

Section Measures.
Local Open Scope R_scope.

(** [maxDim] as [frameModel] and [setupLoadedModel] compute it. *)
Definition maxDimOf (o : Object3D) : R :=
  let size := getSize (Box3_setFromObject o) in
  max3 (vx size) (vy size) (vz size).

(** A node as the loader creates it: at the origin, unrotated, unscaled,
    shadows off. *)
Definition freshNode (u : uuid_t) (mesh : bool) (g m : value) (b : Box3) : Fields :=
  mkFields u "" mesh false false g m
           (mkVector3 0 0 0) (mkEuler 0 0 0 "XYZ") (mkVector3 1 1 1) b.

(** A mesh whose geometry is a single vertex at (2, 3, 4). *)
Definition pointModel : Object3D :=
  Node (freshNode "point" true (VRef 1%nat) (VRef 2%nat)
                  (Box3Make (mkVector3 2 3 4) (mkVector3 2 3 4))) [].

(** A mesh that spans [(-1,-1,-1), (3,5,2)]. *)
Definition scenarioModel : Object3D :=
  Node (freshNode "scenario" true (VRef 1%nat) (VRef 2%nat)
                  (Box3Make (mkVector3 (-1) (-1) (-1)) (mkVector3 3 5 2))) [].

(** A mesh of 20 units a side whose geometry lies off its own origin: it
    spans [(1,1,1), (21,21,21)]. *)
Definition offCentreModel : Object3D :=
  Node (freshNode "offCentre" true (VRef 1%nat) (VRef 2%nat)
                  (Box3Make (mkVector3 1 1 1) (mkVector3 21 21 21))) [].

(** The lowest corner of a measured box. *)
Definition boxMin (b : Box3) : Vector3 :=
  match b with
  | Box3Empty => mkVector3 0 0 0
  | Box3Make lo _ => lo
  end.

End Measures.

(** The callback run over a list of nodes, first to last; this is what a
    traversal amounts to on the nodes in visiting order. *)
Fixpoint mapM (callback : Fields -> M Fields) (l : list Fields) : M (list Fields) :=
  match l with
  | [] => ret []
  | f :: l' => f' <- callback f ;; l'' <- mapM callback l' ;; ret (f' :: l'')
  end.

(** The traversal of a list of siblings, and their nodes in visiting
    order. *)
Definition traverseList (callback : Fields -> M Fields) : list Object3D -> M (list Object3D) :=
  fix go (l : list Object3D) : M (list Object3D) :=
    match l with
    | [] => ret []
    | c :: l' => c' <- traverse callback c ;; l'' <- go l' ;; ret (c' :: l'')
    end.

Definition nodesList : list Object3D -> list Fields :=
  fix go (l : list Object3D) : list Fields :=
    match l with
    | [] => []
    | c :: l' => nodes c ++ go l'
    end.

(** The state after further calls have been recorded. *)
Definition logged (evs : list event) (s : Viewer) : Viewer :=
  set_trace (trace s ++ evs) s.

(** A node the disposer can handle: its geometry is missing or has a
    [dispose] method; its material is missing, is an object with a [dispose]
    method, or is an array of such objects. *)
Definition wellFormedNode (h : gmap ref jsobj) (f : Fields) : bool :=
  (negb (truthy (geometry f)) || disposable h (geometry f)) &&
  (negb (truthy (material f)) ||
   match asArray h (material f) with
   | Some ms => forallb (disposable h) ms
   | None => disposable h (material f)
   end).

Definition wellFormed (h : gmap ref jsobj) (o : Object3D) : bool :=
  forallb (wellFormedNode h) (nodes o).

(** A node whose triangles [updateInfoBar] can count: it is no mesh, or has
    no geometry, or its geometry has an index, or the geometry's
    [attributes.position] is there to read [count] from. *)
Definition countable (h : gmap ref jsobj) (f : Fields) : bool :=
  negb (isMesh f && truthy (geometry f)) ||
  match read h (geometry f) "index" with
  | Some idx =>
      truthy idx ||
      match read h (geometry f) "attributes" with
      | Some attributes =>
          match read h attributes "position" with
          | Some position =>
              match read h position "count" with Some _ => true | None => false end
          | None => false
          end
      | None => false
      end
  | None => false
  end.

Definition infoReady (h : gmap ref jsobj) (o : Object3D) : bool :=
  forallb (countable h) (nodes o).

(** Two stores in which the reads of [updateInfoBar] up to [position] give
    the same values. *)
Definition sameInfo (h h' : gmap ref jsobj) : Prop :=
  forall (r : ref) (k : string),
    k = "index" \/ k = "attributes" \/ k = "position" ->
    getProp k (props (deref h' r)) = getProp k (props (deref h r)).

(** The references to disposable resources that a subtree holds, one entry
    per place that holds one: through a material reference, the disposable
    values among the material's own properties and the material itself;
    through a node, its geometry and the material references of its material
    field. *)
Definition refOf (v : value) : list ref :=
  match v with
  | VRef r => [r]
  | _ => []
  end.

Definition materialHolds (h : gmap ref jsobj) (m : value) : list ref :=
  match m with
  | VRef r => flat_map refOf (List.filter (disposable h) (ownValues (deref h r))) ++ [r]
  | _ => []
  end.

Definition nodeHolds (h : gmap ref jsobj) (f : Fields) : list ref :=
  refOf (geometry f) ++
  match asArray h (material f) with
  | Some ms => flat_map (materialHolds h) ms
  | None => materialHolds h (material f)
  end.

Definition holds (h : gmap ref jsobj) (o : Object3D) : list ref :=
  flat_map (nodeHolds h) (nodes o).

(** ** Sample scenes *)

(** What the loaders have created in the samples: an index buffer (0), a
    geometry (1) with that index, a material (2) whose [map] is the texture
    (3), two environment textures (4, 5), and a second indexed geometry (6)
    and material (7). *)
Definition sampleObjects : gmap ref jsobj :=
  list_to_map
    [(0, plainObject [("count", VPrim true)]);
     (1, mkObj true None [("index", VRef 0)]);
     (2, mkObj true None [("map", VRef 3); ("opacity", VPrim true)]);
     (3, mkObj true None []);
     (4, mkObj true None []);
     (5, mkObj true None []);
     (6, mkObj true None [("index", VRef 0)]);
     (7, mkObj true None [("map", VNull)])].

(** The viewer after [init()], with the sample objects in the store. *)
Definition loaded : Viewer := set_nextRef 8 (set_objects sampleObjects initial).

(** A store with a geometry (1) that has no index and whose attributes (0)
    hold no positions, and a material (2); and a mesh of one unit a side
    with that geometry. *)
Definition bareViewer : Viewer :=
  set_nextRef 3
    (set_objects
       (list_to_map
          [(0, plainObject []);
           (1, mkObj true None [("index", VNull); ("attributes", VRef 0)]);
           (2, mkObj true None [])])
       initial).

Definition bareModel : Object3D :=
  Node (freshNode "bare" true (VRef 1%nat) (VRef 2%nat)
                  (Box3Make (mkVector3 0 0 0) (mkVector3 1 1 1))) [].

(** A group of two meshes that share one geometry and one material. *)
Definition modelA : Object3D :=
  Node (freshNode "A" false VUndefined VUndefined
                  (Box3Make (mkVector3 0 0 0) (mkVector3 1 2 1)))
       [Node (freshNode "a1" true (VRef 1) (VRef 2) Box3Empty) [];
        Node (freshNode "a2" true (VRef 1) (VRef 2) Box3Empty) []].

(** A group of one mesh. *)
Definition modelB : Object3D :=
  Node (freshNode "B" false VUndefined VUndefined
                  (Box3Make (mkVector3 0 0 0) (mkVector3 1 1 1)))
       [Node (freshNode "b1" true (VRef 6) (VRef 7) Box3Empty) []].

(** ** Notions for the model lifecycle *)

(** Two stores agree on what their objects can do: the same objects have a
    [dispose] method and the same objects are arrays, with the same
    elements.  Assigning properties keeps this. *)
Definition sameCaps (h h' : gmap ref jsobj) : Prop :=
  forall r, has_dispose (deref h' r) = has_dispose (deref h r) /\
            items (deref h' r) = items (deref h r).

(** What [setupLoadedModel] does to a node of the new model: shadows on
    every mesh. *)
Definition shadowed (f : Fields) : Fields :=
  if isMesh f then set_shadows true true f else f.

(** What [setupLoadedModel] does to the root of the new model when it
    centres and rescales it. *)
Definition place (f : Fields) : Fields := root (centerAndScale (Node f [])).

(** The model-lifecycle calls among the recorded ones. *)
Definition isLifecycle (e : event) : bool :=
  match e with
  | EvGizmoDetach | EvGizmoAttach _ | EvSceneRemove _ | EvSceneAdd _
  | EvDisposeObject _ => true
  | _ => false
  end.

Definition lifecycle (evs : list event) : list event := List.filter isLifecycle evs.

(** The lifecycle calls a sequence of loads is to make: for each load, the
    previous model (if any) is detached from the gizmo, removed from the
    scene and handed to the disposer; then the new model is added and
    attached. *)
Fixpoint expectedLifecycle (previous : option uuid_t) (loads : list uuid_t) : list event :=
  match loads with
  | [] => []
  | u :: rest =>
      match previous with
      | Some p => [EvGizmoDetach; EvSceneRemove p; EvDisposeObject p]
      | None => []
      end ++ [EvSceneAdd u; EvGizmoAttach u] ++ expectedLifecycle (Some u) rest
  end.

(** A completed load: the arguments of the success callback. *)
Record Load := mkLoad {
  gltf_scene : Object3D;
  modelName : string;
  objectURL : option string
}.

(** A sequence of successful loads, in the order the callbacks fire. *)
Definition loadAll (loads : list Load) : M unit :=
  forEach (fun l => loadGLBModel_onLoad (gltf_scene l) (modelName l) (objectURL l)) loads.

Definition loadId (l : Load) : uuid_t := uuid (root (gltf_scene l)).

Section Installed.
Local Open Scope R_scope.

(** The state [setupLoadedModel] leaves when it returns, given the model
    [model'] it has made current and the store [h'] it ends with. *)
Definition installed (model' : Object3D) (h' : gmap ref jsobj) (s : Viewer) : Viewer :=
  let u := uuid (root model') in
  let center := getCenter (Box3_setFromObject model') in
  let d := cameraZ (camera_fov s) (maxDimOf model') in
  mkViewer h' (nextRef s)
    (removeFirst u match currentModel s with
                   | Some old => removeFirst (uuid (root old)) (scene_children s)
                   | None => scene_children s
                   end ++ [u])
    (scene_environment s) (scene_background s) (camera_fov s)
    (mkVector3 (vx center + d * 0.4) (vy center + d * 0.25) (vz center + d * 0.9))
    center (Some u) (Some model') (currentHDRI s)
    (Some (transformOf (root model'))) false ∅
    (mkDom match toggle_hologram (dom s) with
           | Some _ => Some false
           | None => None
           end
           (toggle_hdri_bg (dom s)) (loading_visible (dom s)) (loading_text (dom s)))
    (trace s
     ++ match currentModel s with
        | Some old =>
            [EvGizmoDetach; EvSceneRemove (uuid (root old));
             EvDisposeObject (uuid (root old))]
            ++ map EvDispose (holds (objects s) old)
        | None => []
        end
     ++ [EvSceneAdd u; EvGizmoAttach u; EvOrbitUpdate; EvUpdateInfoBar]).

End Installed.

(** The identity of the current model, if there is one. *)
Definition currentId (s : Viewer) : option uuid_t :=
  match currentModel s with
  | Some model => Some (uuid (root model))
  | None => None
  end.

(** ** Notions for the hologram override *)

(** What [toggleHologram(false)] does to a node, given the saved
    materials. *)
Definition restoredNode (saved : gmap string value) (f : Fields) : Fields :=
  if isMesh f && has saved (uuid f)
  then set_shadows true true (set_material (get saved (uuid f)) f)
  else f.

(** The material [toggleHologram(false)] disposes on a node: the one the
    mesh carries, when the mesh has a saved material. *)
Definition disposedOnRestore (h : gmap ref jsobj) (saved : gmap string value)
    (f : Fields) : list ref :=
  if isMesh f && has saved (uuid f) && disposable h (material f)
  then refOf (material f)
  else [].

(** The saved materials after [toggleHologram(true)] has visited the nodes
    [l]: the material of each mesh is recorded unless its uuid already has
    an entry. *)
Definition snapshotMaterials (saved : gmap string value) (l : list Fields)
  : gmap string value :=
  fold_left (fun m f => if isMesh f && negb (has m (uuid f))
                        then <[uuid f := material f]> m
                        else m)
            l saved.

(** How [toggleHologram(true)] changes a node while the next new object
    gets an identity between [lo] and [hi]: a mesh gets a material created
    in that range and loses its shadows; another node is untouched. *)
Definition hologramOn (lo hi : ref) (f f' : Fields) : Prop :=
  if isMesh f
  then exists r, (lo <= r < hi)%nat /\
                 f' = set_shadows false false (set_material (VRef r) f)
  else f' = f.

(** The sample viewer once [modelA] has been loaded from its URL. *)
Definition viewingA : Viewer :=
  snd (loadGLBModel_onLoad modelA "A.glb" None loaded).

(** ... and once the hologram has then been switched on. *)
Definition hologramA : Viewer := snd (toggleHologram true viewingA).

(** The materials of the nodes of the current model, in visiting order. *)
Definition currentMaterials (s : Viewer) : list value :=
  match currentModel s with
  | Some model => map material (nodes model)
  | None => []
  end.

(** ** Notions for the environment map *)

(** The nodes [applyEnvironmentTexture] updates: the meshes that have a
    material. *)
Definition usesEnvironment (f : Fields) : bool := isMesh f && truthy (material f).

(** Such a node can be updated when its material is an object. *)
Definition envReady (f : Fields) : bool :=
  negb (usesEnvironment f) || match material f with VRef _ => true | _ => false end.

(** The meshes of the current model that have a material, in visiting
    order. *)
Definition environmentMeshes (s : Viewer) : list Fields :=
  match currentModel s with
  | Some model => List.filter usesEnvironment (nodes model)
  | None => []
  end.

(** The sample viewer showing [modelA] under the environment texture 4. *)
Definition environmentA : Viewer := snd (loadHDRI_onLoad "blob:env4" 4 viewingA).

(** The calls recorded after the first [n]. *)
Definition since (n : nat) (s : Viewer) : list event := drop n (trace s).

(** The store after [applyEnvironmentTexture] has updated the material
    [r] of a mesh. *)
Definition withEnvironment (texture r : ref) (h : gmap ref jsobj) : gmap ref jsobj :=
  let h1 := <[r := setProp "envMap" (VRef texture) (deref h r)]> h in
  let h2 := <[r := setProp "envMapIntensity" (VPrim true) (deref h1 r)]> h1 in
  <[r := setProp "needsUpdate" (VPrim true) (deref h2 r)]> h2.

(** The overlay hidden, the rest of the page as it is. *)
Definition overlayHidden (d : Dom) : Dom :=
  mkDom (toggle_hologram d) (toggle_hdri_bg d) false (loading_text d).

(** * The camera reset, the hologram store and the page: further notions *)

(** ** Reset of the camera; objects moved and rescaled *)

Section CameraAndPlacement.
Local Open Scope R_scope.

(** [resetCamera()]. *)
Definition resetCamera : M unit :=
  (current <- gets currentModel ;;
   match current with
   | Some model => frameModel model
   | None =>
       modify (set_camera_position (mkVector3 3 2 5)) ;;
       modify (set_orbit_target (mkVector3 0 0 0)) ;;
       orbitControls_update
   end)%viewer.

(** [a + b] on vectors, and [k * v] componentwise with a factor. *)
Definition add (a b : Vector3) : Vector3 :=
  mkVector3 (vx a + vx b) (vy a + vy b) (vz a + vz b).

Definition scaleBy (k : R) (v : Vector3) : Vector3 :=
  mkVector3 (k * vx v) (k * vy v) (k * vz v).

(** The same object placed elsewhere: its position moved by [t]. *)
Definition moved (t : Vector3) (o : Object3D) : Object3D :=
  with_root (fun f => set_position (add (position f) t) f) o.

(** The same object with its scale multiplied by [k] on every axis. *)
Definition rescaled (k : R) (o : Object3D) : Object3D :=
  with_root (fun f => set_scale (scaleBy k (scale f)) f) o.

End CameraAndPlacement.

(** ** Notions for the hologram round trip *)

(** The shape of a subtree: its nodes without their fields.  A traversal
    returns a tree of the shape it was given. *)
Local Unset Elimination Schemes.
Inductive Shape :=
| Branch (subs : list Shape).
Local Set Elimination Schemes.

Fixpoint shapeOf (o : Object3D) : Shape :=
  match o with
  | Node _ cs => Branch (map shapeOf cs)
  end.

(** The store after one [createHologramMaterial()] when the next new object
    gets the identity [n]: the colour, the two uniform holders, the uniforms
    object and the material, in the order they are created. *)
Definition hologramObjects (n : ref) (h : gmap ref jsobj) : gmap ref jsobj :=
  <[(4 + n)%nat := mkObj true None
                     [("vertexShader", VPrim true); ("fragmentShader", VPrim true);
                      ("uniforms", VRef (3 + n)%nat); ("transparent", VPrim true);
                      ("side", VPrim true); ("depthWrite", VPrim false)]]>
    (<[(3 + n)%nat := plainObject [("uColor", VRef (1 + n)%nat);
                                   ("uAlpha", VRef (2 + n)%nat)]]>
       (<[(2 + n)%nat := plainObject [("value", VPrim true)]]>
          (<[(1 + n)%nat := plainObject [("value", VRef n)]]>
             (<[n := plainObject []]> h)))).

(** What [toggleHologram(true)] leaves after it has visited the nodes [l],
    when the next new object gets the identity [n]: the nodes, the materials
    it has created (one per mesh), the store and the next identity. *)
Fixpoint previewNodes (n : ref) (l : list Fields) : list Fields :=
  match l with
  | [] => []
  | f :: l' =>
      if isMesh f
      then set_shadows false false (set_material (VRef (4 + n)%nat) f)
             :: previewNodes (5 + n) l'
      else f :: previewNodes n l'
  end.

Fixpoint previewRefs (n : ref) (l : list Fields) : list ref :=
  match l with
  | [] => []
  | f :: l' => if isMesh f then (4 + n)%nat :: previewRefs (5 + n) l' else previewRefs n l'
  end.

Fixpoint previewObjects (n : ref) (h : gmap ref jsobj) (l : list Fields) : gmap ref jsobj :=
  match l with
  | [] => h
  | f :: l' =>
      if isMesh f then previewObjects (5 + n) (hologramObjects n h) l'
      else previewObjects n h l'
  end.

Fixpoint previewNext (n : ref) (l : list Fields) : ref :=
  match l with
  | [] => n
  | f :: l' => if isMesh f then previewNext (5 + n) l' else previewNext n l'
  end.

(** The meshes of a subtree, in visiting order. *)
Definition meshes (o : Object3D) : list Fields := List.filter isMesh (nodes o).

(** No object of the store has an identity that is still to be given
    out. *)
Definition storeFresh (s : Viewer) : Prop :=
  forall r : ref, (nextRef s <= r)%nat -> objects s !! r = None.

(** What the disposer releases on the nodes [l] of a model shown as
    hologram whose nodes other than meshes hold nothing: for each mesh, its
    geometry and the material [toggleHologram(true)] gave it. *)
Fixpoint heldAsHologram (n : ref) (l : list Fields) : list ref :=
  match l with
  | [] => []
  | f :: l' =>
      if isMesh f
      then refOf (geometry f) ++ (4 + n)%nat :: heldAsHologram (5 + n) l'
      else heldAsHologram n l'
  end.

(** The objects whose [dispose] was called, among recorded calls. *)
Definition disposals (evs : list event) : list ref :=
  flat_map (fun e => match e with EvDispose r => [r] | _ => [] end) evs.

(** ** The page around the viewer *)

(** [s.toLowerCase()] on the letters A to Z; other characters are left as
    they are.  The viewer compares the result with names written in lower
    case ASCII letters only. *)
Definition lowerAscii (c : Ascii.ascii) : Ascii.ascii :=
  let n := Ascii.nat_of_ascii c in
  if (65 <=? n)%nat && (n <=? 90)%nat then Ascii.ascii_of_nat (n + 32) else c.

Fixpoint toLowerCase (s : string) : string :=
  match s with
  | EmptyString => EmptyString
  | String c s' => String (lowerAscii c) (toLowerCase s')
  end.

(** [s.endsWith(suffix)]: read from their ends, [s] starts with [suffix]. *)
Fixpoint startsWith (l prefix : list Ascii.ascii) {struct prefix} : bool :=
  match prefix, l with
  | [], _ => true
  | c :: prefix', d :: l' => Ascii.eqb c d && startsWith l' prefix'
  | _ :: _, [] => false
  end.

Definition endsWith (s suffix : string) : bool :=
  startsWith (rev (String.list_ascii_of_string s)) (rev (String.list_ascii_of_string suffix)).

(** A [File] of a file input or of a drop, as far as the viewer reads
    it. *)
Record File := mkFile { file_name : string }.

(** A load handed to a loader of the engine; its callbacks run when the
    loader is done.  [isFile] tells whether [url] is an object URL made for
    a local file, which the callbacks are to revoke. *)
Inductive Request :=
| RequestModel (url : string) (modelName : string) (isFile : bool)
| RequestHDRI (url : string)
| RequestPreset (url : string) (label : string).

(** The viewer and what [app.js] keeps around it: the render loop's
    switches, the mode of the transform gizmo with the buttons that show it
    (their [data-mode], and whether they carry the class [active]), the
    drop zone with the counter of [setupDragAndDrop], the loads under way,
    and what [console.log] has written. *)
Record App := mkApp {
  viewer : Viewer;
  autoRotate : bool;
  autoRotateSpeed : R;
  transformMode : option string;
  transformButtons : list (option string * bool);
  dragCounter : Z;
  dropZone_visible : bool;
  requests : list Request;
  console_log : list string
}.

Definition set_viewer (x : Viewer) (a : App) : App :=
  mkApp x (autoRotate a) (autoRotateSpeed a) (transformMode a) (transformButtons a)
        (dragCounter a) (dropZone_visible a) (requests a) (console_log a).
Definition set_autoRotate (x : bool) (a : App) : App :=
  mkApp (viewer a) x (autoRotateSpeed a) (transformMode a) (transformButtons a)
        (dragCounter a) (dropZone_visible a) (requests a) (console_log a).
Definition set_transformMode (x : option string) (a : App) : App :=
  mkApp (viewer a) (autoRotate a) (autoRotateSpeed a) x (transformButtons a)
        (dragCounter a) (dropZone_visible a) (requests a) (console_log a).
Definition set_transformButtons (x : list (option string * bool)) (a : App) : App :=
  mkApp (viewer a) (autoRotate a) (autoRotateSpeed a) (transformMode a) x
        (dragCounter a) (dropZone_visible a) (requests a) (console_log a).
Definition set_dragCounter (x : Z) (a : App) : App :=
  mkApp (viewer a) (autoRotate a) (autoRotateSpeed a) (transformMode a)
        (transformButtons a) x (dropZone_visible a) (requests a) (console_log a).
Definition set_dropZone_visible (x : bool) (a : App) : App :=
  mkApp (viewer a) (autoRotate a) (autoRotateSpeed a) (transformMode a) (transformButtons a)
        (dragCounter a) x (requests a) (console_log a).
Definition set_requests (x : list Request) (a : App) : App :=
  mkApp (viewer a) (autoRotate a) (autoRotateSpeed a) (transformMode a) (transformButtons a)
        (dragCounter a) (dropZone_visible a) x (console_log a).
Definition set_console_log (x : list string) (a : App) : App :=
  mkApp (viewer a) (autoRotate a) (autoRotateSpeed a) (transformMode a) (transformButtons a)
        (dragCounter a) (dropZone_visible a) (requests a) x.

(** A function of the viewer run from a handler of the page.  An exception
    ends the handler; the page goes on with the state as it then is. *)
Definition inViewer {A} (m : M A) (a : App) : App := set_viewer (snd (m (viewer a))) a.

(** [loader.load(url, onLoad, onProgress, onError)]. *)
Definition request (r : Request) (a : App) : App := set_requests (requests a ++ [r]) a.

(** [loadGLBModel(fileOrUrl, name)] up to the call of the loader;
    [objectURL] is what [URL.createObjectURL] returns if it is called. *)
Definition loadGLBModel (fileOrUrl : File + string) (name : option string)
    (objectURL : string) (a : App) : App :=
  let a := inViewer (showLoading true (Some "Cargando modelo...")) a in
  let isFile := match fileOrUrl with inl _ => true | inr _ => false end in
  let url := match fileOrUrl with inl _ => objectURL | inr url => url end in
  let modelName := nameOr name match fileOrUrl with
                               | inl file => file_name file
                               | inr _ => "Model"
                               end in
  request (RequestModel url modelName isFile) a.

(** The failure callback of [loadGLBModel]. *)
Definition loadGLBModel_onError (url : option string) : M unit :=
  emit (EvConsoleError "Error loading GLB:") ;;
  showLoading false None ;;
  emit (EvAlert "Error al cargar el modelo. Revisa la consola para más detalles.") ;;
  match url with
  | Some u => emit (EvRevokeObjectURL u)
  | None => ret tt
  end.

(** [loadHDRI(file)] up to the call of the loader. *)
Definition loadHDRI (file : File) (objectURL : string) (a : App) : App :=
  request (RequestHDRI objectURL) (inViewer loadHDRI_start a).

(** The success callback of [loadPresetEXR], for the preset whose label is
    [label]. *)
Definition loadPresetEXR_onLoad (texture : ref) (label : string) (a : App) : App :=
  match (applyEnvironmentTexture texture ;; showLoading false None) (viewer a) with
  | (Returned _, v) =>
      set_console_log (console_log a ++ [("Environment loaded: " ++ label)%string])
                      (set_viewer v a)
  | (Thrown, v) => set_viewer v a
  end.

(** The handlers of [setupDragAndDrop].  The counter only ever holds small
    whole numbers. *)
Definition ondragenter (a : App) : App :=
  set_dropZone_visible true (set_dragCounter (dragCounter a + 1) a).

Definition ondragleave (a : App) : App :=
  let a := set_dragCounter (dragCounter a - 1) a in
  if (dragCounter a <=? 0)%Z
  then set_dropZone_visible false (set_dragCounter 0 a)
  else a.

Definition ondragover (a : App) : App := a.

Definition ondrop (files : list File) (objectURL : string) (a : App) : App :=
  let a := set_dropZone_visible false (set_dragCounter 0 a) in
  match files with
  | file :: _ =>
      let name := toLowerCase (file_name file) in
      if endsWith name ".glb" || endsWith name ".gltf" then
        loadGLBModel (inl file) None objectURL a
      else if endsWith name ".exr" then
        loadHDRI file objectURL a
      else
        inViewer (emit (EvAlert "Formato no soportado. Usa archivos .glb o .exr")) a
  | [] => a
  end.

(** [setTransformMode(mode)]; [None] is [undefined], the [data-mode] of a
    button that has none. *)
Definition sameMode (m1 m2 : option string) : bool :=
  match m1, m2 with
  | Some x, Some y => String.eqb x y
  | None, None => true
  | _, _ => false
  end.

Definition setTransformMode (mode : option string) (a : App) : App :=
  let a := set_transformMode mode a in
  set_transformButtons (map (fun btn => (fst btn, sameMode (fst btn) mode))
                            (transformButtons a)) a.

(** The [keydown] handler of the window, from [e.key] and [e.ctrlKey]. *)
Definition onkeydown (key : string) (ctrlKey : bool) (a : App) : App :=
  let k := toLowerCase key in
  if String.eqb k "g" then setTransformMode (Some "translate") a
  else if String.eqb k "r" then setTransformMode (Some "rotate") a
  else if String.eqb k "s" then
    if negb ctrlKey then setTransformMode (Some "scale") a else a
  else if String.eqb k "escape" then
    match currentModel (viewer a) with
    | Some _ => inViewer transformControls_detach a
    | None => a
    end
  else if String.eqb k "f" then
    match currentModel (viewer a) with
    | Some model => inViewer (frameModel model) a
    | None => a
    end
  else a.

Section RenderLoop.
Local Open Scope R_scope.

(** [rotation.y += angle]. *)
Definition spin (angle : R) (f : Fields) : Fields :=
  let r := rotation f in
  set_rotation (mkEuler (ex r) (ey r + angle) (ez r) (order r)) f.

(** One frame of [animate()], [delta] being what [clock.getDelta()]
    returns; drawing the scene changes nothing of the state. *)
Definition animate (delta : R) (a : App) : App :=
  let a := match currentModel (viewer a) with
           | Some model =>
               if autoRotate a
               then set_viewer (set_currentModel
                                  (Some (with_root (spin (autoRotateSpeed a * delta)) model))
                                  (viewer a)) a
               else a
           | None => a
           end in
  inViewer orbitControls_update a.

(** The frames of the render loop, one per [delta]. *)
Definition frames (deltas : list R) (a : App) : App :=
  fold_left (fun a delta => animate delta a) deltas a.

Definition elapsed (deltas : list R) : R := fold_right Rplus 0 deltas.

End RenderLoop.

(** The handler of the auto-rotate switch. *)
Definition toggleAutoRotate (checked : bool) (a : App) : App := set_autoRotate checked a.

(** The handler of the HDRI background switch; the browser has set the
    checkbox to [checked] before it runs. *)
Definition toggleHdriBackground (checked : bool) : M unit :=
  modify (fun s =>
            let d := dom s in
            set_dom (mkDom (toggle_hologram d)
                           (match toggle_hdri_bg d with
                            | Some _ => Some checked
                            | None => None
                            end)
                           (loading_visible d) (loading_text d)) s) ;;
  hdri <- gets currentHDRI ;;
  match checked, hdri with
  | true, Some texture =>
      modify (set_scene_background (BgTexture texture)) ;;
      emit (EvSetBackground texture)
  | _, _ => modify (set_scene_background (BgColor 0))
  end.

(** The handler of the wireframe switch, and its callback. *)
Definition setWireframe (checked : bool) (child : Fields) : M Fields :=
  when (isMesh child && truthy (material child))
       (setProperty (material child) "wireframe" (VPrim checked)) ;;
  ret child.

Definition toggleWireframe (checked : bool) : M unit :=
  current <- gets currentModel ;;
  match current with
  | Some model => traverse (setWireframe checked) model ;; ret tt
  | None => ret tt
  end.

(** The events of a drag over the page, and the page after a sequence of
    them. *)
Inductive DragEvent :=
| DragEnter
| DragLeave
| DragOver
| Drop (files : list File) (objectURL : string).

Definition drag (e : DragEvent) (a : App) : App :=
  match e with
  | DragEnter => ondragenter a
  | DragLeave => ondragleave a
  | DragOver => ondragover a
  | Drop files objectURL => ondrop files objectURL a
  end.

Definition isDrop (e : DragEvent) : bool :=
  match e with
  | Drop _ _ => true
  | _ => false
  end.

Definition dragAll (es : list DragEvent) (a : App) : App :=
  fold_left (fun a e => drag e a) es a.

(** The drop zone shows exactly while the counter is positive. *)
Definition dropZoneOk (a : App) : Prop :=
  (0 <= dragCounter a)%Z /\ (dropZone_visible a = true <-> (0 < dragCounter a)%Z).

Section Started.
Local Open Scope R_scope.

(** The page once [init()] has run, with its drop zone hidden and the three
    mode buttons of which the first is active: the loads of the default
    environment and of the default model are under way. *)
Definition started : App :=
  mkApp initial true 0.5 (Some "translate")
        [(Some "translate", true); (Some "rotate", false); (Some "scale", false)]
        0%Z false
        [RequestPreset "https://dl.polyhaven.org/file/ph-assets/HDRIs/exr/2k/evening_road_01_2k.exr"
                       "Camino al Atardecer";
         RequestModel "assets/Astronaut.glb" "Astronaut.glb" false]
        [].

(** A page showing [modelA] as a load has left it: current, with the
    snapshot of its transform. *)
Definition showingA : App :=
  set_viewer (set_modelInitialTransform (Some (transformOf (root modelA)))
                (set_currentModel (Some modelA) loaded))
             started.

End Started.

(** The store after [toggleWireframe(checked)] has visited the nodes [l]:
    the material object of every mesh that has one carries the flag. *)
Fixpoint wireframeObjects (checked : bool) (h : gmap ref jsobj) (l : list Fields)
  : gmap ref jsobj :=
  match l with
  | [] => h
  | f :: l' =>
      match usesEnvironment f, material f with
      | true, VRef r =>
          wireframeObjects checked (<[r := setProp "wireframe" (VPrim checked) (deref h r)]> h) l'
      | _, _ => wireframeObjects checked h l'
      end
  end.

(** A mesh with two materials: its material field holds the array 9, whose
    elements are the materials 2 and 7 of the samples. *)
Definition arrayMesh : Object3D :=
  Node (freshNode "M" true (VRef 1) (VRef 9) Box3Empty) [].

Definition multiMaterial : Viewer :=
  set_currentModel (Some arrayMesh)
    (set_nextRef 10
       (set_objects (<[9%nat := mkObj false (Some [VRef 2; VRef 7]) []]> sampleObjects)
                    loaded)).

(** ** The handlers of the page, one after another *)

(** What can happen to the page once [init()] has run: a loader calls back,
    the user clicks, switches, types or drags, the gizmo is dragged (the
    engine then writes the transform of the object the gizmo holds), the
    browser asks for a frame.  A loader that calls the failure callback
    after a success callback that threw makes two of these, one after the
    other. *)
Inductive Action :=
| ModelLoaded (gltf_scene : Object3D) (modelName : string) (url : option string)
| ModelFailed (url : option string)
| HdriLoaded (url : string) (texture : ref)
| HdriFailed (url : string)
| PresetLoaded (texture : ref) (label : string)
| PresetFailed (label : string)
| ClickResetCamera
| ClickResetModel
| GizmoDrag (g : Transform -> Transform)
| SwitchHologram (checked : bool)
| SwitchHdriBackground (checked : bool)
| SwitchWireframe (checked : bool)
| SwitchAutoRotate (checked : bool)
| ClickMode (mode : option string)
| KeyDown (key : string) (ctrlKey : bool)
| Frame (delta : R)
| Drag (e : DragEvent).

Definition handle (x : Action) (a : App) : App :=
  match x with
  | ModelLoaded gltf_scene modelName url =>
      inViewer (loadGLBModel_onLoad gltf_scene modelName url) a
  | ModelFailed url => inViewer (loadGLBModel_onError url) a
  | HdriLoaded url texture => inViewer (loadHDRI_onLoad url texture) a
  | HdriFailed url => inViewer (loadHDRI_onError url) a
  | PresetLoaded texture label => loadPresetEXR_onLoad texture label a
  | PresetFailed label => inViewer (loadPresetEXR_onError label) a
  | ClickResetCamera => inViewer resetCamera a
  | ClickResetModel => inViewer resetModelTransform a
  | GizmoDrag g =>
      match gizmo_object (viewer a) with
      | Some _ => inViewer (editTransform g) a
      | None => a
      end
  | SwitchHologram checked => inViewer (toggleHologram checked) a
  | SwitchHdriBackground checked => inViewer (toggleHdriBackground checked) a
  | SwitchWireframe checked => inViewer (toggleWireframe checked) a
  | SwitchAutoRotate checked => toggleAutoRotate checked a
  | ClickMode mode => setTransformMode mode a
  | KeyDown key ctrlKey => onkeydown key ctrlKey a
  | Frame delta => animate delta a
  | Drag e => drag e a
  end.

Definition handleAll (xs : list Action) (a : App) : App :=
  fold_left (fun a x => handle x a) xs a.

(** The uuids of the meshes of the current model. *)
Definition meshIds (s : Viewer) : list string :=
  match currentModel s with
  | Some model => map uuid (meshes model)
  | None => []
  end.

(** What the handlers keep true of the viewer, whether they return or
    throw: the gizmo holds the current model or nothing; there is a snapshot
    of the initial transform exactly when there is a current model; the
    hologram is on only for a current model; the saved materials are saved
    under uuids of meshes of the current model; and while the hologram is on
    every mesh of the current model has a saved material. *)
Definition consistent (s : Viewer) : Prop :=
  (gizmo_object s = None \/ gizmo_object s = currentId s) /\
  (modelInitialTransform s = None <-> currentModel s = None) /\
  (hologramActive s = true -> currentModel s <> None) /\
  (forall k, has (originalMaterials s) k = true -> In k (meshIds s)) /\
  (hologramActive s = true -> forall k, In k (meshIds s) -> has (originalMaterials s) k = true).

(** The part of the viewer [consistent] looks at. *)
Definition modelPart (s : Viewer)
  : option string * option Object3D * option Transform * bool * gmap string value :=
  (gizmo_object s, currentModel s, modelInitialTransform s, hologramActive s,
   originalMaterials s).

(** What the handlers keep true of the environment, whether they return
    or throw: the scene has a lighting environment exactly when there is a
    current environment map; a texture shown as background is the lighting
    environment or the current map; a colour shown as background is
    black. *)
Definition envConsistent (s : Viewer) : Prop :=
  (currentHDRI s = None <-> scene_environment s = None) /\
  (forall r, scene_background s = BgTexture r ->
             scene_environment s = Some r \/ currentHDRI s = Some r) /\
  (forall hex, scene_background s = BgColor hex -> hex = 0%Z).

(** The part of the viewer [envConsistent] looks at. *)
Definition envPart (s : Viewer) : option ref * Background * option ref :=
  (scene_environment s, scene_background s, currentHDRI s).

(** What the scene shows of the environment. *)
Definition shownPart (s : Viewer) : option ref * Background :=
  (scene_environment s, scene_background s).

(** A computation that leaves a part of the viewer alone, whatever its
    outcome. *)
Definition Keeping {P A} (part : Viewer -> P) (m : M A) : Prop :=
  forall s, part (snd (m s)) = part s.

(** The buttons show the mode of the gizmo. *)
Definition modeShown (a : App) : Prop :=
  Forall (fun btn => snd btn = sameMode (fst btn) (transformMode a)) (transformButtons a).

(** The object URLs that were revoked, among recorded calls. *)
Definition revoked (evs : list event) : list string :=
  flat_map (fun e => match e with EvRevokeObjectURL u => [u] | _ => [] end) evs.

(** The store after [applyEnvironmentTexture] has visited the nodes [l]:
    the material object of every mesh that has one carries the texture. *)
Fixpoint environmentObjects (texture : ref) (h : gmap ref jsobj) (l : list Fields)
  : gmap ref jsobj :=
  match l with
  | [] => h
  | f :: l' =>
      match usesEnvironment f, material f with
      | true, VRef r => environmentObjects texture (withEnvironment texture r h) l'
      | _, _ => environmentObjects texture h l'
      end
  end.

(** * Properties *)

(** Projections of states built with the setters. *)
Ltac state_simpl :=
  cbn [objects nextRef scene_children scene_environment scene_background camera_fov
       camera_position orbit_target gizmo_object currentModel currentHDRI
       modelInitialTransform hologramActive originalMaterials dom trace
       set_objects set_nextRef set_scene_children set_scene_environment
       set_scene_background set_camera_position set_orbit_target set_gizmo_object
       set_currentModel set_currentHDRI set_modelInitialTransform set_hologramActive
       set_originalMaterials set_dom set_trace logged].

(** ** Traversals *)

Section Traversal.

Lemma Object3D_ind (P : Object3D -> Prop) :
  (forall f cs, Forall P cs -> P (Node f cs)) -> forall o, P o.
Proof.
  intros H. fix IH 1. intros [f cs]. apply H.
  induction cs as [|c cs IHcs]; constructor; [apply IH | exact IHcs].
Qed.

Lemma traverse_unfold (cb : Fields -> M Fields) (f : Fields) (cs : list Object3D) :
  traverse cb (Node f cs)
  = (f' <- cb f ;; cs' <- traverseList cb cs ;; ret (Node f' cs')).
Proof. reflexivity. Qed.

Lemma nodes_unfold (f : Fields) (cs : list Object3D) :
  nodes (Node f cs) = f :: nodesList cs.
Proof. reflexivity. Qed.

Lemma mapM_app (cb : Fields -> M Fields) (l1 l2 : list Fields) (s : Viewer) :
  mapM cb (l1 ++ l2) s
  = match mapM cb l1 s with
    | (Returned l1', s1) =>
        match mapM cb l2 s1 with
        | (Returned l2', s2) => (Returned (l1' ++ l2'), s2)
        | (Thrown, s2) => (Thrown, s2)
        end
    | (Thrown, s1) => (Thrown, s1)
    end.
Proof.
  revert s. induction l1 as [|f l1 IH]; intros s; simpl.
  - unfold ret. destruct (mapM cb l2 s) as [[l2'|] s2]; reflexivity.
  - unfold bind. destruct (cb f s) as [[f'|] s1]; [|reflexivity].
    rewrite IH. destruct (mapM cb l1 s1) as [[l1'|] s2]; [|reflexivity].
    unfold ret. destruct (mapM cb l2 s2) as [[l2'|] s3]; reflexivity.
Qed.

(** A traversal runs the callback over the nodes in visiting order, and the
    tree it returns carries the nodes the callback returned. *)
Lemma traverse_spec (cb : Fields -> M Fields) (o : Object3D) (s : Viewer) :
  match traverse cb o s with
  | (Returned o', s') => mapM cb (nodes o) s = (Returned (nodes o'), s')
  | (Thrown, s') => mapM cb (nodes o) s = (Thrown, s')
  end.
Proof.
  revert s. induction o as [f cs IH] using Object3D_ind. intros s.
  rewrite traverse_unfold, nodes_unfold. simpl. unfold bind.
  destruct (cb f s) as [[f'|] s1]; [|reflexivity].
  assert (Hl : match traverseList cb cs s1 with
               | (Returned cs', s') => mapM cb (nodesList cs) s1 = (Returned (nodesList cs'), s')
               | (Thrown, s') => mapM cb (nodesList cs) s1 = (Thrown, s')
               end).
  { clear f f' s. revert s1. induction IH as [|c cs Hc _ IHcs]; intros s1; simpl.
    - reflexivity.
    - unfold bind. specialize (Hc s1). rewrite mapM_app.
      destruct (traverse cb c s1) as [[c'|] s2]; rewrite Hc; [|reflexivity].
      specialize (IHcs s2). fold (traverseList cb).
      destruct (traverseList cb cs s2) as [[cs'|] s3]; rewrite IHcs; reflexivity. }
  destruct (traverseList cb cs s1) as [[cs'|] s2]; rewrite Hl; reflexivity.
Qed.

Lemma traverse_returned (cb : Fields -> M Fields) (o : Object3D) (s s' : Viewer)
    (l' : list Fields) :
  mapM cb (nodes o) s = (Returned l', s') ->
  exists o', traverse cb o s = (Returned o', s') /\ nodes o' = l'.
Proof.
  intros H. pose proof (traverse_spec cb o s) as Hs.
  destruct (traverse cb o s) as [[o'|] s2]; rewrite H in Hs; [|discriminate].
  injection Hs as -> ->. eauto.
Qed.

Lemma nodes_root (o : Object3D) : exists l, nodes o = root o :: l.
Proof. destruct o as [f cs]. exists (nodesList cs). reflexivity. Qed.

Lemma nodes_with_root (g : Fields -> Fields) (o : Object3D) :
  nodes (with_root g o) = g (root o) :: tail (nodes o).
Proof. destruct o. reflexivity. Qed.

End Traversal.

(** Evaluation of [Rmin] and [Rmax] on numerals. *)
Ltac eval_minmax :=
  repeat match goal with
         | |- context [Rmin ?a ?b] =>
             first [rewrite (Rmin_left a b) by lra | rewrite (Rmin_right a b) by lra]
         | |- context [Rmax ?a ?b] =>
             first [rewrite (Rmax_left a b) by lra | rewrite (Rmax_right a b) by lra]
         end.

Section FramingFacts.
Local Open Scope R_scope.

Lemma tan_PI8 : tan (PI / 8) = sqrt 2 - 1.
Proof.
  assert (Hpi := PI_RGT_0).
  assert (Hc : 0 < cos (PI / 8)) by (apply cos_gt_0; lra).
  assert (Hs : 0 < sin (PI / 8)) by (apply sin_gt_0; lra).
  assert (H4 : sin (PI / 4) = cos (PI / 4)) by (rewrite sin_PI4, cos_PI4; reflexivity).
  replace (PI / 4) with (2 * (PI / 8)) in H4 by lra.
  rewrite sin_2a, cos_2a in H4.
  set (s := sin (PI / 8)) in *. set (c := cos (PI / 8)) in *.
  assert (Ht : (s / c + 1) * (s / c + 1) = 2).
  { field_simplify; [|lra]. 
    apply (Rmult_eq_reg_r (c ^ 2)); [|nra]. field_simplify; [|lra]. nra. }
  unfold tan. fold s c.
  symmetry. apply Rplus_eq_reg_r with 1. ring_simplify.
  apply sqrt_lem_1; [lra| |].
  - assert (0 < s / c) by (apply Rdiv_lt_0_compat; lra). lra.
  - rewrite <- Ht. ring.
Qed.

Lemma sqrt2_bounds : 1.41421 < sqrt 2 < 1.41422.
Proof.
  assert (H0 : 0 < sqrt 2) by (apply sqrt_lt_R0; lra).
  assert (H2 : sqrt 2 * sqrt 2 = 2) by (apply sqrt_sqrt; lra).
  split.
  - destruct (Rlt_dec 1.41421 (sqrt 2)) as [|Hn]; [assumption | exfalso; nra].
  - destruct (Rlt_dec (sqrt 2) 1.41422) as [|Hn]; [assumption | exfalso; nra].
Qed.

Lemma axis_ordered (p s lo hi : R) : axis_lo p s lo hi <= axis_hi p s lo hi.
Proof.
  unfold axis_lo, axis_hi.
  pose proof (Rmin_l (s * lo) (s * hi)). pose proof (Rmax_l (s * lo) (s * hi)). lra.
Qed.

Lemma getSize_nonneg (o : Object3D) :
  let size := getSize (Box3_setFromObject o) in
  0 <= vx size /\ 0 <= vy size /\ 0 <= vz size.
Proof.
  unfold Box3_setFromObject.
  destruct (bounds (root o)) as [|lo hi]; simpl; [lra|].
  pose proof (axis_ordered (vx (position (root o))) (vx (scale (root o))) (vx lo) (vx hi)).
  pose proof (axis_ordered (vy (position (root o))) (vy (scale (root o))) (vy lo) (vy hi)).
  pose proof (axis_ordered (vz (position (root o))) (vz (scale (root o))) (vz lo) (vz hi)).
  lra.
Qed.

Lemma max3_nonneg (a b c : R) : 0 <= a -> 0 <= max3 a b c.
Proof.
  intros Ha. unfold max3.
  pose proof (Rmax_l (Rmax a b) c). pose proof (Rmax_l a b). lra.
Qed.

Lemma maxDimOf_nonneg (o : Object3D) : 0 <= maxDimOf o.
Proof.
  unfold maxDimOf. destruct (getSize_nonneg o) as (Hx & _ & _).
  apply max3_nonneg. exact Hx.
Qed.

Lemma tan_half_fov_pos (fov : R) :
  0 < fov < 180 -> 0 < tan (fov * (PI / 180) / 2).
Proof.
  intros [Hlo Hhi]. assert (Hpi := PI_RGT_0).
  apply tan_gt_0; nra.
Qed.

Lemma cameraZ_eq (fov maxDim : R) :
  0 < fov < 180 -> 0 <= maxDim ->
  cameraZ fov maxDim = maxDim / (2 * tan (fov * (PI / 180) / 2)) * 1.2.
Proof.
  intros Hfov Hm. unfold cameraZ. pose proof (tan_half_fov_pos fov Hfov) as Ht.
  rewrite Rabs_pos_eq; [reflexivity|].
  apply Rmult_le_pos; [assumption|].
  apply Rlt_le, Rinv_0_lt_compat. lra.
Qed.

Lemma frameModel_run (object : Object3D) (s : Viewer) :
  frameModel object s =
  (Returned tt,
   let center := getCenter (Box3_setFromObject object) in
   let d := cameraZ (camera_fov s) (maxDimOf object) in
   set_trace (trace s ++ [EvOrbitUpdate])
     (set_orbit_target center
        (set_camera_position
           (mkVector3 (vx center + d * 0.4) (vy center + d * 0.25) (vz center + d * 0.9))
           s))).
Proof. reflexivity. Qed.


Lemma scenarioModel_box :
  Box3_setFromObject scenarioModel
  = Box3Make (mkVector3 (-1) (-1) (-1)) (mkVector3 3 5 2).
Proof.
  unfold Box3_setFromObject, scenarioModel, transformBox, axis_lo, axis_hi; simpl.
  eval_minmax. f_equal; f_equal; lra.
Qed.

Lemma pointModel_maxDim : maxDimOf pointModel = 0.
Proof.
  unfold maxDimOf, Box3_setFromObject, pointModel, transformBox, axis_lo, axis_hi, max3;
    simpl.
  eval_minmax. lra.
Qed.

(** C7.  For an object whose measured box is [lo, hi] and a camera with a
    vertical field of view of [fov] degrees (between 0 and 180),
    [frameModel] returns, the distance it uses is
    [maxDim / (2 tan(fov/2)) * 1.2] with [maxDim] the largest side of the
    box, the camera position it assigns is [center + distance * (0.4, 0.25,
    0.9)] and the look-at target is [center].  For the box [(-1,-1,-1),
    (3,5,2)] and 45 degrees the distance is within 0.01 of 8.70 and the
    camera position within 0.01 of (1+3.48, 2+2.175, 0.5+7.83) on each
    axis. *)
Theorem frameModel_formula (object : Object3D) (s : Viewer) (lo hi : Vector3) :
  Box3_setFromObject object = Box3Make lo hi ->
  0 < camera_fov s < 180 ->
  let size := sub hi lo in
  let center := mkVector3 ((vx lo + vx hi) / 2) ((vy lo + vy hi) / 2) ((vz lo + vz hi) / 2) in
  let maxDim := Rmax (Rmax (vx size) (vy size)) (vz size) in
  let fov := camera_fov s * (PI / 180) in
  let distance := maxDim / (2 * tan (fov / 2)) * 1.2 in
  exists s',
    frameModel object s = (Returned tt, s') /\
    cameraZ (camera_fov s) (maxDimOf object) = distance /\
    camera_position s'
    = mkVector3 (vx center + distance * 0.4) (vy center + distance * 0.25)
                (vz center + distance * 0.9) /\
    orbit_target s' = center /\
    (lo = mkVector3 (-1) (-1) (-1) -> hi = mkVector3 3 5 2 -> camera_fov s = 45 ->
     Rabs (distance - 8.70) < 0.01 /\
     Rabs (vx (camera_position s') - (1 + 3.48)) < 0.01 /\
     Rabs (vy (camera_position s') - (2 + 2.175)) < 0.01 /\
     Rabs (vz (camera_position s') - (0.5 + 7.83)) < 0.01).
Proof.
  intros Hbox Hfov size center maxDim fov distance.
  assert (Hmax : maxDimOf object = maxDim).
  { unfold maxDimOf. rewrite Hbox. reflexivity. }
  assert (Hd : cameraZ (camera_fov s) (maxDimOf object) = distance).
  { rewrite cameraZ_eq; [rewrite Hmax; reflexivity | assumption | apply maxDimOf_nonneg]. }
  assert (Hc : getCenter (Box3_setFromObject object) = center).
  { rewrite Hbox. unfold center. simpl. f_equal; lra. }
  eexists. split; [apply frameModel_run|]. cbv zeta. rewrite Hd, Hc. simpl.
  split; [reflexivity|]. split; [reflexivity|]. split; [reflexivity|].
  intros -> -> H45.
  assert (Hdist : distance = 3.6 * (sqrt 2 + 1)).
  { unfold distance, maxDim, fov, size. simpl. rewrite H45.
    replace (45 * (PI / 180) / 2) with (PI / 8) by lra.
    rewrite tan_PI8. eval_minmax.
    pose proof sqrt2_bounds as Hb.
    apply (Rmult_eq_reg_r (2 * (sqrt 2 - 1))); [|lra].
    field_simplify; [|lra].
    assert (Hsq : sqrt 2 * sqrt 2 = 2) by (apply sqrt_sqrt; lra).
    nra. }
  unfold center; simpl. rewrite Hdist.
  pose proof sqrt2_bounds as Hb.
  repeat split; apply Rabs_def1; lra.
Qed.

Lemma frameModel_formula_witness :
  exists s',
    frameModel scenarioModel initial = (Returned tt, s') /\
    Rabs (vx (camera_position s') - (1 + 3.48)) < 0.01.
Proof.
  assert (Hfov : 0 < camera_fov initial < 180) by (simpl; lra).
  destruct (frameModel_formula scenarioModel initial _ _ scenarioModel_box Hfov)
    as (s' & Hrun & _ & _ & _ & Hnum).
  exists s'. split; [exact Hrun|].
  destruct (Hnum eq_refl eq_refl eq_refl) as (_ & Hx & _). exact Hx.
Defined.

(** [frameModel] is its assignments followed by the call of the
    controller. *)
Lemma frameModel_steps (object : Object3D) :
  frameModel object = (frameModel_assign object ;; orbitControls_update)%viewer.
Proof. reflexivity. Qed.

Lemma frameModel_assign_run (object : Object3D) (s : Viewer) :
  frameModel_assign object s =
  (Returned tt,
   let center := getCenter (Box3_setFromObject object) in
   let d := cameraZ (camera_fov s) (maxDimOf object) in
   set_orbit_target center
     (set_camera_position
        (mkVector3 (vx center + d * 0.4) (vy center + d * 0.25) (vz center + d * 0.9))
        s)).
Proof. reflexivity. Qed.

(** The controller leaves the camera within its limits, whatever it finds. *)
Lemma clampDistance_bounds (dist : R) : minDistance <= clampDistance dist <= maxDistance.
Proof.
  unfold clampDistance, minDistance, maxDistance.
  split; [apply Rmax_l|]. apply Rmax_lub; [lra | apply Rmin_l].
Qed.

(** The offset [frameModel] gives the camera has length
    [cameraZ * sqrt 1.0325]. *)
Lemma distanceTo_offset (c : Vector3) (d : R) :
  0 <= d ->
  distanceTo (mkVector3 (vx c + d * 0.4) (vy c + d * 0.25) (vz c + d * 0.9)) c
  = d * sqrt 1.0325.
Proof.
  intros Hd. unfold distanceTo, sub. cbn [vx vy vz].
  replace ((vx c + d * 0.4 - vx c) * (vx c + d * 0.4 - vx c)
           + (vy c + d * 0.25 - vy c) * (vy c + d * 0.25 - vy c)
           + (vz c + d * 0.9 - vz c) * (vz c + d * 0.9 - vz c))
    with (d * d * 1.0325) by lra.
  rewrite sqrt_mult_alt by nra. rewrite sqrt_square by assumption. reflexivity.
Qed.

(** C3, as stated, fails: for a mesh reduced to one vertex the distance
    [frameModel] computes is 0, not positive, and the position it gives the
    camera, before it calls the controller, is the look-at target.  What
    keeps the camera off the target is the controller's lower limit: its
    update leaves the camera 0.1 away. *)
Lemma frameModel_zero_size_counterexample :
  let atUpdate := snd (frameModel_assign pointModel initial) in
  frameModel pointModel initial = orbitControls_update atUpdate /\
  cameraZ (camera_fov initial) (maxDimOf pointModel) = 0 /\
  ~ 0 < cameraZ (camera_fov initial) (maxDimOf pointModel) /\
  camera_position atUpdate = orbit_target atUpdate /\
  updatedDistance 1 (camera_position atUpdate) (orbit_target atUpdate) = 0.1.
Proof.
  assert (Hz : cameraZ (camera_fov initial) (maxDimOf pointModel) = 0).
  { rewrite pointModel_maxDim. unfold cameraZ.
    replace (0 / (2 * tan (camera_fov initial * (PI / 180) / 2))) with 0
      by (unfold Rdiv; ring).
    rewrite Rabs_R0. ring. }
  cbv zeta. split; [reflexivity|]. split; [exact Hz|]. split; [lra|].
  rewrite frameModel_assign_run. cbv zeta. rewrite Hz.
  cbn [snd camera_position orbit_target set_orbit_target set_camera_position].
  assert (Hpos : mkVector3 (vx (getCenter (Box3_setFromObject pointModel)) + 0 * 0.4)
                           (vy (getCenter (Box3_setFromObject pointModel)) + 0 * 0.25)
                           (vz (getCenter (Box3_setFromObject pointModel)) + 0 * 0.9)
                 = getCenter (Box3_setFromObject pointModel)).
  { destruct (getCenter (Box3_setFromObject pointModel)) as [cx cy cz]; cbn [vx vy vz].
    f_equal; ring. }
  split; [exact Hpos|].
  unfold updatedDistance. rewrite distanceTo_offset by lra.
  unfold clampDistance, minDistance, maxDistance.
  rewrite !Rmult_0_l. eval_minmax. reflexivity.
Qed.

(** C3, amended.  For every object and a field of view between 0 and 180
    degrees the distance [frameModel] computes is never negative; it is
    positive exactly when the largest side of the measured box is, and 0
    for a box of zero size (or no geometry): small sizes are not raised to
    an epsilon, and the position [frameModel] then gives the camera, before
    it calls the controller, is the look-at target.  The offset it gives has
    length [distance * sqrt 1.0325].  The camera is nevertheless not left at
    the target: the update of the controller, which is the last statement
    of [frameModel], leaves it between 0.1 and 100 from the target, whatever
    zoom is pending, and at exactly 0.1 for a box of zero size. *)
Theorem frameModel_distance_sign (object : Object3D) (s : Viewer) :
  0 < camera_fov s < 180 ->
  let d := cameraZ (camera_fov s) (maxDimOf object) in
  let atUpdate := snd (frameModel_assign object s) in
  frameModel object s = orbitControls_update atUpdate /\
  0 <= d /\
  (0 < d <-> 0 < maxDimOf object) /\
  (maxDimOf object = 0 -> d = 0 /\ camera_position atUpdate = orbit_target atUpdate) /\
  distanceTo (camera_position atUpdate) (orbit_target atUpdate) = d * sqrt 1.0325 /\
  (forall zoom,
     0.1 <= updatedDistance zoom (camera_position atUpdate) (orbit_target atUpdate) <= 100) /\
  (maxDimOf object = 0 -> forall zoom,
     updatedDistance zoom (camera_position atUpdate) (orbit_target atUpdate) = 0.1).
Proof.
  intros Hfov d atUpdate.
  pose proof (maxDimOf_nonneg object) as Hm.
  pose proof (tan_half_fov_pos _ Hfov) as Ht.
  assert (Hd : d = maxDimOf object * (/ (2 * tan (camera_fov s * (PI / 180) / 2)) * 1.2)).
  { unfold d. rewrite cameraZ_eq by assumption. unfold Rdiv. ring. }
  assert (Hk : 0 < / (2 * tan (camera_fov s * (PI / 180) / 2)) * 1.2).
  { apply Rmult_lt_0_compat; [apply Rinv_0_lt_compat|]; lra. }
  assert (Hd0 : 0 <= d) by (rewrite Hd; apply Rmult_le_pos; lra).
  assert (Hlen : distanceTo (camera_position atUpdate) (orbit_target atUpdate)
                 = d * sqrt 1.0325).
  { unfold atUpdate. rewrite frameModel_assign_run. cbv zeta. fold d.
    cbn [snd camera_position orbit_target set_orbit_target set_camera_position].
    apply distanceTo_offset. exact Hd0. }
  split; [reflexivity|]. split; [exact Hd0|]. split; [|split; [|split; [exact Hlen|split]]].
  - rewrite Hd. split; intros H.
    + destruct Hm as [Hm | Hm]; [assumption | rewrite <- Hm in H; lra].
    + apply Rmult_lt_0_compat; assumption.
  - intros H0. split; [rewrite Hd, H0; ring|].
    unfold atUpdate. rewrite frameModel_assign_run. cbv zeta. fold d.
    rewrite Hd, H0. simpl.
    destruct (getCenter (Box3_setFromObject object)) as [cx cy cz]; simpl.
    f_equal; ring.
  - intros zoom. apply clampDistance_bounds.
  - intros H0 zoom. unfold updatedDistance. rewrite Hlen, Hd, H0.
    unfold clampDistance, minDistance, maxDistance.
    rewrite !Rmult_0_l. eval_minmax. reflexivity.
Qed.

Lemma frameModel_distance_sign_witness :
  0 <= cameraZ (camera_fov initial) (maxDimOf scenarioModel) /\
  (forall zoom,
     0.1 <= updatedDistance zoom
              (camera_position (snd (frameModel_assign scenarioModel initial)))
              (orbit_target (snd (frameModel_assign scenarioModel initial))) <= 100).
Proof.
  assert (Hfov : 0 < camera_fov initial < 180) by (simpl; lra).
  destruct (frameModel_distance_sign scenarioModel initial Hfov)
    as (_ & Hd & _ & _ & _ & Hz & _).
  split; [exact Hd | exact Hz].
Defined.

End FramingFacts.

(** ** The disposer *)

Section Disposer.

Lemma logged_nil (s : Viewer) : logged [] s = s.
Proof. destruct s. unfold logged, set_trace. simpl. rewrite app_nil_r. reflexivity. Qed.

Lemma logged_logged (e1 e2 : list event) (s : Viewer) :
  logged e2 (logged e1 s) = logged (e1 ++ e2) s.
Proof. unfold logged, set_trace. simpl. rewrite app_assoc. reflexivity. Qed.

Lemma objects_logged (evs : list event) (s : Viewer) : objects (logged evs s) = objects s.
Proof. reflexivity. Qed.

Lemma callDispose_run (v : value) (s : Viewer) :
  disposable (objects s) v = true ->
  callDispose v s = (Returned tt, logged (map EvDispose (refOf v)) s).
Proof.
  destruct v as [| | b|r]; simpl; try discriminate.
  intros H. unfold callDispose, bind, gets. rewrite H. reflexivity.
Qed.

Lemma disposeValues_run (vs : list value) (s : Viewer) :
  forEach (fun value => h' <- gets objects ;; when (disposable h' value) (callDispose value))
          vs s
  = (Returned tt,
     logged (map EvDispose (flat_map refOf (List.filter (disposable (objects s)) vs))) s).
Proof.
  revert s. induction vs as [|v vs IH]; intros s; simpl.
  - rewrite logged_nil. reflexivity.
  - unfold bind at 1. unfold bind at 1. unfold gets at 1.
    destruct (disposable (objects s) v) eqn:Hd; simpl.
    + rewrite callDispose_run by assumption. rewrite IH, logged_logged, objects_logged.
      rewrite map_app. reflexivity.
    + apply IH.
Qed.

Lemma disposeMaterial_run (m : value) (s : Viewer) :
  disposable (objects s) m = true ->
  disposeMaterial m s
  = (Returned tt, logged (map EvDispose (materialHolds (objects s) m)) s).
Proof.
  intros H. destruct m as [| | b|r]; try discriminate.
  unfold disposeMaterial, bind at 1, gets at 1.
  unfold bind. rewrite disposeValues_run.
  rewrite callDispose_run by (rewrite objects_logged; exact H).
  rewrite logged_logged. simpl. rewrite map_app. reflexivity.
Qed.

Lemma disposeMaterials_run (ms : list value) (s : Viewer) :
  forallb (disposable (objects s)) ms = true ->
  forEach disposeMaterial ms s
  = (Returned tt, logged (map EvDispose (flat_map (materialHolds (objects s)) ms)) s).
Proof.
  revert s. induction ms as [|m ms IH]; intros s; simpl.
  - intros _. rewrite logged_nil. reflexivity.
  - intros [Hm Hms]%andb_prop. unfold bind.
    rewrite disposeMaterial_run by assumption.
    rewrite IH by (rewrite objects_logged; assumption).
    rewrite logged_logged, objects_logged, map_app. reflexivity.
Qed.

Lemma disposable_truthy (h : gmap ref jsobj) (v : value) :
  disposable h v = true -> truthy v = true.
Proof. destruct v; simpl; auto; discriminate. Qed.

Lemma holds_not_truthy (h : gmap ref jsobj) (v : value) :
  truthy v = false -> refOf v = [] /\ asArray h v = None /\ materialHolds h v = [].
Proof. destruct v; simpl; auto; discriminate. Qed.

Lemma disposeNode_run (f : Fields) (s : Viewer) :
  wellFormedNode (objects s) f = true ->
  disposeNode f s
  = (Returned f, logged (map EvDispose (nodeHolds (objects s) f)) s).
Proof.
  unfold wellFormedNode. intros [Hg Hm]%andb_prop.
  unfold disposeNode, nodeHolds, bind.
  assert (Hgeo : when (truthy (geometry f)) (callDispose (geometry f)) s
                 = (Returned tt, logged (map EvDispose (refOf (geometry f))) s)).
  { destruct (truthy (geometry f)) eqn:Ht; simpl in *.
    - apply callDispose_run. exact Hg.
    - destruct (holds_not_truthy (objects s) _ Ht) as (-> & _). simpl.
      rewrite logged_nil. reflexivity. }
  rewrite Hgeo. clear Hgeo Hg.
  destruct (truthy (material f)) eqn:Ht; simpl in *.
  - unfold bind, gets. rewrite ?objects_logged.
    destruct (asArray (objects s) (material f)) as [ms|].
    + rewrite disposeMaterials_run by exact Hm.
      unfold ret. rewrite logged_logged, ?objects_logged, map_app. reflexivity.
    + rewrite disposeMaterial_run by exact Hm.
      unfold ret. rewrite logged_logged, ?objects_logged, map_app. reflexivity.
  - destruct (holds_not_truthy (objects s) _ Ht) as (_ & -> & ->).
    unfold ret. rewrite app_nil_r. reflexivity.
Qed.

Lemma disposeNodes_run (l : list Fields) (s : Viewer) :
  forallb (wellFormedNode (objects s)) l = true ->
  mapM disposeNode l s
  = (Returned l, logged (map EvDispose (flat_map (nodeHolds (objects s)) l)) s).
Proof.
  revert s. induction l as [|f l IH]; intros s; simpl.
  - intros _. rewrite logged_nil. reflexivity.
  - intros [Hf Hl]%andb_prop. unfold bind.
    rewrite disposeNode_run by assumption.
    rewrite IH by (rewrite objects_logged; assumption).
    unfold ret. rewrite logged_logged, objects_logged, map_app. reflexivity.
Qed.

Lemma disposeObject_run (obj : Object3D) (s : Viewer) :
  wellFormed (objects s) obj = true ->
  disposeObject obj s
  = (Returned tt,
     logged (EvDisposeObject (uuid (root obj)) :: map EvDispose (holds (objects s) obj)) s).
Proof.
  intros Hwf. unfold disposeObject, bind. unfold emit at 1, modify at 1.
  fold (logged [EvDisposeObject (uuid (root obj))] s).
  destruct (traverse_returned disposeNode obj (logged [EvDisposeObject (uuid (root obj))] s)
              _ _ (disposeNodes_run (nodes obj)
                     (logged [EvDisposeObject (uuid (root obj))] s) Hwf)) as (o' & -> & _).
  unfold ret. rewrite logged_logged, objects_logged. reflexivity.
Qed.

End Disposer.

Section DisposerClaims.

Lemma count_occ_dispose (l : list ref) (r : ref) :
  count_occ event_eq_dec (map EvDispose l) (EvDispose r) = count_occ Nat.eq_dec l r.
Proof.
  induction l as [|x l IH]; [reflexivity|].
  change (map EvDispose (x :: l)) with (EvDispose x :: map EvDispose l).
  destruct (Nat.eq_dec x r) as [->|Hx].
  - rewrite !count_occ_cons_eq by reflexivity. f_equal. exact IH.
  - rewrite !count_occ_cons_neq by congruence. exact IH.
Qed.

(** C8, as stated, fails: in a group of two meshes that share a material,
    the material (and the geometry and the texture they share) is disposed
    twice. *)
Lemma disposeObject_shared_counterexample :
  wellFormed (objects loaded) modelA = true /\
  exists s',
    disposeObject modelA loaded = (Returned tt, s') /\
    count_occ event_eq_dec (trace s') (EvDispose 2) = 2.
Proof.
  split; [vm_compute; reflexivity|].
  eexists. split; [vm_compute; reflexivity|]. vm_compute. reflexivity.
Qed.

(** C8, amended.  On a subtree whose nodes are well formed, [disposeObject]
    returns, changes nothing but the record of calls, and calls [dispose]
    once for every place of the subtree that holds a disposable resource
    (the geometry of a node, each material of its material field, single or
    array, and each disposable property value of such a material), in
    visiting order: a resource is disposed as many times as it is held, so
    exactly once when it is held in one place.  A node without geometry and
    material is well formed and contributes no call. *)
Theorem disposeObject_releases (obj : Object3D) (s : Viewer) :
  wellFormed (objects s) obj = true ->
  exists evs,
    disposeObject obj s = (Returned tt, logged evs s) /\
    evs = EvDisposeObject (uuid (root obj)) :: map EvDispose (holds (objects s) obj) /\
    (forall r, count_occ event_eq_dec evs (EvDispose r)
               = count_occ Nat.eq_dec (holds (objects s) obj) r) /\
    (forall f, geometry f = VUndefined -> material f = VUndefined ->
               wellFormedNode (objects s) f = true /\ nodeHolds (objects s) f = []).
Proof.
  intros Hwf. eexists. split; [apply disposeObject_run; exact Hwf|].
  split; [reflexivity|]. split.
  - intros r. simpl. apply count_occ_dispose.
  - intros f Hg Hm. unfold wellFormedNode, nodeHolds. rewrite Hg, Hm. split; reflexivity.
Qed.

Lemma disposeObject_releases_witness :
  exists evs,
    disposeObject modelB loaded = (Returned tt, logged evs loaded) /\
    count_occ event_eq_dec evs (EvDispose 7) = 1.
Proof.
  assert (Hwf : wellFormed (objects loaded) modelB = true) by (vm_compute; reflexivity).
  destruct (disposeObject_releases modelB loaded Hwf) as (evs & Hrun & Hevs & Hcount & _).
  exists evs. split; [exact Hrun|]. rewrite Hcount. vm_compute. reflexivity.
Defined.

End DisposerClaims.

(** ** The info bar *)

Section InfoBar.

Lemma getProp_assign_eq (k : string) (v : value) (ps : list (string * value)) :
  getProp k (assign k v ps) = Some v.
Proof.
  induction ps as [|[k' v'] ps IH]; cbn.
  - rewrite String.eqb_refl. reflexivity.
  - destruct (String.eqb k k') eqn:He; cbn; rewrite ?String.eqb_refl, ?He; auto.
Qed.

Lemma getProp_assign_ne (k k' : string) (v : value) (ps : list (string * value)) :
  k <> k' -> getProp k (assign k' v ps) = getProp k ps.
Proof.
  intros Hne. induction ps as [|[k0 v0] ps IH]; cbn.
  - destruct (String.eqb_spec k k'); [contradiction | reflexivity].
  - destruct (String.eqb_spec k' k0) as [->|Hne0]; cbn.
    + destruct (String.eqb_spec k k0); [contradiction | reflexivity].
    + destruct (String.eqb k k0); [reflexivity | exact IH].
Qed.

Lemma deref_insert (h : gmap ref jsobj) (r r' : ref) (o : jsobj) :
  deref (<[r := o]> h) r' = if decide (r = r') then o else deref h r'.
Proof.
  unfold deref. destruct (decide (r = r')) as [->|Hne].
  - rewrite lookup_insert_eq. reflexivity.
  - rewrite lookup_insert_ne by assumption. reflexivity.
Qed.

Lemma sameInfo_refl (h : gmap ref jsobj) : sameInfo h h.
Proof. intros r k _. reflexivity. Qed.

Lemma sameInfo_trans (h1 h2 h3 : gmap ref jsobj) :
  sameInfo h1 h2 -> sameInfo h2 h3 -> sameInfo h1 h3.
Proof. intros H12 H23 r k Hk. rewrite (H23 r k Hk). apply H12, Hk. Qed.

(** Writing a property that the count does not read keeps the reads. *)
Lemma sameInfo_setProp (h : gmap ref jsobj) (r : ref) (k : string) (v : value) :
  k <> "index" -> k <> "attributes" -> k <> "position" ->
  sameInfo h (<[r := setProp k v (deref h r)]> h).
Proof.
  intros H1 H2 H3 r' k' Hk'. rewrite deref_insert.
  destruct (decide (r = r')) as [->|Hne]; [|reflexivity].
  cbn [setProp props]. apply getProp_assign_ne.
  destruct Hk' as [->|[->| ->]]; congruence.
Qed.

Lemma sameInfo_read (h h' : gmap ref jsobj) (v : value) (k : string) :
  sameInfo h h' -> k = "index" \/ k = "attributes" \/ k = "position" ->
  read h' v k = read h v k.
Proof.
  intros H Hk. destruct v as [| | b|r]; cbn [read]; try reflexivity.
  rewrite (H r k Hk). reflexivity.
Qed.

(** Whether a node can be counted depends on its being a mesh, on its
    geometry and on the reads, nothing else. *)
Lemma countable_ext (h h' : gmap ref jsobj) (f f' : Fields) :
  sameInfo h h' -> isMesh f' = isMesh f -> geometry f' = geometry f ->
  countable h' f' = countable h f.
Proof.
  intros H Hm Hg. unfold countable. rewrite Hm, Hg.
  rewrite !(sameInfo_read h h') by auto.
  destruct (read h (geometry f) "index") as [idx|]; [|reflexivity].
  destruct (read h (geometry f) "attributes") as [a|]; [|reflexivity].
  rewrite (sameInfo_read h h') by auto.
  destruct (read h a "position") as [[| | b|r]|]; reflexivity.
Qed.

Lemma countables_ext (h h' : gmap ref jsobj) (l l' : list Fields) :
  sameInfo h h' -> map isMesh l' = map isMesh l -> map geometry l' = map geometry l ->
  forallb (countable h') l' = forallb (countable h) l.
Proof.
  intros H. revert l'. induction l as [|f l IH]; intros [|f' l'] Hm Hg;
    simpl in *; try discriminate; [reflexivity|].
  injection Hm as Hm1 Hm2. injection Hg as Hg1 Hg2.
  rewrite (countable_ext h h' f f') by assumption.
  rewrite (IH l') by assumption. reflexivity.
Qed.

Lemma infoReady_ext (h h' : gmap ref jsobj) (o : Object3D) :
  sameInfo h h' -> infoReady h' o = infoReady h o.
Proof. intros H. apply countables_ext; auto. Qed.

(** [v.k] throws exactly where the read is a TypeError, and changes nothing. *)
Lemma readProp_run (v : value) (k : string) (s : Viewer) :
  readProp v k s = (match read (objects s) v k with
                    | Some x => Returned x
                    | None => Thrown
                    end, s).
Proof.
  unfold readProp, bind, gets. destruct (read (objects s) v k); reflexivity.
Qed.

(** The callback of the count changes nothing, and throws exactly at a node
    that is not [countable]. *)
Lemma countTriangles_run (f : Fields) (s : Viewer) :
  countTriangles f s = (if countable (objects s) f then Returned f else Thrown, s).
Proof.
  unfold countTriangles, countable, bind at 1.
  destruct (isMesh f && truthy (geometry f)); [|reflexivity].
  cbn [when negb orb]. unfold bind at 1. rewrite readProp_run.
  destruct (read (objects s) (geometry f) "index") as [idx|]; [|reflexivity].
  destruct (truthy idx) eqn:Hidx.
  - unfold bind at 1. rewrite readProp_run.
    destruct idx as [| | b|r]; try discriminate; reflexivity.
  - cbn [orb]. unfold bind at 1. rewrite readProp_run.
    destruct (read (objects s) (geometry f) "attributes") as [a|]; [|reflexivity].
    unfold bind at 1. rewrite readProp_run.
    destruct (read (objects s) a "position") as [p|]; [|reflexivity].
    unfold bind at 1. rewrite readProp_run.
    destruct (read (objects s) p "count"); reflexivity.
Qed.

Lemma countTriangles_nodes (l : list Fields) (s : Viewer) :
  mapM countTriangles l s
  = (if forallb (countable (objects s)) l then Returned l else Thrown, s).
Proof.
  induction l as [|f l IH]; [reflexivity|].
  cbn [mapM forallb]. unfold bind at 1. rewrite countTriangles_run.
  destruct (countable (objects s) f); [|reflexivity].
  unfold bind at 1. rewrite IH.
  destruct (forallb (countable (objects s)) l); reflexivity.
Qed.

(** The count over a model changes nothing, and returns exactly when every
    node can be counted. *)
Lemma countTriangles_traverse (o : Object3D) (s : Viewer) :
  if infoReady (objects s) o
  then exists o', traverse countTriangles o s = (Returned o', s)
  else traverse countTriangles o s = (Thrown, s).
Proof.
  pose proof (traverse_spec countTriangles o s) as Hs.
  rewrite countTriangles_nodes in Hs. fold (infoReady (objects s) o) in Hs.
  destruct (traverse countTriangles o s) as [[o'|] s'];
    destruct (infoReady (objects s) o); try discriminate.
  - injection Hs as _ <-. eauto.
  - injection Hs as <-. reflexivity.
Qed.

(** [updateInfoBar] returns, and is recorded, when there is no current
    model or the triangles of the current model can be counted. *)
Lemma updateInfoBar_run (s : Viewer) :
  (forall model, currentModel s = Some model -> infoReady (objects s) model = true) ->
  updateInfoBar s = (Returned tt, logged [EvUpdateInfoBar] s).
Proof.
  intros H. unfold updateInfoBar, bind at 1, gets, bind at 1.
  destruct (currentModel s) as [model|]; [|reflexivity].
  pose proof (countTriangles_traverse model s) as Ht.
  rewrite (H model eq_refl) in Ht. destruct Ht as [o' Ht].
  unfold bind at 1. rewrite Ht. reflexivity.
Qed.

(** It throws, before it has done anything, when a node of the current
    model cannot be counted. *)
Lemma updateInfoBar_throws (s : Viewer) (model : Object3D) :
  currentModel s = Some model -> infoReady (objects s) model = false ->
  updateInfoBar s = (Thrown, s).
Proof.
  intros Hcur H. unfold updateInfoBar, bind at 1, gets, bind at 1. rewrite Hcur.
  pose proof (countTriangles_traverse model s) as Ht. rewrite H in Ht.
  unfold bind at 1. rewrite Ht. reflexivity.
Qed.

Lemma updateInfoBar_cases (s : Viewer) :
  updateInfoBar s = (Returned tt, logged [EvUpdateInfoBar] s) \/
  updateInfoBar s = (Thrown, s).
Proof.
  destruct (currentModel s) as [model|] eqn:Hcur.
  - destruct (infoReady (objects s) model) eqn:Hi.
    + left. apply updateInfoBar_run. intros m Hm. congruence.
    + right. eapply updateInfoBar_throws; eassumption.
  - left. apply updateInfoBar_run. intros m Hm. congruence.
Qed.

(** Without positions to count the setup of a model does not return: the
    model is well formed, and [setupLoadedModel] installs it and then throws
    in [updateInfoBar], its last call. *)
Lemma setupLoadedModel_uncountable :
  wellFormed (objects bareViewer) bareModel = true /\
  infoReady (objects bareViewer) bareModel = false /\
  fst (setupLoadedModel bareModel None bareViewer) = Thrown /\
  scene_children (snd (setupLoadedModel bareModel None bareViewer))
  = scene_children bareViewer ++ ["bare"] /\
  gizmo_object (snd (setupLoadedModel bareModel None bareViewer)) = Some "bare".
Proof. repeat split; vm_compute; reflexivity. Qed.

End InfoBar.

(** ** Setting up a loaded model *)

Section Setup.

Lemma sameCaps_refl (h : gmap ref jsobj) : sameCaps h h.
Proof. intros r. split; reflexivity. Qed.

Lemma sameCaps_trans (h1 h2 h3 : gmap ref jsobj) :
  sameCaps h1 h2 -> sameCaps h2 h3 -> sameCaps h1 h3.
Proof.
  intros H12 H23 r. destruct (H12 r) as [Ha Hb], (H23 r) as [Hc Hd].
  split; congruence.
Qed.

Lemma sameCaps_setProp (h : gmap ref jsobj) (r : ref) (k : string) (v : value) :
  sameCaps h (<[r := setProp k v (deref h r)]> h).
Proof.
  intros r'. rewrite deref_insert. destruct (decide (r = r')) as [->|Hne];
    split; reflexivity.
Qed.

Lemma sameCaps_disposable (h h' : gmap ref jsobj) (v : value) :
  sameCaps h h' -> disposable h' v = disposable h v.
Proof. intros H. destruct v as [| | b|r]; simpl; try reflexivity. apply H. Qed.

Lemma sameCaps_asArray (h h' : gmap ref jsobj) (v : value) :
  sameCaps h h' -> asArray h' v = asArray h v.
Proof. intros H. destruct v as [| | b|r]; simpl; try reflexivity. apply H. Qed.

(** Well-formedness looks at the geometry and material fields and at what
    the objects can do, nothing else. *)
Lemma wellFormedNode_ext (h h' : gmap ref jsobj) (f f' : Fields) :
  sameCaps h h' -> geometry f' = geometry f -> material f' = material f ->
  wellFormedNode h' f' = wellFormedNode h f.
Proof.
  intros H Hg Hm. unfold wellFormedNode. rewrite Hg, Hm.
  rewrite !(sameCaps_disposable h h') by assumption.
  rewrite (sameCaps_asArray h h') by assumption.
  destruct (asArray h (material f)) as [ms|]; [|reflexivity].
  do 2 f_equal. induction ms as [|m ms IH]; simpl; [reflexivity|].
  rewrite (sameCaps_disposable h h') by assumption. rewrite IH. reflexivity.
Qed.

Lemma wellFormedNodes_ext (h h' : gmap ref jsobj) (l l' : list Fields) :
  sameCaps h h' -> map geometry l' = map geometry l -> map material l' = map material l ->
  forallb (wellFormedNode h') l' = forallb (wellFormedNode h) l.
Proof.
  intros H. revert l'. induction l as [|f l IH]; intros [|f' l'] Hg Hm;
    simpl in *; try discriminate; [reflexivity|].
  injection Hg as Hg1 Hg2. injection Hm as Hm1 Hm2.
  rewrite (wellFormedNode_ext h h' f f') by assumption.
  rewrite (IH l') by assumption. reflexivity.
Qed.

Lemma wellFormedNode_material (h : gmap ref jsobj) (f : Fields) :
  wellFormedNode h f = true -> truthy (material f) = true ->
  exists r, material f = VRef r.
Proof.
  unfold wellFormedNode. intros [_ Hm]%andb_prop Ht. rewrite Ht in Hm. simpl in Hm.
  destruct (material f) as [| | b|r]; simpl in *; try discriminate; eauto.
Qed.

Lemma setProperty_run (r : ref) (k : string) (v : value) (s : Viewer) :
  setProperty (VRef r) k v s
  = (Returned tt, set_objects (<[r := setProp k v (deref (objects s) r)]> (objects s)) s).
Proof. reflexivity. Qed.

Lemma set_objects_same (s : Viewer) : set_objects (objects s) s = s.
Proof. destruct s. reflexivity. Qed.

Lemma enableShadows_step (f : Fields) (s : Viewer) :
  wellFormedNode (objects s) f = true ->
  exists h', enableShadows f s = (Returned (shadowed f), set_objects h' s) /\
             sameCaps (objects s) h' /\ sameInfo (objects s) h'.
Proof.
  intros Hf. unfold enableShadows, shadowed.
  destruct (isMesh f) eqn:Hmesh.
  - change (material (set_shadows true true f)) with (material f).
    destruct (truthy (material f)) eqn:Ht.
    + destruct (wellFormedNode_material _ _ Hf Ht) as [r Hr]. rewrite Hr.
      eexists. split; [reflexivity | split; [apply sameCaps_setProp|]].
      apply sameInfo_setProp; discriminate.
    + exists (objects s). rewrite set_objects_same.
      split; [reflexivity | split; [apply sameCaps_refl | apply sameInfo_refl]].
  - exists (objects s). rewrite set_objects_same.
    split; [reflexivity | split; [apply sameCaps_refl | apply sameInfo_refl]].
Qed.

Lemma enableShadows_run (l : list Fields) (s : Viewer) :
  forallb (wellFormedNode (objects s)) l = true ->
  exists h', mapM enableShadows l s = (Returned (map shadowed l), set_objects h' s) /\
             sameCaps (objects s) h' /\ sameInfo (objects s) h'.
Proof.
  revert s. induction l as [|f l IH]; intros s; simpl.
  - intros _. exists (objects s). rewrite set_objects_same. split; [reflexivity|].
    split; [apply sameCaps_refl | apply sameInfo_refl].
  - intros [Hf Hl]%andb_prop.
    destruct (enableShadows_step f s Hf) as (h1 & Hstep & Hc & Hi).
    destruct (IH (set_objects h1 s)) as (h' & Hrun & Hcaps & Hinfo).
    { simpl. rewrite (wellFormedNodes_ext (objects s) h1 l l); auto. }
    unfold bind. rewrite Hstep, Hrun. exists h'. split; [reflexivity|]. split.
    + eapply sameCaps_trans; [exact Hc | exact Hcaps].
    + eapply sameInfo_trans; [exact Hi | exact Hinfo].
Qed.

Lemma centerAndScale_place (o : Object3D) : centerAndScale o = with_root place o.
Proof. destruct o as [f cs]. reflexivity. Qed.

Lemma place_fields (f : Fields) :
  uuid (place f) = uuid f /\ name (place f) = name f /\ isMesh (place f) = isMesh f /\
  geometry (place f) = geometry f /\ material (place f) = material f /\
  rotation (place f) = rotation f /\ bounds (place f) = bounds f.
Proof. repeat split. Qed.

Lemma shadowed_fields (f : Fields) :
  uuid (shadowed f) = uuid f /\ name (shadowed f) = name f /\
  isMesh (shadowed f) = isMesh f /\
  geometry (shadowed f) = geometry f /\ material (shadowed f) = material f /\
  transformOf (shadowed f) = transformOf f /\ bounds (shadowed f) = bounds f.
Proof. unfold shadowed. destruct (isMesh f) eqn:H; repeat split; assumption. Qed.


Lemma root_of_nodes (o : Object3D) (f : Fields) (l : list Fields) :
  nodes o = f :: l -> root o = f.
Proof. destruct o as [g cs]. simpl. congruence. Qed.

Lemma wellFormed_with_root (h : gmap ref jsobj) (g : Fields -> Fields) (o : Object3D) :
  (forall f, geometry (g f) = geometry f /\ material (g f) = material f) ->
  wellFormed h (with_root g o) = wellFormed h o.
Proof.
  intros Hg. unfold wellFormed. rewrite nodes_with_root.
  destruct (nodes_root o) as [l Hl]. rewrite Hl. simpl.
  destruct (Hg (root o)) as [H1 H2].
  rewrite (wellFormedNode_ext h h (root o) (g (root o))); auto using sameCaps_refl.
Qed.

(** The nodes of a model keep a field that the change of the root keeps. *)
Lemma nodes_with_root_map {A} (F : Fields -> A) (g : Fields -> Fields) (o : Object3D) :
  (forall f, F (g f) = F f) -> map F (nodes (with_root g o)) = map F (nodes o).
Proof.
  intros Hg. rewrite nodes_with_root. destruct (nodes_root o) as [l Hl].
  rewrite Hl. cbn [tail map]. rewrite Hg. reflexivity.
Qed.

(** Naming, shadows and placement do not change what the count reads. *)
Lemma infoReady_setup (h h' : gmap ref jsobj) (n : string) (model m1 : Object3D) :
  sameInfo h h' ->
  nodes m1 = map shadowed (nodes (with_root (set_name n) model)) ->
  infoReady h' (centerAndScale m1) = infoReady h model.
Proof.
  intros Hi Hn. unfold infoReady. rewrite centerAndScale_place.
  assert (Hs : forall {A} (F : Fields -> A), (forall f, F (shadowed f) = F f) ->
                 forall l, map F (map shadowed l) = map F l).
  { intros A F HF l. rewrite map_map. apply map_ext. exact HF. }
  apply countables_ext; [exact Hi| |].
  - rewrite (nodes_with_root_map isMesh) by reflexivity. rewrite Hn.
    rewrite (Hs _ isMesh) by (intros f; apply shadowed_fields).
    apply nodes_with_root_map. reflexivity.
  - rewrite (nodes_with_root_map geometry) by reflexivity. rewrite Hn.
    rewrite (Hs _ geometry) by (intros f; apply shadowed_fields).
    apply nodes_with_root_map. reflexivity.
Qed.

(** [setupLoadedModel] on a well-formed model whose triangles can be
    counted, over a well-formed current model if there is one: it returns,
    and the state it leaves is [installed] for a model whose nodes are the
    nodes of the argument with shadows on, the root renamed and placed. *)
Lemma setupLoadedModel_run (model : Object3D) (name : option string) (s : Viewer) :
  (forall old, currentModel s = Some old -> wellFormed (objects s) old = true) ->
  wellFormed (objects s) model = true ->
  infoReady (objects s) model = true ->
  exists model' h',
    setupLoadedModel model name s = (Returned tt, installed model' h' s) /\
    sameCaps (objects s) h' /\
    nodes model' = place (shadowed (set_name (nameOr name "LoadedModel") (root model)))
                   :: map shadowed (tail (nodes model)) /\
    sameInfo (objects s) h' /\ infoReady h' model' = true.
Proof.
  intros Hold Hwf Hready.
  set (named := with_root (set_name (nameOr name "LoadedModel")) model).
  assert (Hnamed : wellFormed (objects s) named = true).
  { unfold named. rewrite wellFormed_with_root; [exact Hwf|]. intros f. split; reflexivity. }
  assert (Htrav : forall s1, objects s1 = objects s ->
            exists m1 h', traverse enableShadows named s1 = (Returned m1, set_objects h' s1) /\
                          sameCaps (objects s) h' /\
                          nodes m1 = map shadowed (nodes named) /\
                          sameInfo (objects s) h' /\
                          infoReady h' (centerAndScale m1) = true).
  { intros s1 Hs1. destruct (enableShadows_run (nodes named) s1) as (h' & Hrun & Hc & Hi).
    { rewrite Hs1. exact Hnamed. }
    destruct (traverse_returned _ _ _ _ _ Hrun) as (m1 & Hm1 & Hn).
    exists m1, h'. rewrite Hs1 in Hc, Hi.
    split; [exact Hm1|]. split; [exact Hc|]. split; [exact Hn|]. split; [exact Hi|].
    rewrite (infoReady_setup (objects s) h' (nameOr name "LoadedModel") model m1 Hi Hn).
    exact Hready. }
  unfold setupLoadedModel. fold named.
  destruct (currentModel s) as [old|] eqn:Hcur.
  - specialize (Hold old eq_refl).
    set (s1 := logged (EvDisposeObject (uuid (root old)) :: map EvDispose (holds (objects s) old))
                 (set_scene_children (removeFirst (uuid (root old)) (scene_children s))
                    (logged [EvSceneRemove (uuid (root old))]
                       (set_gizmo_object None (logged [EvGizmoDetach] s))))).
    destruct (Htrav s1 eq_refl) as (m1 & h' & Hm1 & Hc & Hn & Hi & Hr).
    exists (centerAndScale m1), h'. split; [|split; [exact Hc|split; [|split; [exact Hi|exact Hr]]]].
    + cbv beta iota delta [bind gets ret modify emit when transformControls_detach
                             scene_remove].
      rewrite Hcur. cbv beta iota.
      match goal with
      | |- context [disposeObject old ?st] =>
          rewrite (disposeObject_run old st Hold); change (objects st) with (objects s)
      end.
      cbv beta iota.
      match goal with
      | |- context [traverse enableShadows named ?st] => change st with s1
      end.
      rewrite Hm1. cbv beta iota.
      unfold installed. rewrite Hcur. 
      unfold s1, logged. cbn [trace set_trace set_objects set_scene_children set_gizmo_object
          objects nextRef scene_children scene_environment scene_background camera_fov
          camera_position orbit_target gizmo_object currentModel currentHDRI
          modelInitialTransform hologramActive originalMaterials dom].
      unfold frameModel, orbitControls_update, scene_add,
        transformControls_attach.
      cbv beta iota delta [bind gets ret modify emit when].
      match goal with
      | |- context [updateInfoBar ?st] =>
          rewrite (updateInfoBar_run st) by (intros m Hm; injection Hm as <-; exact Hr)
      end.
      unfold logged.
      cbn [trace set_trace set_objects set_scene_children set_gizmo_object
          set_currentModel set_modelInitialTransform set_hologramActive
          set_originalMaterials set_dom set_camera_position set_orbit_target
          objects nextRef scene_children scene_environment scene_background camera_fov
          camera_position orbit_target gizmo_object currentModel currentHDRI
          modelInitialTransform hologramActive originalMaterials dom].
      rewrite <- !app_assoc. reflexivity.
    + rewrite centerAndScale_place, nodes_with_root, Hn.
      unfold named. rewrite nodes_with_root.
      destruct (nodes_root m1) as [l1 Hl1].
      rewrite (root_of_nodes m1 _ _ (eq_trans Hn (f_equal _ (nodes_with_root _ model)))).
      reflexivity.
  - destruct (Htrav s eq_refl) as (m1 & h' & Hm1 & Hc & Hn & Hi & Hr).
    exists (centerAndScale m1), h'. split; [|split; [exact Hc|split; [|split; [exact Hi|exact Hr]]]].
    + cbv beta iota delta [bind gets ret modify emit when].
      rewrite Hcur. cbv beta iota. rewrite Hm1. cbv beta iota.
      unfold installed. rewrite Hcur.
      unfold frameModel, orbitControls_update, scene_add,
        transformControls_attach.
      cbv beta iota delta [bind gets ret modify emit when].
      match goal with
      | |- context [updateInfoBar ?st] =>
          rewrite (updateInfoBar_run st) by (intros m Hm; injection Hm as <-; exact Hr)
      end.
      unfold logged.
      cbn [trace set_trace set_objects set_scene_children set_gizmo_object
          set_currentModel set_modelInitialTransform set_hologramActive
          set_originalMaterials set_dom set_camera_position set_orbit_target
          objects nextRef scene_children scene_environment scene_background camera_fov
          camera_position orbit_target gizmo_object currentModel currentHDRI
          modelInitialTransform hologramActive originalMaterials dom].
      rewrite <- !app_assoc. reflexivity.
    + rewrite centerAndScale_place, nodes_with_root, Hn.
      unfold named. rewrite nodes_with_root.
      rewrite (root_of_nodes m1 _ _ (eq_trans Hn (f_equal _ (nodes_with_root _ model)))).
      reflexivity.
Qed.

End Setup.

(** ** Sequences of loads *)

Section Loads.

Lemma removeFirst_notin (u : uuid_t) (l : list uuid_t) :
  ~ In u l -> removeFirst u l = l.
Proof.
  induction l as [|x l IH]; simpl; [reflexivity|]. intros Hn.
  destruct (String.eqb_spec u x) as [->|Hne]; [exfalso; auto|].
  rewrite IH; auto.
Qed.

Lemma removeFirst_last (u : uuid_t) (l : list uuid_t) :
  ~ In u l -> removeFirst u (l ++ [u]) = l.
Proof.
  induction l as [|x l IH]; simpl.
  - intros _. rewrite String.eqb_refl. reflexivity.
  - intros Hn. destruct (String.eqb_spec u x) as [->|Hne]; [exfalso; auto|].
    rewrite IH; auto.
Qed.

Lemma lifecycle_app (l1 l2 : list event) :
  lifecycle (l1 ++ l2) = lifecycle l1 ++ lifecycle l2.
Proof. apply List.filter_app. Qed.

Lemma lifecycle_dispose (l : list ref) : lifecycle (map EvDispose l) = [].
Proof. induction l as [|r l IH]; simpl; [reflexivity | exact IH]. Qed.

Lemma count_occ_lifecycle (evs : list event) (e : event) :
  isLifecycle e = true ->
  count_occ event_eq_dec (lifecycle evs) e = count_occ event_eq_dec evs e.
Proof.
  intros He. induction evs as [|x evs IH]; [reflexivity|].
  unfold lifecycle in *. cbn [List.filter].
  destruct (event_eq_dec x e) as [->|Hne].
  - rewrite He. rewrite !count_occ_cons_eq by reflexivity. f_equal. exact IH.
  - rewrite (count_occ_cons_neq _ _ Hne).
    destruct (isLifecycle x); [rewrite (count_occ_cons_neq _ _ Hne)|]; exact IH.
Qed.

Lemma count_expectedLifecycle (u : uuid_t) (ids : list uuid_t) (previous : option uuid_t) :
  count_occ event_eq_dec (expectedLifecycle previous ids) (EvDisposeObject u)
  = count_occ String.string_dec (removelast (option_list previous ++ ids)) u.
Proof.
  revert previous. induction ids as [|x ids IH]; intros previous.
  - destruct previous; reflexivity.
  - cbn [expectedLifecycle]. rewrite !count_occ_app, IH.
    change (option_list (Some x) ++ ids) with (x :: ids).
    assert (Hadd : count_occ event_eq_dec [EvSceneAdd x; EvGizmoAttach x] (EvDisposeObject u)
                   = 0%nat).
    { rewrite !count_occ_cons_neq by discriminate. reflexivity. }
    rewrite Hadd. destruct previous as [p|].
    + change (option_list (Some p) ++ x :: ids) with (p :: x :: ids).
      change (removelast (p :: x :: ids)) with (p :: removelast (x :: ids)).
      rewrite (count_occ_cons_neq event_eq_dec) by discriminate.
      rewrite (count_occ_cons_neq event_eq_dec) by discriminate.
      destruct (String.string_dec p u) as [->|Hne].
      * rewrite !count_occ_cons_eq by reflexivity. reflexivity.
      * rewrite (count_occ_cons_neq event_eq_dec) by congruence.
        rewrite (count_occ_cons_neq String.string_dec) by assumption. reflexivity.
    + reflexivity.
Qed.

(** The state the success callback of [loadGLBModel] leaves after
    [setupLoadedModel] has returned. *)
Lemma loadGLBModel_onLoad_run (model : Object3D) (nm : string) (url : option string)
    (s : Viewer) :
  (forall old, currentModel s = Some old -> wellFormed (objects s) old = true) ->
  wellFormed (objects s) model = true ->
  infoReady (objects s) model = true ->
  exists model' s' evs,
    loadGLBModel_onLoad model nm url s = (Returned tt, s') /\
    sameCaps (objects s) (objects s') /\
    currentModel s' = Some model' /\
    uuid (root model') = uuid (root model) /\
    wellFormed (objects s') model' = true /\
    scene_children s'
    = removeFirst (uuid (root model))
        match currentModel s with
        | Some old => removeFirst (uuid (root old)) (scene_children s)
        | None => scene_children s
        end ++ [uuid (root model)] /\
    gizmo_object s' = Some (uuid (root model)) /\
    trace s' = trace s ++ evs /\
    lifecycle evs = expectedLifecycle (currentId s) [uuid (root model)] /\
    sameInfo (objects s) (objects s') /\
    infoReady (objects s') model' = true.
Proof.
  intros Hold Hwf Hready.
  destruct (setupLoadedModel_run model (Some nm) s Hold Hwf Hready)
    as (m' & h' & Hrun & Hc & Hn & Hi & Hr).
  assert (Hroot : root m' = place (shadowed (set_name (nameOr (Some nm) "LoadedModel")
                                                        (root model)))).
  { eapply root_of_nodes. exact Hn. }
  assert (Hu : uuid (root m') = uuid (root model)).
  { rewrite Hroot. destruct (place_fields (shadowed (set_name (nameOr (Some nm) "LoadedModel")
                                                             (root model)))) as (-> & _).
    destruct (shadowed_fields (set_name (nameOr (Some nm) "LoadedModel") (root model)))
      as (-> & _). reflexivity. }
  assert (Hwf' : wellFormed h' m' = true).
  { unfold wellFormed in *. rewrite <- Hwf.
    apply wellFormedNodes_ext; [exact Hc| |];
      rewrite Hn; destruct (nodes_root model) as [l ->]; cbn [map tail]; f_equal.
    - destruct (place_fields (shadowed (set_name (nameOr (Some nm) "LoadedModel")
                                                  (root model)))) as (_ & _ & _ & -> & _).
      destruct (shadowed_fields (set_name (nameOr (Some nm) "LoadedModel") (root model)))
        as (_ & _ & _ & -> & _). reflexivity.
    - rewrite map_map. apply map_ext. intros f.
      destruct (shadowed_fields f) as (_ & _ & _ & -> & _). reflexivity.
    - destruct (place_fields (shadowed (set_name (nameOr (Some nm) "LoadedModel")
                                                  (root model)))) as (_ & _ & _ & _ & -> & _).
      destruct (shadowed_fields (set_name (nameOr (Some nm) "LoadedModel") (root model)))
        as (_ & _ & _ & _ & -> & _). reflexivity.
    - rewrite map_map. apply map_ext. intros f.
      destruct (shadowed_fields f) as (_ & _ & _ & _ & -> & _). reflexivity. }
  assert (Hlife : forall rest, lifecycle rest = [] ->
            lifecycle (match currentModel s with
                       | Some old =>
                           [EvGizmoDetach; EvSceneRemove (uuid (root old));
                            EvDisposeObject (uuid (root old))]
                           ++ map EvDispose (holds (objects s) old)
                       | None => []
                       end
                       ++ [EvSceneAdd (uuid (root model)); EvGizmoAttach (uuid (root model));
                           EvOrbitUpdate; EvUpdateInfoBar] ++ rest)
            = expectedLifecycle (currentId s) [uuid (root model)]).
  { intros rest Hrest. unfold currentId. rewrite !lifecycle_app, Hrest.
    destruct (currentModel s) as [old|]; [|reflexivity].
    rewrite lifecycle_app, lifecycle_dispose. reflexivity. }
  unfold loadGLBModel_onLoad, bind. rewrite Hrun.
  exists m'.
  destruct url as [u|].
  - eexists. eexists. split; [reflexivity|]. cbn -[removeFirst holds lifecycle]. rewrite Hu.
    split_and!; try assumption; try reflexivity.
    + rewrite <- !app_assoc. reflexivity.
    + apply (Hlife [EvRevokeObjectURL u]). reflexivity.
  - eexists. eexists. split; [reflexivity|]. cbn -[removeFirst holds lifecycle]. rewrite Hu.
    split_and!; try assumption; try reflexivity.
    rewrite <- (app_nil_r [EvSceneAdd _; _; _; _]). apply (Hlife []). reflexivity.
Qed.

Lemma expectedLifecycle_cons (previous : option uuid_t) (u : uuid_t) (ids : list uuid_t) :
  expectedLifecycle previous (u :: ids)
  = expectedLifecycle previous [u] ++ expectedLifecycle (Some u) ids.
Proof. cbn [expectedLifecycle]. rewrite app_nil_r, <- !app_assoc. reflexivity. Qed.

Lemma wellFormed_sameCaps (h h' : gmap ref jsobj) (o : Object3D) :
  sameCaps h h' -> wellFormed h' o = wellFormed h o.
Proof. intros H. apply wellFormedNodes_ext; auto. Qed.

(** A sequence of loads from a state whose scene holds [base] and the
    current model, if any. *)
Lemma loadAll_run (loads : list Load) (s : Viewer) (base : list uuid_t) :
  (forall old, currentModel s = Some old -> wellFormed (objects s) old = true) ->
  Forall (fun l => wellFormed (objects s) (gltf_scene l) = true) loads ->
  Forall (fun l => infoReady (objects s) (gltf_scene l) = true) loads ->
  scene_children s = base ++ option_list (currentId s) ->
  (forall u, currentId s = Some u -> ~ In u base) ->
  Forall (fun l => ~ In (loadId l) base) loads ->
  exists s' evs,
    loadAll loads s = (Returned tt, s') /\
    sameCaps (objects s) (objects s') /\
    currentId s' = match last (map loadId loads) with
                   | Some u => Some u
                   | None => currentId s
                   end /\
    scene_children s' = base ++ option_list (currentId s') /\
    (loads <> [] -> gizmo_object s' = currentId s') /\
    trace s' = trace s ++ evs /\
    lifecycle evs = expectedLifecycle (currentId s) (map loadId loads).
Proof.
  revert s. induction loads as [|l rest IH]; intros s Hold Hwf Hready Hscene Hcur Hfresh.
  - exists s, []. split_and!; try reflexivity; try assumption.
    + apply sameCaps_refl.
    + intros H. congruence.
    + rewrite app_nil_r. reflexivity.
  - inversion Hwf as [|? ? Hl Hrest]; subst. inversion Hfresh as [|? ? Hfl Hfrest]; subst.
    inversion Hready as [|? ? Hrl Hrrest]; subst.
    destruct (loadGLBModel_onLoad_run (gltf_scene l) (modelName l) (objectURL l) s Hold Hl Hrl)
      as (m1 & s1 & evs1 & Hrun1 & Hc1 & Hm1 & Hu1 & Hwf1 & Hsc1 & Hg1 & Htr1 & Hlife1
          & Hi1 & _).
    assert (Hid1 : currentId s1 = Some (loadId l)).
    { unfold currentId. rewrite Hm1, Hu1. reflexivity. }
    assert (Hscene1 : scene_children s1 = base ++ option_list (currentId s1)).
    { rewrite Hsc1, Hid1. change (option_list (Some (loadId l))) with [loadId l].
      f_equal. rewrite Hscene. unfold currentId in *.
      destruct (currentModel s) as [old|].
      - change (option_list (Some (uuid (root old)))) with [uuid (root old)].
        rewrite removeFirst_last by (apply Hcur; reflexivity).
        apply removeFirst_notin. exact Hfl.
      - change (option_list None) with (@nil uuid_t). rewrite app_nil_r.
        apply removeFirst_notin. exact Hfl. }
    destruct (IH s1) as (s' & evs2 & Hrun2 & Hc2 & Hid2 & Hsc2 & Hg2 & Htr2 & Hlife2).
    { intros old Ho. rewrite Hm1 in Ho. injection Ho as <-. exact Hwf1. }
    { eapply Forall_impl; [exact Hrest|]. intros x Hx. simpl in Hx.
      rewrite (wellFormed_sameCaps _ _ _ Hc1). exact Hx. }
    { eapply Forall_impl; [exact Hrrest|]. intros x Hx. simpl in Hx.
      rewrite (infoReady_ext _ _ _ Hi1). exact Hx. }
    { exact Hscene1. }
    { intros u Hu. rewrite Hid1 in Hu. injection Hu as <-. exact Hfl. }
    { exact Hfrest. }
    exists s', (evs1 ++ evs2). split_and!.
    + unfold loadAll in *. cbn [forEach]. unfold bind. rewrite Hrun1. exact Hrun2.
    + eapply sameCaps_trans; eassumption.
    + rewrite Hid2, Hid1. cbn [map]. destruct rest as [|l2 rest]; [reflexivity|].
      cbn [map]. rewrite last_cons_cons.
      destruct (last (loadId l2 :: map loadId rest)) eqn:Hlast; [reflexivity|].
      apply last_None in Hlast. discriminate.
    + exact Hsc2.
    + intros _. destruct rest as [|l2 rest].
      * cbn in Hrun2. injection Hrun2 as <-. rewrite Hg1, Hid1. reflexivity.
      * apply Hg2. discriminate.
    + rewrite Htr2, Htr1, app_assoc. reflexivity.
    + cbn [map]. rewrite expectedLifecycle_cons, lifecycle_app, Hlife1, Hlife2, Hid1.
      reflexivity.
Qed.

(** C1.  From a state without a current model, for every sequence of
    successful loads of well-formed, distinct models that are not yet in the
    scene and whose triangles [updateInfoBar] can count (each mesh geometry
    has an index or a position attribute; the count throws otherwise, and
    the callback with it): the callbacks all return; afterwards the scene
    holds what it held
    before and exactly one model, the last one loaded, which is the current
    model and the object of the gizmo; and the lifecycle calls made are, load
    by load, the detaching, removal and disposal of the previous model
    followed by the adding and attaching of the new one, so that each
    earlier model was handed to the disposer exactly once, before its
    successor was added, and the last one never. *)
Theorem loadAll_one_model (s0 : Viewer) (loads : list Load) (final : Load) :
  currentModel s0 = None ->
  Forall (fun l => wellFormed (objects s0) (gltf_scene l) = true) (loads ++ [final]) ->
  Forall (fun l => infoReady (objects s0) (gltf_scene l) = true) (loads ++ [final]) ->
  NoDup (map loadId (loads ++ [final])) ->
  Forall (fun l => ~ In (loadId l) (scene_children s0)) (loads ++ [final]) ->
  exists s model evs,
    loadAll (loads ++ [final]) s0 = (Returned tt, s) /\
    currentModel s = Some model /\
    uuid (root model) = loadId final /\
    scene_children s = scene_children s0 ++ [loadId final] /\
    gizmo_object s = Some (loadId final) /\
    trace s = trace s0 ++ evs /\
    lifecycle evs = expectedLifecycle None (map loadId (loads ++ [final])) /\
    (forall l, In l loads ->
               count_occ event_eq_dec evs (EvDisposeObject (loadId l)) = 1%nat) /\
    count_occ event_eq_dec evs (EvDisposeObject (loadId final)) = 0%nat.
Proof.
  intros Hnone Hwf Hready Hnodup Hfresh.
  assert (Hid0 : currentId s0 = None) by (unfold currentId; rewrite Hnone; reflexivity).
  destruct (loadAll_run (loads ++ [final]) s0 (scene_children s0))
    as (s & evs & Hrun & _ & Hid & Hsc & Hg & Htr & Hlife).
  { intros old Ho. congruence. }
  { exact Hwf. }
  { exact Hready. }
  { rewrite Hid0. symmetry. apply app_nil_r. }
  { intros u Hu. congruence. }
  { exact Hfresh. }
  rewrite Hid0 in Hlife.
  rewrite map_app in Hid. cbn [map] in Hid. rewrite last_snoc in Hid.
  assert (Hcur : exists model, currentModel s = Some model /\ uuid (root model) = loadId final).
  { unfold currentId in Hid. destruct (currentModel s) as [m|]; [|discriminate].
    injection Hid as Hid. eauto. }
  destruct Hcur as (model & Hmodel & Hu).
  assert (Hcount : forall u, count_occ event_eq_dec evs (EvDisposeObject u)
                             = count_occ String.string_dec (map loadId loads) u).
  { intros u. rewrite <- (count_occ_lifecycle evs) by reflexivity.
    rewrite Hlife, count_expectedLifecycle.
    change (option_list None ++ ?l) with l.
    rewrite map_app. cbn [map]. rewrite removelast_last. reflexivity. }
  rewrite map_app in Hnodup. cbn [map] in Hnodup.
  apply NoDup_ListNoDup in Hnodup.
  apply List.NoDup_remove in Hnodup. rewrite app_nil_r in Hnodup.
  destruct Hnodup as [Hnd Hlast].
  exists s, model, evs. split_and!; try assumption.
  - rewrite Hsc, Hid. reflexivity.
  - rewrite Hg, Hid; [reflexivity|]. destruct loads; discriminate.
  - intros l Hl. rewrite Hcount.
    assert (Hin : In (loadId l) (map loadId loads)) by (apply in_map; exact Hl).
    pose proof (proj1 (List.NoDup_count_occ String.string_dec _) Hnd (loadId l)) as Hle.
    apply (count_occ_In String.string_dec) in Hin. lia.
  - rewrite Hcount. apply count_occ_not_In. exact Hlast.
Qed.

Lemma loadAll_one_model_witness :
  exists s,
    loadAll ([mkLoad modelA "A.glb" None] ++ [mkLoad modelB "B.glb" (Some "blob:b")]) loaded
    = (Returned tt, s) /\
    scene_children s = scene_children loaded ++ ["B"] /\
    gizmo_object s = Some "B".
Proof.
  assert (H0 : currentModel loaded = None) by reflexivity.
  assert (Hwf : Forall (fun l => wellFormed (objects loaded) (gltf_scene l) = true)
                       ([mkLoad modelA "A.glb" None] ++ [mkLoad modelB "B.glb" (Some "blob:b")])).
  { repeat constructor; vm_compute; reflexivity. }
  assert (Hready : Forall (fun l => infoReady (objects loaded) (gltf_scene l) = true)
                       ([mkLoad modelA "A.glb" None] ++ [mkLoad modelB "B.glb" (Some "blob:b")])).
  { repeat constructor; vm_compute; reflexivity. }
  assert (Hnd : NoDup (map loadId ([mkLoad modelA "A.glb" None]
                                     ++ [mkLoad modelB "B.glb" (Some "blob:b")]))).
  { apply (bool_decide_unpack _). vm_compute. exact I. }
  assert (Hfresh : Forall (fun l => ~ In (loadId l) (scene_children loaded))
                          ([mkLoad modelA "A.glb" None]
                             ++ [mkLoad modelB "B.glb" (Some "blob:b")])).
  { repeat constructor; cbn; intros H; repeat destruct H as [H|H]; try discriminate H;
      exact H. }
  destruct (loadAll_one_model loaded _ _ H0 Hwf Hready Hnd Hfresh)
    as (s & model & evs & Hrun & _ & _ & Hsc & Hg & _).
  exists s. split_and!; [exact Hrun | exact Hsc | exact Hg].
Defined.

End Loads.

(** ** Reset of the transform *)

Section Reset.

(** Whenever [setupLoadedModel] returns, the model it was given is current,
    the snapshot is the transform of that model, and the hologram state is
    cleared. *)
Lemma setupLoadedModel_returned (model : Object3D) (name : option string) (s s' : Viewer) :
  setupLoadedModel model name s = (Returned tt, s') ->
  exists model',
    currentModel s' = Some model' /\
    modelInitialTransform s' = Some (transformOf (root model')) /\
    hologramActive s' = false /\
    originalMaterials s' = ∅.
Proof.
  unfold setupLoadedModel.
  cbv beta iota zeta delta [bind gets ret modify emit when transformControls_detach
                              scene_remove scene_add transformControls_attach frameModel
                              orbitControls_update].
  destruct (currentModel s) as [old|].
  - destruct (disposeObject old _) as [[[]|] sd]; [|discriminate].
    destruct (traverse enableShadows _ sd) as [[m1|] s1]; [|discriminate].
    match goal with
    | |- context [updateInfoBar ?st] =>
        destruct (updateInfoBar_cases st) as [Hu|Hu]; rewrite Hu
    end; [|discriminate].
    intros H. injection H as <-. eexists. repeat split.
  - destruct (traverse enableShadows _ s) as [[m1|] s1]; [|discriminate].
    match goal with
    | |- context [updateInfoBar ?st] =>
        destruct (updateInfoBar_cases st) as [Hu|Hu]; rewrite Hu
    end; [|discriminate].
    intros H. injection H as <-. eexists. repeat split.
Qed.

Lemma editTransform_run (g : Transform -> Transform) (s : Viewer) (model : Object3D) :
  currentModel s = Some model ->
  exists edited,
    editTransform g s = (Returned tt, set_currentModel (Some edited) s) /\
    tail (nodes edited) = tail (nodes model).
Proof.
  intros Hm. unfold editTransform, bind, gets. rewrite Hm.
  eexists. split; [reflexivity|]. rewrite nodes_with_root. reflexivity.
Qed.

Lemma edits_run (edits : list (Transform -> Transform)) (s : Viewer) (model : Object3D) :
  currentModel s = Some model ->
  exists edited,
    forEach editTransform edits s = (Returned tt, set_currentModel (Some edited) s) /\
    tail (nodes edited) = tail (nodes model).
Proof.
  revert s model. induction edits as [|g edits IH]; intros s model Hm.
  - exists model. split; [|reflexivity]. rewrite <- Hm. destruct s; reflexivity.
  - destruct (editTransform_run g s model Hm) as (m1 & Hrun1 & Ht1).
    destruct (IH (set_currentModel (Some m1) s) m1 eq_refl) as (m2 & Hrun2 & Ht2).
    exists m2. cbn [forEach]. unfold bind. rewrite Hrun1, Hrun2.
    split; [reflexivity | congruence].
Qed.

(** C9.  After [setupLoadedModel] has returned, whatever transform edits
    follow, [resetModelTransform] returns and leaves the current model with
    exactly the position, rotation and scale it had when the load
    completed, which is the snapshot [modelInitialTransform]; it changes the
    transform of the model's root and nothing else.  Without a current
    model, or without a snapshot, it changes nothing. *)
Theorem resetModelTransform_restores (model : Object3D) (name : option string)
    (s0 s1 : Viewer) (edits : list (Transform -> Transform)) :
  setupLoadedModel model name s0 = (Returned tt, s1) ->
  (exists atLoad edited s2 restored,
     currentModel s1 = Some atLoad /\
     modelInitialTransform s1 = Some (transformOf (root atLoad)) /\
     forEach editTransform edits s1 = (Returned tt, s2) /\
     currentModel s2 = Some edited /\
     resetModelTransform s2 = (Returned tt, set_currentModel (Some restored) s2) /\
     transformOf (root restored) = transformOf (root atLoad) /\
     tail (nodes restored) = tail (nodes edited)) /\
  (forall s, currentModel s = None \/ modelInitialTransform s = None ->
             resetModelTransform s = (Returned tt, s)).
Proof.
  intros Hload. split.
  - destruct (setupLoadedModel_returned _ _ _ _ Hload) as (atLoad & Hcur & Hinit & _).
    destruct (edits_run edits s1 atLoad Hcur) as (edited & Hedits & Htail).
    exists atLoad, edited, (set_currentModel (Some edited) s1).
    exists (with_root (fun f => set_scale (scale (root atLoad))
                                  (set_rotation (rotation (root atLoad))
                                     (set_position (position (root atLoad)) f)))
                      edited).
    split_and!; try assumption; try reflexivity.
    + unfold resetModelTransform, bind, gets. cbn [currentModel modelInitialTransform
        set_currentModel]. rewrite Hinit. reflexivity.
    + destruct edited. reflexivity.
    + rewrite nodes_with_root. reflexivity.
  - intros s [H|H]; unfold resetModelTransform, bind, gets; rewrite H.
    + reflexivity.
    + destruct (currentModel s); reflexivity.
Qed.

Lemma resetModelTransform_restores_witness :
  exists s1 atLoad s2 restored,
    setupLoadedModel modelA None loaded = (Returned tt, s1) /\
    currentModel s1 = Some atLoad /\
    forEach editTransform
      [fun t => mkTransform (mkVector3 5 5 5) (t_rotation t) (t_scale t);
       fun t => mkTransform (t_position t) (t_rotation t) (mkVector3 2 2 2)] s1
    = (Returned tt, s2) /\
    resetModelTransform s2 = (Returned tt, set_currentModel (Some restored) s2) /\
    transformOf (root restored) = transformOf (root atLoad).
Proof.
  assert (Hwf : wellFormed (objects loaded) modelA = true) by (vm_compute; reflexivity).
  destruct (setupLoadedModel_run modelA None loaded) as (model' & h' & Hrun & _).
  { intros old Hold. discriminate Hold. }
  { exact Hwf. }
  { vm_compute. reflexivity. }
  destruct (resetModelTransform_restores modelA None loaded _
              [fun t => mkTransform (mkVector3 5 5 5) (t_rotation t) (t_scale t);
               fun t => mkTransform (t_position t) (t_rotation t) (mkVector3 2 2 2)] Hrun)
    as [(atLoad & edited & s2 & restored & Hcur & _ & Hedits & _ & Hreset & Ht & _) _].
  exists (installed model' h' loaded), atLoad, s2, restored. auto.
Defined.

(** C10.  Without a current model, [toggleHologram], with either argument,
    returns at once: the state, and with it the flag [hologramActive], the
    map [originalMaterials] and every material, is unchanged. *)
Theorem toggleHologram_without_model (enabled : bool) (s : Viewer) :
  currentModel s = None ->
  toggleHologram enabled s = (Returned tt, s).
Proof.
  intros H. unfold toggleHologram, bind, gets. rewrite H. reflexivity.
Qed.

Lemma toggleHologram_without_model_witness :
  toggleHologram true loaded = (Returned tt, loaded).
Proof. apply (toggleHologram_without_model true loaded). reflexivity. Defined.

End Reset.

(** ** The hologram override *)

Section Hologram.

Lemma restoreOriginal_run (l : list Fields) (s : Viewer) :
  mapM restoreOriginal l s
  = (Returned (map (restoredNode (originalMaterials s)) l),
     logged (map EvDispose
               (flat_map (disposedOnRestore (objects s) (originalMaterials s)) l)) s).
Proof.
  revert s. induction l as [|f l IH]; intros s.
  - cbn. rewrite logged_nil. reflexivity.
  - cbn [mapM map flat_map]. unfold bind at 1.
    assert (Hstep : restoreOriginal f s
                    = (Returned (restoredNode (originalMaterials s) f),
                       logged (map EvDispose
                                 (disposedOnRestore (objects s) (originalMaterials s) f)) s)).
    { unfold restoreOriginal, restoredNode, disposedOnRestore, bind, gets.
      destruct (isMesh f && has (originalMaterials s) (uuid f)); cbn.
      - destruct (disposable (objects s) (material f)) eqn:Hd; cbn.
        + rewrite callDispose_run by assumption. reflexivity.
        + rewrite logged_nil. reflexivity.
      - rewrite logged_nil. reflexivity. }
    rewrite Hstep. unfold bind. rewrite IH. unfold ret.
    rewrite logged_logged, map_app. reflexivity.
Qed.

Lemma set_originalMaterials_same (s : Viewer) :
  set_originalMaterials (originalMaterials s) s = s.
Proof. destruct s. reflexivity. Qed.

Lemma hologramOn_widen (lo hi lo' hi' : ref) (f f' : Fields) :
  (lo' <= lo)%nat -> (hi <= hi')%nat -> hologramOn lo hi f f' -> hologramOn lo' hi' f f'.
Proof.
  unfold hologramOn. intros Hlo Hhi. destruct (isMesh f); [|auto].
  intros (r & Hr & ->). exists r. split; [lia | reflexivity].
Qed.

Lemma hologramOn_fields (lo hi : ref) (f f' : Fields) :
  hologramOn lo hi f f' -> uuid f' = uuid f /\ isMesh f' = isMesh f.
Proof.
  unfold hologramOn. destruct (isMesh f) eqn:Hm.
  - intros (r & _ & ->). split; [reflexivity | exact Hm].
  - intros ->. split; [reflexivity | exact Hm].
Qed.

Lemma applyHologram_step (f : Fields) (s : Viewer) :
  exists f' h' n',
    applyHologram f s
    = (Returned f',
       set_nextRef n'
         (set_objects h'
            (set_originalMaterials (snapshotMaterials (originalMaterials s) [f]) s))) /\
    (nextRef s <= n')%nat /\
    hologramOn (nextRef s) n' f f'.
Proof.
  unfold applyHologram, hologramOn, snapshotMaterials. cbn [fold_left].
  destruct (isMesh f).
  - cbn [andb]. unfold bind at 1, gets at 1.
    destruct (has (originalMaterials s) (uuid f)); cbn [negb when].
    + eexists. eexists. exists (5 + nextRef s)%nat. split_and!.
      * rewrite set_originalMaterials_same. reflexivity.
      * lia.
      * exists (4 + nextRef s)%nat. split; [lia | reflexivity].
    + eexists. eexists. exists (5 + nextRef s)%nat. split_and!.
      * reflexivity.
      * lia.
      * exists (4 + nextRef s)%nat. split; [cbn; lia | reflexivity].
  - exists f, (objects s), (nextRef s). split_and!; [|lia|reflexivity].
    cbn [andb]. rewrite set_originalMaterials_same, set_objects_same.
    destruct s; reflexivity.
Qed.

Lemma applyHologram_run (l : list Fields) (s : Viewer) :
  exists l' h' n',
    mapM applyHologram l s
    = (Returned l',
       set_nextRef n'
         (set_objects h'
            (set_originalMaterials (snapshotMaterials (originalMaterials s) l) s))) /\
    (nextRef s <= n')%nat /\
    Forall2 (hologramOn (nextRef s) n') l l'.
Proof.
  revert s. induction l as [|f l IH]; intros s.
  - exists [], (objects s), (nextRef s). split_and!; [|lia|constructor].
    cbn. rewrite set_originalMaterials_same, set_objects_same. destruct s; reflexivity.
  - destruct (applyHologram_step f s) as (f' & h1 & n1 & Hstep & Hn1 & Hon).
    match type of Hstep with
    | _ = (_, ?st) => destruct (IH st) as (l' & h' & n' & Hrun & Hn' & Hall)
    end.
    cbn [nextRef set_nextRef] in Hn', Hall.
    exists (f' :: l'), h', n'. split_and!.
    + cbn [mapM]. unfold bind. rewrite Hstep. cbv beta iota. rewrite Hrun.
      reflexivity.
    + lia.
    + constructor.
      * eapply hologramOn_widen; [| |exact Hon]; lia.
      * eapply Forall2_impl; [exact Hall|]. intros x y Hxy.
        eapply hologramOn_widen; [| |exact Hxy]; lia.
Qed.

Lemma has_insert (m : gmap string value) (k k' : string) (v : value) :
  has m k' = true -> has (<[k := v]> m) k' = true.
Proof.
  unfold has. destruct (decide (k = k')) as [->|Hne].
  - rewrite lookup_insert_eq. reflexivity.
  - rewrite lookup_insert_ne by assumption. auto.
Qed.

Lemma snapshot_keeps (l : list Fields) (m : gmap string value) (k : string) :
  has m k = true -> has (snapshotMaterials m l) k = true.
Proof.
  revert m. induction l as [|f l IH]; intros m Hk; [exact Hk|].
  unfold snapshotMaterials in *. cbn [fold_left]. apply IH.
  destruct (isMesh f && negb (has m (uuid f))); [apply has_insert|]; exact Hk.
Qed.

Lemma snapshot_covers (l : list Fields) (m : gmap string value) (f : Fields) :
  In f l -> isMesh f = true -> has (snapshotMaterials m l) (uuid f) = true.
Proof.
  revert m. induction l as [|g l IH]; intros m Hin Hmesh; [destruct Hin|].
  unfold snapshotMaterials in *. cbn [fold_left]. destruct Hin as [->|Hin].
  - apply snapshot_keeps. rewrite Hmesh. cbn [andb].
    destruct (has m (uuid f)) eqn:Hh; cbn [negb]; [exact Hh|].
    unfold has. rewrite lookup_insert_eq. reflexivity.
  - apply IH; assumption.
Qed.

Lemma snapshot_idle (l : list Fields) (m : gmap string value) :
  (forall f, In f l -> isMesh f = true -> has m (uuid f) = true) ->
  snapshotMaterials m l = m.
Proof.
  induction l as [|f l IH]; intros H; [reflexivity|].
  unfold snapshotMaterials in *. cbn [fold_left].
  assert (Hf : isMesh f && negb (has m (uuid f)) = false).
  { destruct (isMesh f) eqn:Hmesh; [|reflexivity].
    rewrite (H f (or_introl eq_refl) Hmesh). reflexivity. }
  rewrite Hf. apply IH. intros g Hg. apply H. right. exact Hg.
Qed.

Lemma toggleHologram_enable_run (s : Viewer) (model : Object3D) :
  currentModel s = Some model ->
  exists model' h' n',
    toggleHologram true s
    = (Returned tt,
       set_currentModel (Some model')
         (set_nextRef n'
            (set_objects h'
               (set_originalMaterials (snapshotMaterials (originalMaterials s) (nodes model))
                  (set_hologramActive true s))))) /\
    (nextRef s <= n')%nat /\
    Forall2 (hologramOn (nextRef s) n') (nodes model) (nodes model').
Proof.
  intros Hm.
  destruct (applyHologram_run (nodes model) (set_hologramActive true s))
    as (l' & h' & n' & Hrun & Hn & Hall).
  destruct (traverse_returned _ _ _ _ _ Hrun) as (model' & Htrav & Hnodes).
  exists model', h', n'. split_and!.
  - unfold toggleHologram, bind at 1, gets at 1. rewrite Hm.
    unfold bind, modify. rewrite Htrav. reflexivity.
  - exact Hn.
  - rewrite Hnodes. exact Hall.
Qed.

Lemma Forall2_In_r {A B : Type} (P : A -> B -> Prop) (l : list A) (l' : list B) (y : B) :
  Forall2 P l l' -> In y l' -> exists x, In x l /\ P x y.
Proof.
  induction 1 as [|x y' l l' Hxy _ IH]; intros Hin; [destruct Hin|].
  destruct Hin as [->|Hin].
  - exists x. split; [left; reflexivity | exact Hxy].
  - destruct (IH Hin) as (x0 & Hx0 & HP). exists x0. split; [right; exact Hx0 | exact HP].
Qed.

(** C5, as stated, fails: with the hologram already on, switching it on
    again is not a no-op; every mesh gets yet another new material. *)
Lemma toggleHologram_enable_twice_counterexample :
  hologramActive hologramA = true /\
  currentMaterials hologramA = [VUndefined; VRef 12; VRef 17] /\
  currentMaterials (snd (toggleHologram true hologramA)) = [VUndefined; VRef 22; VRef 27] /\
  toggleHologram true hologramA <> (Returned tt, hologramA).
Proof.
  assert (H1 : currentMaterials hologramA = [VUndefined; VRef 12; VRef 17])
    by (vm_compute; reflexivity).
  assert (H2 : currentMaterials (snd (toggleHologram true hologramA))
               = [VUndefined; VRef 22; VRef 27]) by (vm_compute; reflexivity).
  split_and!; [vm_compute; reflexivity | exact H1 | exact H2 |].
  intros Heq. apply (f_equal (fun p => currentMaterials (snd p))) in Heq.
  vm_compute in Heq. discriminate Heq.
Qed.

(** C5, amended.  With a current model, [toggleHologram(true)] twice in a
    row: both calls return; the second leaves the flag on and the map of
    saved materials exactly as the first left it (same keys, same saved
    materials: nothing is saved again) and disposes nothing; but it gives
    every mesh a material created during the second call, in place of the
    one the first call created. *)
Theorem toggleHologram_enable_again (s : Viewer) (model : Object3D) :
  currentModel s = Some model ->
  exists s1 s2 model1 model2,
    toggleHologram true s = (Returned tt, s1) /\
    toggleHologram true s1 = (Returned tt, s2) /\
    hologramActive s1 = true /\
    hologramActive s2 = true /\
    originalMaterials s2 = originalMaterials s1 /\
    trace s2 = trace s1 /\
    currentModel s1 = Some model1 /\
    currentModel s2 = Some model2 /\
    Forall (fun f => isMesh f = true ->
                     exists r, material f = VRef r /\ (r < nextRef s1)%nat) (nodes model1) /\
    Forall2 (hologramOn (nextRef s1) (nextRef s2)) (nodes model1) (nodes model2).
Proof.
  intros Hm.
  destruct (toggleHologram_enable_run s model Hm) as (m1 & h1 & n1 & Hrun1 & Hn1 & Hall1).
  match type of Hrun1 with
  | _ = (_, ?st) => set (s1 := st) in *
  end.
  destruct (toggleHologram_enable_run s1 m1 eq_refl) as (m2 & h2 & n2 & Hrun2 & Hn2 & Hall2).
  match type of Hrun2 with
  | _ = (_, ?st) => set (s2 := st) in *
  end.
  exists s1, s2, m1, m2. split_and!; try assumption; try reflexivity.
  - cbn [originalMaterials s2 s1 set_currentModel set_nextRef set_objects
           set_originalMaterials set_hologramActive].
    apply snapshot_idle. intros f Hin Hmesh.
    destruct (Forall2_In_r _ _ _ _ Hall1 Hin) as (f0 & Hin0 & Hon).
    destruct (hologramOn_fields _ _ _ _ Hon) as [Hu Hi].
    rewrite Hu. apply snapshot_covers; [exact Hin0 | congruence].
  - apply List.Forall_forall. intros f Hin Hmesh.
    destruct (Forall2_In_r _ _ _ _ Hall1 Hin) as (f0 & Hin0 & Hon).
    destruct (hologramOn_fields _ _ _ _ Hon) as [Hu Hi].
    unfold hologramOn in Hon. rewrite <- Hi, Hmesh in Hon.
    destruct Hon as (r & Hr & ->). exists r. split; [reflexivity|].
    cbn [nextRef s1 set_currentModel set_nextRef]. lia.
Qed.

Lemma toggleHologram_enable_again_witness :
  exists s1 s2,
    toggleHologram true viewingA = (Returned tt, s1) /\
    toggleHologram true s1 = (Returned tt, s2) /\
    originalMaterials s2 = originalMaterials s1.
Proof.
  assert (Hm : exists model, currentModel viewingA = Some model).
  { vm_compute. eexists. reflexivity. }
  destruct Hm as [model Hm].
  destruct (toggleHologram_enable_again viewingA model Hm)
    as (s1 & s2 & _ & _ & H1 & H2 & _ & _ & H3 & _).
  exists s1, s2. auto.
Defined.

(** C6, as stated, fails: after the hologram has been switched on and off
    again the flag is off and the map still holds the saved material of each
    mesh. *)
Lemma toggleHologram_disable_counterexample :
  let s := snd (toggleHologram false hologramA) in
  hologramActive s = false /\
  originalMaterials s = {[ "a1" := VRef 2; "a2" := VRef 2 ]} /\
  originalMaterials s <> ∅.
Proof.
  cbv zeta.
  assert (H : originalMaterials (snd (toggleHologram false hologramA))
              = {[ "a1" := VRef 2; "a2" := VRef 2 ]}) by (vm_compute; reflexivity).
  split; [vm_compute; reflexivity|]. split; [exact H|].
  rewrite H. intros Habs.
  apply (f_equal (fun m : gmap string value => m !! "a1")) in Habs.
  vm_compute in Habs. discriminate.
Qed.

(** C6, amended.  With a current model, [toggleHologram(false)] returns;
    every mesh that has a saved material gets that material back and casts
    and receives shadows again, and the material it carried is disposed if
    it can be; other nodes are untouched; the flag is off; the map of saved
    materials keeps its entries.  The map is emptied, and the flag reset,
    when [setupLoadedModel] installs a model. *)
Theorem toggleHologram_disable (s : Viewer) (model : Object3D) :
  currentModel s = Some model ->
  let saved := originalMaterials s in
  let h := objects s in
  exists s' model',
    toggleHologram false s = (Returned tt, s') /\
    s' = set_currentModel (Some model')
           (logged (map EvDispose (flat_map (disposedOnRestore h saved) (nodes model)))
                   (set_hologramActive false s)) /\
    nodes model' = map (restoredNode saved) (nodes model) /\
    hologramActive s' = false /\
    originalMaterials s' = saved /\
    (forall f original,
        isMesh f = true -> saved !! uuid f = Some original ->
        material (restoredNode saved f) = original /\
        castShadow (restoredNode saved f) = true /\
        receiveShadow (restoredNode saved f) = true /\
        disposedOnRestore h saved f
        = if disposable h (material f) then refOf (material f) else []) /\
    (forall f, isMesh f = false \/ saved !! uuid f = None ->
               restoredNode saved f = f /\ disposedOnRestore h saved f = []) /\
    (forall m name s1 s2,
        setupLoadedModel m name s1 = (Returned tt, s2) ->
        hologramActive s2 = false /\ originalMaterials s2 = ∅).
Proof.
  intros Hm saved h. subst saved h.
  pose proof (restoreOriginal_run (nodes model) (set_hologramActive false s)) as Hrun.
  destruct (traverse_returned _ _ _ _ _ Hrun) as (model' & Htrav & Hnodes).
  eexists. exists model'. split_and!.
  - unfold toggleHologram, bind at 1, gets at 1. rewrite Hm.
    unfold bind, modify. rewrite Htrav. reflexivity.
  - reflexivity.
  - exact Hnodes.
  - reflexivity.
  - reflexivity.
  - intros f original Hmesh Hsaved.
    unfold restoredNode, disposedOnRestore, has, get. rewrite Hmesh, Hsaved. cbn.
    split_and!; reflexivity.
  - intros f [Hf|Hf]; unfold restoredNode, disposedOnRestore, has.
    + rewrite Hf. split; reflexivity.
    + rewrite Hf, andb_false_r. split; reflexivity.
  - intros m name s1 s2 Hload.
    destruct (setupLoadedModel_returned _ _ _ _ Hload) as (_ & _ & _ & H1 & H2). auto.
Qed.

Lemma toggleHologram_disable_witness :
  exists s', toggleHologram false hologramA = (Returned tt, s') /\
             originalMaterials s' = originalMaterials hologramA.
Proof.
  assert (Hm : exists model, currentModel hologramA = Some model).
  { vm_compute. eexists. reflexivity. }
  destruct Hm as [model Hm].
  destruct (toggleHologram_disable hologramA model Hm)
    as (s' & model' & Hrun & _ & _ & _ & Hsaved & _).
  exists s'. split; [exact Hrun | exact Hsaved].
Defined.

End Hologram.

(** ** The environment map *)

Section Environment.

Lemma withEnvironment_envMap (texture r r' : ref) (h : gmap ref jsobj) :
  r' = r \/ getProp "envMap" (props (deref h r')) = Some (VRef texture) ->
  getProp "envMap" (props (deref (withEnvironment texture r h) r')) = Some (VRef texture).
Proof.
  intros H. unfold withEnvironment. cbv zeta.
  destruct (decide (r = r')) as [<-|Hne].
  - rewrite !deref_insert, !decide_True by reflexivity.
    cbn [setProp props].
    rewrite getProp_assign_ne by discriminate.
    rewrite getProp_assign_ne by discriminate.
    apply getProp_assign_eq.
  - destruct H as [->|H]; [congruence|].
    rewrite !deref_insert, !decide_False by assumption.
    exact H.
Qed.

(** The three writes to a material leave what the count reads. *)
Lemma withEnvironment_sameInfo (texture r : ref) (h : gmap ref jsobj) :
  sameInfo h (withEnvironment texture r h).
Proof.
  unfold withEnvironment.
  eapply sameInfo_trans; [|apply sameInfo_setProp; discriminate].
  eapply sameInfo_trans; [|apply sameInfo_setProp; discriminate].
  apply sameInfo_setProp; discriminate.
Qed.

Lemma useEnvironment_step (texture : ref) (f : Fields) (s : Viewer) :
  envReady f = true ->
  exists h',
    useEnvironment texture f s
    = (Returned f,
       set_objects h'
         (logged (if usesEnvironment f then [EvSetEnvMap (uuid f) texture] else []) s)) /\
    (forall r', (usesEnvironment f = true /\ material f = VRef r') \/
                getProp "envMap" (props (deref (objects s) r')) = Some (VRef texture) ->
                getProp "envMap" (props (deref h' r')) = Some (VRef texture)) /\
    sameInfo (objects s) h'.
Proof.
  unfold envReady, useEnvironment. fold (usesEnvironment f).
  destruct (usesEnvironment f) eqn:Hu; cbn [negb orb when].
  - destruct (material f) as [| | b|r] eqn:Hm; try discriminate. intros _.
    exists (withEnvironment texture r (objects s)). split; [reflexivity|].
    split; [|apply withEnvironment_sameInfo].
    intros r' [[_ Hr]|Hr]; apply withEnvironment_envMap.
    + left. congruence.
    + right. exact Hr.
  - intros _. exists (objects s). split; [|split; [|apply sameInfo_refl]].
    + unfold bind, ret. rewrite logged_nil, set_objects_same. reflexivity.
    + intros r' [[Habs _]|Hr]; [discriminate | exact Hr].
Qed.

Lemma useEnvironment_run (texture : ref) (l : list Fields) (s : Viewer) :
  forallb envReady l = true ->
  exists h',
    mapM (useEnvironment texture) l s
    = (Returned l,
       set_objects h'
         (logged (map (fun f => EvSetEnvMap (uuid f) texture) (List.filter usesEnvironment l))
                 s)) /\
    (forall r', (exists f, In f l /\ usesEnvironment f = true /\ material f = VRef r') \/
                getProp "envMap" (props (deref (objects s) r')) = Some (VRef texture) ->
                getProp "envMap" (props (deref h' r')) = Some (VRef texture)) /\
    sameInfo (objects s) h'.
Proof.
  revert s. induction l as [|f l IH]; intros s.
  - intros _. exists (objects s). split; [|split; [|apply sameInfo_refl]].
    + cbn. rewrite logged_nil, set_objects_same. reflexivity.
    + intros r' [(f & [] & _)|Hr]. exact Hr.
  - cbn [forallb]. intros [Hf Hl]%andb_prop.
    destruct (useEnvironment_step texture f s Hf) as (h1 & Hstep & Hset1 & Hi1).
    match type of Hstep with
    | _ = (_, ?st) => destruct (IH st Hl) as (h' & Hrun & Hset & Hi)
    end.
    exists h'. split; [|split; [|eapply sameInfo_trans; [exact Hi1 | exact Hi]]].
    + cbn [mapM]. unfold bind. rewrite Hstep. cbv beta iota. rewrite Hrun.
      unfold ret. f_equal. cbn [List.filter].
      destruct (usesEnvironment f); cbn [map];
        unfold logged, set_objects, set_trace; cbn; rewrite <- ?app_assoc, ?app_nil_r;
        reflexivity.
    + intros r' Hr. apply Hset. cbn [objects set_objects].
      destruct Hr as [(g & [->|Hin] & Hu & Hm)|Hr].
      * right. apply Hset1. left. auto.
      * left. exists g. auto.
      * right. apply Hset1. right. exact Hr.
Qed.

(** C2, as stated, fails: with [modelA] on screen under the environment
    texture 4, applying the texture 5 disposes texture 4 before the
    materials of the meshes are given the new texture. *)
Lemma applyEnvironmentTexture_order_counterexample :
  let s' := snd (applyEnvironmentTexture 5 environmentA) in
  since (length (trace environmentA)) s'
  = [EvSetEnvironment 5; EvSetBackground 5; EvDispose 4;
     EvSetEnvMap "a1" 5; EvSetEnvMap "a2" 5; EvUpdateInfoBar] /\
  exists before after,
    since (length (trace environmentA)) s' = before ++ EvDispose 4 :: after /\
    ~ In (EvSetEnvMap "a1" 5) before /\ In (EvSetEnvMap "a1" 5) after.
Proof.
  cbv zeta.
  assert (H : since (length (trace environmentA)) (snd (applyEnvironmentTexture 5 environmentA))
              = [EvSetEnvironment 5; EvSetBackground 5; EvDispose 4;
                 EvSetEnvMap "a1" 5; EvSetEnvMap "a2" 5; EvUpdateInfoBar])
    by (vm_compute; reflexivity).
  split; [exact H|].
  exists [EvSetEnvironment 5; EvSetBackground 5],
         [EvSetEnvMap "a1" 5; EvSetEnvMap "a2" 5; EvUpdateInfoBar].
  split; [exact H|]. split.
  - intros [Habs|[Habs|[]]]; discriminate.
  - left. reflexivity.
Qed.

(** C2, amended.  When [applyEnvironmentTexture] is given a texture while
    an environment map is current (and every mesh material is an object,
    and [updateInfoBar] can count the triangles of the current model, which
    it is called to do as the last step), it returns; the new texture is made the lighting environment and the
    background, then the previous map is disposed, and only then does each
    mesh that has a material get the new texture as its [envMap]; at the end
    the new texture is the current map.  When a load from a file fails,
    [loadHDRI]'s failure callback returns having logged the error, hidden
    the loading overlay, alerted the user and revoked the object URL;
    nothing else in the state changes, so the previous environment stays in
    place.  When the load of a preset fails, [loadPresetEXR]'s failure
    callback likewise changes nothing but the overlay, and writes a warning
    to the console without alerting the user. *)
Theorem applyEnvironmentTexture_order (texture old : ref) (s : Viewer) :
  currentHDRI s = Some old ->
  has_dispose (deref (objects s) old) = true ->
  (forall model, currentModel s = Some model -> forallb envReady (nodes model) = true) ->
  (forall model, currentModel s = Some model -> infoReady (objects s) model = true) ->
  (exists s',
     applyEnvironmentTexture texture s = (Returned tt, s') /\
     trace s' = trace s
                ++ [EvSetEnvironment texture; EvSetBackground texture; EvDispose old]
                ++ map (fun f => EvSetEnvMap (uuid f) texture) (environmentMeshes s)
                ++ [EvUpdateInfoBar] /\
     scene_environment s' = Some texture /\
     scene_background s' = BgTexture texture /\
     currentHDRI s' = Some texture /\
     currentModel s' = currentModel s /\
     (forall f r, In f (environmentMeshes s) -> material f = VRef r ->
                  getProp "envMap" (props (deref (objects s') r)) = Some (VRef texture))) /\
  (forall url,
     loadHDRI_onError url s
     = (Returned tt,
        logged [EvConsoleError "Error loading HDRI:";
                EvAlert "Error al cargar el archivo HDRI. Revisa la consola para más detalles.";
                EvRevokeObjectURL url]
               (set_dom (overlayHidden (dom s)) s))) /\
  (forall label,
     loadPresetEXR_onError label s
     = (Returned tt,
        set_dom (overlayHidden (dom s))
                (logged [EvConsoleWarn ("Could not load preset EXR (" ++ label ++ "):")] s))).
Proof.
  intros Hcur Hold Hready Hinfo. split; [|split].
  3:{ intros label. reflexivity. }
  2:{ intros url. unfold loadHDRI_onError, showLoading, logged, overlayHidden.
      cbv beta iota delta [bind gets ret modify emit].
      cbn [trace set_trace set_dom dom]. rewrite <- !app_assoc. reflexivity. }
  unfold applyEnvironmentTexture.
  cbv beta iota delta [bind gets ret modify emit when setProperty].
  cbn [currentHDRI set_objects set_scene_environment set_trace set_scene_background set_dom
       set_currentHDRI currentModel objects trace].
  rewrite Hcur. cbv beta iota.
  match goal with
  | |- context [callDispose (VRef old) ?st] =>
      rewrite (callDispose_run (VRef old) st)
  end.
  2:{ cbn [disposable objects set_dom set_trace set_scene_background set_scene_environment
             set_objects].
      rewrite deref_insert.
      destruct (decide (texture = old)) as [->|Hne]; [|exact Hold].
      cbn [setProp has_dispose]. exact Hold. }
  cbv beta iota. state_simpl.
  unfold environmentMeshes.
  destruct (currentModel s) as [model|] eqn:Hm.
  - match goal with
    | |- context [traverse (useEnvironment texture) model ?st] =>
        destruct (useEnvironment_run texture (nodes model) st (Hready model eq_refl))
          as (h' & Hrun & Hset & Hi);
        destruct (traverse_returned _ _ _ _ _ Hrun) as (model' & -> & _)
    end.
    cbv beta iota.
    match goal with
    | |- context [updateInfoBar ?st] => rewrite (updateInfoBar_run st)
    end.
    2:{ state_simpl. rewrite Hm. intros m Hmm. injection Hmm as <-.
        rewrite <- (Hinfo model eq_refl). apply infoReady_ext.
        eapply sameInfo_trans; [|exact Hi]. state_simpl.
        apply sameInfo_setProp; discriminate. }
    eexists. split; [reflexivity|]. unfold logged. state_simpl.
    split_and!; try reflexivity; try assumption.
    + cbn [map refOf]. rewrite <- !app_assoc. reflexivity.
    + intros f r Hin Hr. apply Hset. left. exists f.
      apply List.filter_In in Hin. destruct Hin as [Hin Hu]. auto.
  - rewrite updateInfoBar_run by (state_simpl; rewrite Hm; discriminate).
    eexists. split; [reflexivity|]. unfold logged. state_simpl.
    split_and!; try reflexivity; try assumption.
    + cbn [map refOf]. rewrite <- !app_assoc. reflexivity.
    + intros f r [].
Qed.

Lemma applyEnvironmentTexture_order_witness :
  exists s', applyEnvironmentTexture 5 environmentA = (Returned tt, s') /\
             currentHDRI s' = Some 5.
Proof.
  assert (Hcur : currentHDRI environmentA = Some 4) by (vm_compute; reflexivity).
  assert (Hold : has_dispose (deref (objects environmentA) 4) = true)
    by (vm_compute; reflexivity).
  assert (Hready : forall model, currentModel environmentA = Some model ->
                                 forallb envReady (nodes model) = true).
  { assert (H : match currentModel environmentA with
                | Some model => forallb envReady (nodes model)
                | None => true
                end = true) by (vm_compute; reflexivity).
    intros model Hm. rewrite Hm in H. exact H. }
  assert (Hinfo : forall model, currentModel environmentA = Some model ->
                                infoReady (objects environmentA) model = true).
  { assert (H : match currentModel environmentA with
                | Some model => infoReady (objects environmentA) model
                | None => true
                end = true) by (vm_compute; reflexivity).
    intros model Hm. rewrite Hm in H. exact H. }
  destruct (applyEnvironmentTexture_order 5 4 environmentA Hcur Hold Hready Hinfo)
    as [(s' & Hrun & _ & _ & _ & Hhdri & _) _].
  exists s'. split; [exact Hrun | exact Hhdri].
Defined.

End Environment.

(** ** Centring and rescaling *)

Section Placement.
Local Open Scope R_scope.

Lemma gtb_true (a b : R) : a > b -> gtb a b = true.
Proof. intros H. unfold gtb. destruct (Rgt_dec a b); [reflexivity | contradiction]. Qed.

Lemma gtb_false (a b : R) : a <= b -> gtb a b = false.
Proof. intros H. unfold gtb. destruct (Rgt_dec a b); [lra | reflexivity]. Qed.

Lemma ltb_true (a b : R) : a < b -> ltb a b = true.
Proof. intros H. unfold ltb. destruct (Rlt_dec a b); [reflexivity | contradiction]. Qed.

Lemma ltb_false (a b : R) : b <= a -> ltb a b = false.
Proof. intros H. unfold ltb. destruct (Rlt_dec a b); [lra | reflexivity]. Qed.

(** The span of an interval scales with a positive factor. *)
Lemma span_scaled (k a b : R) :
  0 < k -> Rmax (k * a) (k * b) - Rmin (k * a) (k * b) = k * (Rmax a b - Rmin a b).
Proof.
  intros Hk. unfold Rmax, Rmin.
  destruct (Rle_dec (k * a) (k * b)), (Rle_dec a b); nra.
Qed.

Lemma offCentreModel_box :
  Box3_setFromObject offCentreModel = Box3Make (mkVector3 1 1 1) (mkVector3 21 21 21).
Proof.
  unfold Box3_setFromObject, offCentreModel, transformBox, axis_lo, axis_hi; simpl.
  eval_minmax. f_equal; f_equal; lra.
Qed.

(** C4 fails on the code.  [offCentreModel] is a mesh of 20 units a side
    whose geometry spans [(1,1,1), (21,21,21)] in its own frame.
    [setupLoadedModel] returns, and the box of the model it has made current
    is [(-10.85,-0.85,-10.85), (-7.85,2.15,-7.85)]: its largest side is 3,
    but its centre is at x = z = -9.35, not 0, and its lowest point at
    y = -0.85, not 0.  The model was centred and put on the ground first,
    and the rescaling about its own origin moved it away again. *)
Theorem setupLoadedModel_offCentre :
  exists s' model',
    setupLoadedModel offCentreModel None loaded = (Returned tt, s') /\
    currentModel s' = Some model' /\
    Box3_setFromObject model'
    = Box3Make (mkVector3 (-10.85) (-0.85) (-10.85)) (mkVector3 (-7.85) 2.15 (-7.85)) /\
    vx (getCenter (Box3_setFromObject model')) = -9.35 /\
    vz (getCenter (Box3_setFromObject model')) = -9.35 /\
    vy (boxMin (Box3_setFromObject model')) = -0.85 /\
    maxDimOf model' = 3.
Proof.
  assert (Hwf : wellFormed (objects loaded) offCentreModel = true) by (vm_compute; reflexivity).
  destruct (setupLoadedModel_run offCentreModel None loaded)
    as (model' & h' & Hrun & _ & Hn & _).
  { intros old Hold. discriminate Hold. }
  { exact Hwf. }
  { vm_compute. reflexivity. }
  exists (installed model' h' loaded), model'.
  split; [exact Hrun|]. split; [reflexivity|].
  assert (Hbox : Box3_setFromObject model'
                 = Box3Make (mkVector3 (-10.85) (-0.85) (-10.85))
                            (mkVector3 (-7.85) 2.15 (-7.85))).
  { unfold Box3_setFromObject. rewrite (root_of_nodes _ _ _ Hn).
    unfold place, centerAndScale, Box3_setFromObject, shadowed, offCentreModel, freshNode,
      transformBox, axis_lo, axis_hi, max3.
    cbn [root with_root set_name set_position set_scale set_shadows set_vy isMesh
         position scale bounds getSize getCenter sub vx vy vz].
    eval_minmax.
    rewrite gtb_true by lra. cbn [orb setScalar vx vy vz].
    eval_minmax. f_equal; f_equal; lra. }
  split; [exact Hbox|].
  unfold maxDimOf. rewrite Hbox. unfold max3. cbn [getCenter getSize boxMin sub vx vy vz].
  eval_minmax. split_and!; lra.
Qed.

(** What the placement does achieve.  When the model is not rescaled, its
    box ends centred on the vertical axis and resting on the ground,
    wherever the model was and whatever its scale. *)
Lemma centerAndScale_centred (o : Object3D) (lo hi : Vector3) :
  bounds (root o) = Box3Make lo hi ->
  0.1 <= maxDimOf o <= 10 ->
  let box := Box3_setFromObject (centerAndScale o) in
  vx (getCenter box) = 0 /\ vz (getCenter box) = 0 /\ vy (boxMin box) = 0.
Proof.
  intros Hb Hdim. cbv zeta.
  unfold centerAndScale. fold (maxDimOf o).
  rewrite gtb_false, ltb_false by lra. cbn [orb].
  destruct o as [f cs]. unfold Box3_setFromObject in *.
  cbn [root with_root set_position set_scale set_vy position scale bounds] in *.
  rewrite Hb. unfold transformBox, axis_lo, axis_hi, set_vy, sub. simpl.
  split_and!; lra.
Qed.

Lemma span_shift (p k a b : R) :
  0 < k ->
  p + Rmax (k * a) (k * b) - (p + Rmin (k * a) (k * b)) = k * (Rmax a b - Rmin a b).
Proof. intros Hk. rewrite <- span_scaled by assumption. lra. Qed.

(** When a model with unit scale is rescaled, its largest side becomes 3. *)
Lemma centerAndScale_rescaled (o : Object3D) :
  scale (root o) = mkVector3 1 1 1 ->
  maxDimOf o > 10 \/ 0 < maxDimOf o < 0.1 ->
  maxDimOf (centerAndScale o) = 3.
Proof.
  intros Hs Hdim.
  assert (Hcond : gtb (maxDimOf o) 10 || ltb (maxDimOf o) 0.1 = true).
  { destruct Hdim as [H|H]; [rewrite gtb_true by lra | rewrite ltb_true by lra];
      [reflexivity | apply orb_true_r]. }
  assert (Hpos : 0 < maxDimOf o) by (destruct Hdim; lra).
  unfold centerAndScale. fold (maxDimOf o). rewrite Hcond. clear Hcond Hdim.
  remember (maxDimOf o) as d eqn:Hd.
  assert (Hk : 0 < 3 / d) by (apply Rdiv_lt_0_compat; lra).
  destruct o as [f cs]. unfold maxDimOf, Box3_setFromObject in Hd |- *.
  cbn [root with_root set_position set_scale position scale bounds] in *.
  rewrite Hs in Hd.
  destruct (bounds f) as [|lo hi].
  - exfalso. cbn in Hd. unfold max3 in Hd.
    assert (H0 : Rmax (Rmax 0 0) 0 = 0) by (unfold Rmax; repeat destruct (Rle_dec _ _); lra).
    lra.
  - unfold transformBox, axis_lo, axis_hi, setScalar, set_vy, sub, max3 in *.
    cbn [getSize sub vx vy vz] in *. unfold sub in *. cbn [vx vy vz] in *.
    rewrite !span_shift in Hd by lra. rewrite !Rmult_1_l in Hd.
    rewrite !span_shift by assumption.
    rewrite !RmaxRmult by lra. rewrite <- Hd. field. lra.
Qed.

End Placement.

(** * Further properties *)

(** ** Framing and placement under moves and rescalings *)

Section Covariance.
Local Open Scope R_scope.

Lemma maxDimOf_moved (t : Vector3) (o : Object3D) : maxDimOf (moved t o) = maxDimOf o.
Proof.
  destruct o as [f cs]. unfold maxDimOf, moved, Box3_setFromObject.
  cbn [root with_root set_position position scale bounds].
  destruct (bounds f) as [|lo hi]; [reflexivity|].
  unfold transformBox, axis_lo, axis_hi, add, max3. cbn [getSize sub vx vy vz].
  f_equal; [f_equal|]; lra.
Qed.

Lemma getCenter_moved (t : Vector3) (o : Object3D) (lo hi : Vector3) :
  bounds (root o) = Box3Make lo hi ->
  getCenter (Box3_setFromObject (moved t o)) = add (getCenter (Box3_setFromObject o)) t.
Proof.
  intros Hb. destruct o as [f cs]. unfold moved, Box3_setFromObject.
  cbn [root with_root set_position position scale bounds] in *. rewrite Hb.
  unfold transformBox, axis_lo, axis_hi, add. cbn [getCenter vx vy vz].
  f_equal; lra.
Qed.

(** X1.  Framing follows the object (over real numbers: the program's
    doubles agree up to rounding): for an object that has geometry, moving
    it by [t] moves the camera position and the look-at target that
    [frameModel] assigns by [t], and leaves the distance as it is. *)
Theorem frameModel_moved (t : Vector3) (o : Object3D) (lo hi : Vector3) (s : Viewer) :
  bounds (root o) = Box3Make lo hi ->
  let s1 := snd (frameModel o s) in
  let s2 := snd (frameModel (moved t o) s) in
  cameraZ (camera_fov s) (maxDimOf (moved t o)) = cameraZ (camera_fov s) (maxDimOf o) /\
  camera_position s2 = add (camera_position s1) t /\
  orbit_target s2 = add (orbit_target s1) t.
Proof.
  intros Hb s1 s2. unfold s1, s2. rewrite !frameModel_run. cbv zeta.
  rewrite maxDimOf_moved, (getCenter_moved t o lo hi Hb).
  cbn [snd camera_position orbit_target set_trace set_orbit_target set_camera_position].
  split; [reflexivity|]. split; [|reflexivity].
  unfold add. cbn [vx vy vz]. f_equal; lra.
Qed.

Lemma frameModel_moved_witness :
  orbit_target (snd (frameModel (moved (mkVector3 1 0 0) scenarioModel) initial))
  = add (orbit_target (snd (frameModel scenarioModel initial))) (mkVector3 1 0 0).
Proof.
  apply (frameModel_moved (mkVector3 1 0 0) scenarioModel
           (mkVector3 (-1) (-1) (-1)) (mkVector3 3 5 2) initial).
  reflexivity.
Defined.

Lemma max3_zero : max3 0 0 0 = 0.
Proof. unfold max3, Rmax. repeat destruct (Rle_dec _ _); lra. Qed.

Lemma maxDimOf_rescaled (k : R) (o : Object3D) :
  0 < k -> maxDimOf (rescaled k o) = k * maxDimOf o.
Proof.
  intros Hk. destruct o as [f cs]. unfold maxDimOf, rescaled, Box3_setFromObject.
  cbn [root with_root set_scale position scale bounds].
  destruct (bounds f) as [|lo hi].
  - cbn [transformBox getSize vx vy vz]. rewrite max3_zero. lra.
  - unfold transformBox, axis_lo, axis_hi, scaleBy, max3. cbn [getSize sub vx vy vz].
    rewrite <- !RmaxRmult by lra.
    rewrite !Rmult_assoc.
    f_equal; [f_equal|].
    + rewrite (span_shift _ k) by assumption. unfold Rminus. lra.
    + rewrite (span_shift _ k) by assumption. lra.
    + rewrite (span_shift _ k) by assumption. lra.
Qed.

(** X2.  Framing scales with the object (over real numbers: the program's
    doubles agree up to rounding): with a field of view between 0 and 180
    degrees, multiplying the object's scale by [k > 0] multiplies the camera
    distance by [k]; and whatever the object, the camera position
    [frameModel] assigns lies off the look-at target it assigns by the
    distance times (0.4, 0.25, 0.9). *)
Theorem frameModel_rescaled (k : R) (o : Object3D) (s : Viewer) :
  0 < k ->
  0 < camera_fov s < 180 ->
  let d := cameraZ (camera_fov s) (maxDimOf (rescaled k o)) in
  let s' := snd (frameModel (rescaled k o) s) in
  d = k * cameraZ (camera_fov s) (maxDimOf o) /\
  sub (camera_position s') (orbit_target s') = scaleBy d (mkVector3 0.4 0.25 0.9).
Proof.
  intros Hk Hfov d s'. split.
  - unfold d. rewrite maxDimOf_rescaled by assumption.
    pose proof (maxDimOf_nonneg o) as Hm.
    rewrite !cameraZ_eq; try assumption; [unfold Rdiv; ring | nra].
  - unfold s'. rewrite frameModel_run. cbv zeta. fold d.
    cbn [snd camera_position orbit_target set_trace set_orbit_target set_camera_position].
    unfold sub, scaleBy. cbn [vx vy vz]. f_equal; ring.
Qed.

Lemma frameModel_rescaled_witness :
  cameraZ (camera_fov initial) (maxDimOf (rescaled 2 scenarioModel))
  = 2 * cameraZ (camera_fov initial) (maxDimOf scenarioModel).
Proof.
  assert (Hk : 0 < 2) by lra.
  assert (Hfov : 0 < camera_fov initial < 180) by (simpl; lra).
  exact (proj1 (frameModel_rescaled 2 scenarioModel initial Hk Hfov)).
Defined.

(** X3.  The placement does not depend on where the loader put the model
    (over real numbers: the program's doubles agree up to rounding): for a
    model that has geometry and a box of positive largest side,
    [setupLoadedModel] centres and rescales the model moved by any [t] to
    the same model as the unmoved one. *)
Theorem centerAndScale_moved (t : Vector3) (o : Object3D) (lo hi : Vector3) :
  bounds (root o) = Box3Make lo hi ->
  0 < maxDimOf o ->
  centerAndScale (moved t o) = centerAndScale o.
Proof.
  intros Hb _. unfold centerAndScale.
  fold (maxDimOf (moved t o)). fold (maxDimOf o). rewrite maxDimOf_moved.
  rewrite (getCenter_moved t o lo hi Hb).
  assert (Hsize : getSize (Box3_setFromObject (moved t o)) = getSize (Box3_setFromObject o)).
  { destruct o as [f cs]. unfold moved, Box3_setFromObject.
    cbn [root with_root set_position position scale bounds] in *. rewrite Hb.
    unfold transformBox, axis_lo, axis_hi, add, sub. cbn [getSize sub vx vy vz].
    unfold sub. cbn [vx vy vz]. f_equal; lra. }
  rewrite Hsize.
  destruct o as [f cs]. unfold moved. cbn [with_root].
  f_equal. unfold set_scale, set_position, set_vy, sub, add.
  cbn [uuid name isMesh castShadow receiveShadow geometry material position rotation
       scale bounds vx vy vz].
  f_equal. f_equal; lra.
Qed.

Lemma centerAndScale_moved_witness :
  centerAndScale (moved (mkVector3 5 6 7) offCentreModel) = centerAndScale offCentreModel.
Proof.
  apply (centerAndScale_moved (mkVector3 5 6 7) offCentreModel
           (mkVector3 1 1 1) (mkVector3 21 21 21)).
  - reflexivity.
  - unfold maxDimOf. rewrite offCentreModel_box. unfold max3. cbn [getSize sub vx vy vz].
    eval_minmax. lra.
Defined.

Lemma maxDimOf_not_rescaled (o : Object3D) :
  0.1 <= maxDimOf o <= 10 -> maxDimOf (centerAndScale o) = maxDimOf o.
Proof.
  intros Hdim. unfold centerAndScale. fold (maxDimOf o).
  rewrite gtb_false, ltb_false by lra. cbn [orb].
  destruct o as [f cs]. unfold maxDimOf, Box3_setFromObject.
  cbn [root with_root set_position set_scale position scale bounds].
  destruct (bounds f) as [|lo hi]; [reflexivity|].
  unfold transformBox, axis_lo, axis_hi, set_vy, sub, max3. cbn [getSize sub vx vy vz].
  unfold sub. cbn [vx vy vz]. f_equal; [f_equal|]; lra.
Qed.

Lemma scale_not_rescaled (o : Object3D) :
  0.1 <= maxDimOf o <= 10 -> scale (root (centerAndScale o)) = scale (root o).
Proof.
  intros Hdim. unfold centerAndScale. fold (maxDimOf o).
  rewrite gtb_false, ltb_false by lra. destruct o as [f cs]. reflexivity.
Qed.

Lemma scale_rescaled (o : Object3D) :
  maxDimOf o > 10 \/ maxDimOf o < 0.1 ->
  scale (root (centerAndScale o)) = setScalar (3 / maxDimOf o).
Proof.
  intros Hdim. unfold centerAndScale. fold (maxDimOf o).
  assert (Hcond : gtb (maxDimOf o) 10 || ltb (maxDimOf o) 0.1 = true).
  { destruct Hdim as [H|H]; [rewrite gtb_true by lra | rewrite ltb_true by lra];
      [reflexivity | apply orb_true_r]. }
  rewrite Hcond. destruct o as [f cs]. reflexivity.
Qed.

(** X4.  The size a loaded model ends with (over real numbers: the
    program's doubles agree up to rounding).  For a model of unit scale
    whose box has a positive largest side [maxDim]: when [maxDim] lies
    between 0.1 and 10 the placement keeps the scale, and the largest side
    stays [maxDim]; when [maxDim] is above 10 or below 0.1 the scale is set
    to [3 / maxDim] on every axis, and the largest side becomes 3.  Either
    way the largest side ends between 0.1 and 10. *)
Theorem centerAndScale_size (o : Object3D) :
  scale (root o) = mkVector3 1 1 1 ->
  0 < maxDimOf o ->
  (0.1 <= maxDimOf o <= 10 ->
   scale (root (centerAndScale o)) = scale (root o) /\
   maxDimOf (centerAndScale o) = maxDimOf o) /\
  (maxDimOf o > 10 \/ maxDimOf o < 0.1 ->
   scale (root (centerAndScale o)) = setScalar (3 / maxDimOf o) /\
   maxDimOf (centerAndScale o) = 3) /\
  0.1 <= maxDimOf (centerAndScale o) <= 10.
Proof.
  intros Hs Hpos.
  assert (Hin : 0.1 <= maxDimOf o <= 10 -> maxDimOf (centerAndScale o) = maxDimOf o)
    by apply maxDimOf_not_rescaled.
  assert (Hout : maxDimOf o > 10 \/ maxDimOf o < 0.1 -> maxDimOf (centerAndScale o) = 3).
  { intros H. apply (centerAndScale_rescaled o Hs). destruct H; [left|right]; lra. }
  split; [|split].
  - intros H. split; [apply scale_not_rescaled, H | apply Hin, H].
  - intros H. split; [apply scale_rescaled, H | apply Hout, H].
  - destruct (Rle_dec (maxDimOf o) 10) as [Hle|Hgt].
    + destruct (Rle_dec 0.1 (maxDimOf o)) as [Hge|Hlt].
      * rewrite Hin by lra. lra.
      * rewrite Hout by (right; lra). lra.
    + rewrite Hout by (left; lra). lra.
Qed.

Lemma centerAndScale_size_witness :
  maxDimOf (centerAndScale offCentreModel) = 3 /\
  0.1 <= maxDimOf (centerAndScale offCentreModel) <= 10.
Proof.
  assert (Hd : maxDimOf offCentreModel = 20).
  { unfold maxDimOf. rewrite offCentreModel_box. unfold max3. cbn [getSize sub vx vy vz].
    eval_minmax. lra. }
  destruct (centerAndScale_size offCentreModel) as (_ & Hout & Hrange).
  - reflexivity.
  - rewrite Hd. lra.
  - split; [|exact Hrange]. apply Hout. left. rewrite Hd. lra.
Defined.

Lemma resetCamera_model (s : Viewer) (model : Object3D) :
  currentModel s = Some model -> resetCamera s = frameModel model s.
Proof. intros H. unfold resetCamera, bind, gets. rewrite H. reflexivity. Qed.

Lemma resetCamera_none (s : Viewer) :
  currentModel s = None ->
  resetCamera s
  = (Returned tt,
     logged [EvOrbitUpdate]
            (set_orbit_target (mkVector3 0 0 0) (set_camera_position (mkVector3 3 2 5) s))).
Proof. intros H. unfold resetCamera, bind, gets. rewrite H. reflexivity. Qed.

(** X5.  [resetCamera] returns and forgets where the camera was: the
    position and target it assigns are the same whatever they were before,
    so a second reset changes nothing more; without a current model they are
    the position (3, 2, 5) and the target (0, 0, 0) that [init] set; and it
    touches nothing but the camera position, the target and the record of
    calls. *)
Theorem resetCamera_forgets (s : Viewer) (p0 q0 : Vector3) :
  exists p q,
    resetCamera s
    = (Returned tt, logged [EvOrbitUpdate] (set_orbit_target q (set_camera_position p s))) /\
    camera_position (snd (resetCamera (set_camera_position p0 (set_orbit_target q0 s)))) = p /\
    orbit_target (snd (resetCamera (set_camera_position p0 (set_orbit_target q0 s)))) = q /\
    camera_position (snd (resetCamera (snd (resetCamera s)))) = p /\
    orbit_target (snd (resetCamera (snd (resetCamera s)))) = q /\
    (currentModel s = None ->
     p = camera_position initial /\ q = orbit_target initial).
Proof.
  destruct (currentModel s) as [model|] eqn:Hm.
  - exists (camera_position (snd (frameModel model s))), (orbit_target (snd (frameModel model s))).
    rewrite (resetCamera_model s model Hm).
    rewrite (resetCamera_model (set_camera_position p0 (set_orbit_target q0 s)) model Hm).
    rewrite (resetCamera_model (snd (frameModel model s)) model)
      by (rewrite frameModel_run; exact Hm).
    rewrite !frameModel_run. cbv zeta.
    cbn [snd camera_position orbit_target camera_fov set_trace set_orbit_target
         set_camera_position].
    split_and!; try reflexivity. discriminate.
  - exists (mkVector3 3 2 5), (mkVector3 0 0 0).
    rewrite (resetCamera_none s Hm).
    rewrite (resetCamera_none (set_camera_position p0 (set_orbit_target q0 s)) Hm).
    cbn [snd]. rewrite resetCamera_none by exact Hm.
    split_and!; try reflexivity. intros _. split; reflexivity.
Qed.

Lemma resetCamera_forgets_witness :
  exists p q,
    resetCamera initial
    = (Returned tt,
       logged [EvOrbitUpdate] (set_orbit_target q (set_camera_position p initial))) /\
    p = camera_position initial /\ q = orbit_target initial.
Proof.
  destruct (resetCamera_forgets initial (mkVector3 0 0 0) (mkVector3 0 0 0))
    as (p & q & Hrun & _ & _ & _ & _ & Hhome).
  exists p, q. split; [exact Hrun | apply Hhome; reflexivity].
Defined.

End Covariance.

(** ** The hologram switched on and off again *)

Section HologramRoundTrip.

Lemma traverse_shape (cb : Fields -> M Fields) (o o' : Object3D) (s s' : Viewer) :
  traverse cb o s = (Returned o', s') -> shapeOf o' = shapeOf o.
Proof.
  revert o' s s'. induction o as [f cs IH] using Object3D_ind. intros o' s s'.
  rewrite traverse_unfold. unfold bind at 1.
  destruct (cb f s) as [[f'|] s1]; [|discriminate].
  unfold bind at 1.
  destruct (traverseList cb cs s1) as [[cs'|] s2] eqn:Hcs; [|discriminate].
  unfold ret. intros [= <- <-]. cbn [shapeOf]. f_equal.
  clear f f' s. revert cs' s1 s2 Hcs.
  induction IH as [|c cs Hc _ IHcs]; intros cs' s1 s2; cbn [traverseList].
  - unfold ret. intros [= <- <-]. reflexivity.
  - unfold bind at 1. destruct (traverse cb c s1) as [[c'|] s3] eqn:Hc'; [|discriminate].
    unfold bind at 1. fold (traverseList cb).
    destruct (traverseList cb cs s3) as [[cs''|] s4] eqn:Hcs''; [|discriminate].
    unfold ret. intros [= <- <-]. cbn [map]. f_equal.
    + eapply Hc. exact Hc'.
    + eapply IHcs. exact Hcs''.
Qed.

Lemma shape_length (o o' : Object3D) :
  shapeOf o = shapeOf o' -> length (nodes o) = length (nodes o').
Proof.
  revert o'. induction o as [f cs IH] using Object3D_ind. intros [f' cs'].
  cbn [shapeOf]. intros [= Hs]. rewrite !nodes_unfold. cbn [length]. f_equal.
  revert cs' Hs. induction IH as [|c cs Hc _ IHcs]; intros [|c' cs']; cbn [map];
    try discriminate; [reflexivity|].
  intros [= H1 H2]. cbn [nodesList]. rewrite !length_app.
  rewrite (Hc c' H1). f_equal. apply IHcs. exact H2.
Qed.

(** Two trees of one shape that carry the same nodes in visiting order are
    the same tree. *)
Lemma shape_nodes_eq (o o' : Object3D) :
  shapeOf o = shapeOf o' -> nodes o = nodes o' -> o = o'.
Proof.
  revert o'. induction o as [f cs IH] using Object3D_ind. intros [f' cs'].
  cbn [shapeOf]. intros [= Hs]. rewrite !nodes_unfold. intros [= -> Hn]. f_equal.
  revert cs' Hs Hn. induction IH as [|c cs Hc _ IHcs]; intros [|c' cs']; cbn [map];
    try discriminate; [reflexivity|].
  intros [= H1 H2]. cbn [nodesList]. intros Hn.
  apply app_inj_1 in Hn; [|apply shape_length; exact H1].
  destruct Hn as [Hn1 Hn2]. f_equal; [apply Hc | apply IHcs]; assumption.
Qed.

Lemma createHologramMaterial_run (s : Viewer) :
  createHologramMaterial s
  = (Returned (4 + nextRef s)%nat,
     set_nextRef (5 + nextRef s) (set_objects (hologramObjects (nextRef s) (objects s)) s)).
Proof. reflexivity. Qed.

Lemma applyHologram_exact (l : list Fields) (s : Viewer) :
  mapM applyHologram l s
  = (Returned (previewNodes (nextRef s) l),
     set_nextRef (previewNext (nextRef s) l)
       (set_objects (previewObjects (nextRef s) (objects s) l)
          (set_originalMaterials (snapshotMaterials (originalMaterials s) l) s))).
Proof.
  revert s. induction l as [|f l IH]; intros s.
  - cbn. rewrite set_originalMaterials_same, set_objects_same. destruct s; reflexivity.
  - cbn [mapM previewNodes previewNext previewObjects]. unfold snapshotMaterials.
    cbn [fold_left]. fold (snapshotMaterials
                             (if isMesh f && negb (has (originalMaterials s) (uuid f))
                              then <[uuid f := material f]> (originalMaterials s)
                              else originalMaterials s) l).
    unfold bind at 1. unfold applyHologram.
    destruct (isMesh f); cbn [andb].
    + unfold bind at 1, gets at 1.
      destruct (has (originalMaterials s) (uuid f)); cbn [negb when].
      * unfold bind at 1, ret at 1. unfold bind at 1. rewrite createHologramMaterial_run.
        unfold ret at 1. unfold bind. rewrite IH. unfold ret. state_simpl.
        reflexivity.
      * unfold bind at 1, modify at 1. unfold bind at 1. rewrite createHologramMaterial_run.
        unfold ret at 1. unfold bind. rewrite IH. unfold ret. state_simpl.
        reflexivity.
    + unfold ret at 1. unfold bind. rewrite IH. reflexivity.
Qed.

Lemma snapshot_lookup_keeps (l : list Fields) (m : gmap string value) (k : string)
    (v : value) :
  m !! k = Some v -> snapshotMaterials m l !! k = Some v.
Proof.
  revert m. induction l as [|f l IH]; intros m Hk; [exact Hk|].
  unfold snapshotMaterials in *. cbn [fold_left]. apply IH.
  destruct (isMesh f && negb (has m (uuid f))) eqn:Hc; [|exact Hk].
  destruct (decide (uuid f = k)) as [<-|Hne].
  - apply andb_prop in Hc as [_ Hc]. unfold has in Hc. rewrite Hk in Hc. discriminate.
  - rewrite lookup_insert_ne by assumption. exact Hk.
Qed.

(** With distinct uuids and no earlier entry, the snapshot holds the
    material of every mesh. *)
Lemma snapshot_get (l : list Fields) (m : gmap string value) :
  NoDup (map uuid (List.filter isMesh l)) ->
  (forall f, In f l -> isMesh f = true -> m !! uuid f = None) ->
  forall f, In f l -> isMesh f = true ->
            snapshotMaterials m l !! uuid f = Some (material f).
Proof.
  revert m. induction l as [|g l IH]; intros m Hnd Hfresh f Hin Hmesh; [destruct Hin|].
  unfold snapshotMaterials. cbn [fold_left].
  fold (snapshotMaterials (if isMesh g && negb (has m (uuid g))
                           then <[uuid g := material g]> m else m) l).
  cbn [List.filter] in Hnd.
  destruct (isMesh g) eqn:Hg; cbn [andb].
  - cbn [map] in Hnd. apply NoDup_cons in Hnd as [Hnotin Hnd].
    unfold has. rewrite (Hfresh g (or_introl eq_refl) Hg). cbn [negb].
    destruct Hin as [->|Hin].
    + apply snapshot_lookup_keeps. apply lookup_insert_eq.
    + apply IH; try assumption.
      intros f' Hf' Hm'. rewrite lookup_insert_ne.
      * apply Hfresh; [right; exact Hf' | exact Hm'].
      * intros Heq. apply Hnotin. rewrite Heq. apply list_elem_of_In, in_map.
        apply filter_In. split; assumption.
  - destruct Hin as [->|Hin]; [congruence|].
    apply IH; try assumption.
    intros f' Hf' Hm'. apply Hfresh; [right; exact Hf' | exact Hm'].
Qed.

Lemma restored_preview (saved : gmap string value) (f : Fields) (r : ref) :
  isMesh f = true -> saved !! uuid f = Some (material f) ->
  restoredNode saved (set_shadows false false (set_material (VRef r) f)) = shadowed f.
Proof.
  intros Hm Hs. unfold restoredNode, shadowed, has, get.
  cbn [isMesh uuid set_shadows set_material]. rewrite Hm, Hs. cbn.
  destruct f; reflexivity.
Qed.

Lemma restored_previewNodes (saved : gmap string value) (l : list Fields) (n : ref) :
  (forall f, In f l -> isMesh f = true -> saved !! uuid f = Some (material f)) ->
  map (restoredNode saved) (previewNodes n l) = map shadowed l.
Proof.
  revert n. induction l as [|f l IH]; intros n Hs; [reflexivity|].
  cbn [previewNodes map]. destruct (isMesh f) eqn:Hm.
  - cbn [map]. rewrite (restored_preview saved f _ Hm (Hs f (or_introl eq_refl) Hm)).
    f_equal. apply IH. intros g Hg. apply Hs. right. exact Hg.
  - cbn [map]. f_equal.
    + unfold restoredNode, shadowed. rewrite Hm. reflexivity.
    + apply IH. intros g Hg. apply Hs. right. exact Hg.
Qed.

Lemma previewRefs_above (l : list Fields) (n : ref) :
  Forall (fun r => (n <= r)%nat) (previewRefs n l).
Proof.
  revert n. induction l as [|f l IH]; intros n; cbn [previewRefs]; [constructor|].
  destruct (isMesh f).
  - constructor; [lia|]. eapply Forall_impl; [apply IH|]. cbn. intros; lia.
  - apply IH.
Qed.

Lemma previewRefs_NoDup (l : list Fields) (n : ref) : NoDup (previewRefs n l).
Proof.
  revert n. induction l as [|f l IH]; intros n; cbn [previewRefs]; [constructor|].
  destruct (isMesh f); [|apply IH].
  constructor; [|apply IH].
  intros Hin. pose proof (previewRefs_above l (5 + n)) as Ha.
  rewrite Forall_forall in Ha. specialize (Ha _ Hin). cbn in Ha. lia.
Qed.

Lemma previewRefs_length (l : list Fields) (n : ref) :
  length (previewRefs n l) = length (List.filter isMesh l).
Proof.
  revert n. induction l as [|f l IH]; intros n; cbn [previewRefs List.filter]; [reflexivity|].
  destruct (isMesh f); cbn [length]; rewrite IH; reflexivity.
Qed.

Lemma previewObjects_below (l : list Fields) (n k : ref) (h : gmap ref jsobj) :
  (k < n)%nat -> previewObjects n h l !! k = h !! k.
Proof.
  revert n h. induction l as [|f l IH]; intros n h Hk; cbn [previewObjects]; [reflexivity|].
  destruct (isMesh f); [|apply IH; exact Hk].
  rewrite IH by lia. unfold hologramObjects.
  rewrite !lookup_insert_ne by lia. reflexivity.
Qed.

Lemma previewObjects_dispose (l : list Fields) (n : ref) (h : gmap ref jsobj) :
  Forall (fun r => disposable (previewObjects n h l) (VRef r) = true) (previewRefs n l).
Proof.
  revert n h. induction l as [|f l IH]; intros n h; cbn [previewObjects previewRefs];
    [constructor|].
  destruct (isMesh f); [|apply IH].
  constructor; [|apply IH].
  unfold disposable, deref. rewrite previewObjects_below by lia.
  unfold hologramObjects. rewrite lookup_insert_eq. reflexivity.
Qed.

Lemma disposed_previewNodes (h : gmap ref jsobj) (saved : gmap string value)
    (l : list Fields) (n : ref) :
  (forall f, In f l -> isMesh f = true -> has saved (uuid f) = true) ->
  Forall (fun r => disposable h (VRef r) = true) (previewRefs n l) ->
  flat_map (disposedOnRestore h saved) (previewNodes n l) = previewRefs n l.
Proof.
  revert n. induction l as [|f l IH]; intros n Hs Hd; [reflexivity|].
  cbn [previewNodes previewRefs] in *. destruct (isMesh f) eqn:Hm.
  - apply Forall_cons in Hd as [Hd1 Hd2].
    cbn [flat_map]. rewrite IH; [|intros g Hg; apply Hs; right; exact Hg | exact Hd2].
    unfold disposedOnRestore at 1. cbn [isMesh uuid material set_shadows set_material].
    rewrite Hm, (Hs f (or_introl eq_refl) Hm), Hd1. reflexivity.
  - cbn [flat_map]. rewrite IH; [|intros g Hg; apply Hs; right; exact Hg | exact Hd].
    unfold disposedOnRestore at 1. rewrite Hm. reflexivity.
Qed.

Lemma previewNodes_fields (l : list Fields) (n : ref) :
  Forall2 (fun f f' => uuid f' = uuid f /\ isMesh f' = isMesh f) l (previewNodes n l).
Proof.
  revert n. induction l as [|f l IH]; intros n; cbn [previewNodes]; [constructor|].
  destruct (isMesh f) eqn:Hm; constructor; auto.
Qed.

(** X6.  The hologram switched on and then off, on a model whose meshes have
    distinct uuids and no saved material yet (as after a load): both calls
    return; every mesh has its own material back, and casts and receives
    shadows; a model whose meshes did so before is exactly the model it was.
    What is disposed is exactly the materials the first call created, one
    per mesh, each once; the flag is off, and the map keeps the entries the
    first call made. *)
Theorem toggleHologram_round_trip (s : Viewer) (model : Object3D) :
  currentModel s = Some model ->
  NoDup (map uuid (meshes model)) ->
  (forall f, In f (nodes model) -> isMesh f = true -> originalMaterials s !! uuid f = None) ->
  let n := nextRef s in
  let created := previewRefs n (nodes model) in
  exists s1 s2 model2,
    toggleHologram true s = (Returned tt, s1) /\
    toggleHologram false s1 = (Returned tt, s2) /\
    s2 = set_currentModel (Some model2)
           (logged (map EvDispose created)
              (set_nextRef (previewNext n (nodes model))
                 (set_objects (previewObjects n (objects s) (nodes model))
                    (set_originalMaterials
                       (snapshotMaterials (originalMaterials s) (nodes model))
                       (set_hologramActive false s))))) /\
    nodes model2 = map shadowed (nodes model) /\
    (Forall (fun f => shadowed f = f) (nodes model) -> model2 = model) /\
    length created = length (meshes model) /\
    NoDup created /\
    Forall (fun r => (n <= r)%nat) created /\
    (forall f, In f (nodes model) -> isMesh f = true ->
               originalMaterials s2 !! uuid f = Some (material f)).
Proof.
  intros Hm Hnd Hfresh n created.
  pose proof (applyHologram_exact (nodes model) (set_hologramActive true s)) as Hon.
  change (nextRef (set_hologramActive true s)) with n in Hon.
  change (objects (set_hologramActive true s)) with (objects s) in Hon.
  change (originalMaterials (set_hologramActive true s)) with (originalMaterials s) in Hon.
  destruct (traverse_returned _ _ _ _ _ Hon) as (model1 & Htrav1 & Hnodes1).
  pose proof (traverse_shape _ _ _ _ _ Htrav1) as Hshape1.
  set (saved := snapshotMaterials (originalMaterials s) (nodes model)) in *.
  set (h1 := previewObjects n (objects s) (nodes model)) in *.
  assert (Hsaved : forall f, In f (nodes model) -> isMesh f = true ->
                             saved !! uuid f = Some (material f)).
  { apply snapshot_get; assumption. }
  match type of Htrav1 with
  | _ = (_, ?st) => set (s1' := st) in *
  end.
  set (s1 := set_currentModel (Some model1) s1').
  pose proof (restoreOriginal_run (nodes model1) (set_hologramActive false s1)) as Hoff.
  change (originalMaterials (set_hologramActive false s1)) with saved in Hoff.
  change (objects (set_hologramActive false s1)) with h1 in Hoff.
  rewrite Hnodes1 in Hoff at 2 3.
  rewrite restored_previewNodes in Hoff by exact Hsaved.
  rewrite disposed_previewNodes in Hoff;
    [|intros f Hf Hmesh; unfold has; rewrite (Hsaved f Hf Hmesh); reflexivity
     |apply previewObjects_dispose].
  destruct (traverse_returned _ _ _ _ _ Hoff) as (model2 & Htrav2 & Hnodes2).
  pose proof (traverse_shape _ _ _ _ _ Htrav2) as Hshape2.
  exists s1. eexists. exists model2. split_and!.
  - unfold toggleHologram, bind at 1, gets at 1. rewrite Hm.
    unfold bind, modify. rewrite Htrav1. reflexivity.
  - unfold toggleHologram, bind at 1, gets at 1.
    change (currentModel s1) with (Some model1). cbv beta iota.
    unfold bind, modify. rewrite Htrav2. reflexivity.
  - unfold s1, s1', logged. destruct s; reflexivity.
  - exact Hnodes2.
  - intros Hall. apply shape_nodes_eq; [congruence|].
    rewrite Hnodes2. clear -Hall. induction Hall as [|f l Hf _ IH]; [reflexivity|].
    cbn [map]. rewrite Hf, IH. reflexivity.
  - apply previewRefs_length.
  - apply previewRefs_NoDup.
  - apply previewRefs_above.
  - state_simpl. exact Hsaved.
Qed.

Lemma toggleHologram_round_trip_witness :
  let s := set_currentModel (Some modelA) loaded in
  exists s1 s2,
    toggleHologram true s = (Returned tt, s1) /\
    toggleHologram false s1 = (Returned tt, s2) /\
    trace s2 = trace s ++ [EvDispose 12; EvDispose 17].
Proof.
  intros s.
  assert (Hnd : NoDup (map uuid (meshes modelA))).
  { apply (bool_decide_unpack _). vm_compute. reflexivity. }
  destruct (toggleHologram_round_trip s modelA eq_refl Hnd)
    as (s1 & s2 & m2 & H1 & H2 & Hs2 & _).
  { intros f _ _. apply lookup_empty. }
  exists s1, s2. split_and!; [exact H1 | exact H2 |].
  rewrite Hs2. reflexivity.
Defined.

End HologramRoundTrip.

(** ** A model replaced while it is shown as hologram *)

Section HologramReplace.

Lemma disposals_app (l1 l2 : list event) : disposals (l1 ++ l2) = disposals l1 ++ disposals l2.
Proof. unfold disposals. apply flat_map_app. Qed.

Lemma disposals_dispose (l : list ref) : disposals (map EvDispose l) = l.
Proof. induction l as [|r l IH]; [reflexivity|]. cbn. f_equal. exact IH. Qed.

Lemma previewObjects_disposable (s : Viewer) (l : list Fields) (v : value) :
  storeFresh s ->
  disposable (objects s) v = true ->
  disposable (previewObjects (nextRef s) (objects s) l) v = true.
Proof.
  intros Hfresh. destruct v as [| | b|r]; cbn [disposable]; try discriminate.
  unfold deref. destruct (le_lt_dec (nextRef s) r) as [Hle|Hlt].
  - rewrite (Hfresh r Hle). discriminate.
  - rewrite previewObjects_below by exact Hlt. auto.
Qed.

Lemma items_insert (h : gmap ref jsobj) (k r : ref) (o : jsobj) :
  items o = None -> items (deref h r) = None -> items (deref (<[k := o]> h) r) = None.
Proof.
  intros Ho Hr. unfold deref in *. destruct (decide (k = r)) as [->|Hne].
  - rewrite lookup_insert_eq. exact Ho.
  - rewrite lookup_insert_ne by exact Hne. exact Hr.
Qed.

Lemma hologramObjects_items (n r : ref) (h : gmap ref jsobj) :
  h !! r = None -> items (deref (hologramObjects n h) r) = None.
Proof.
  intros Hr. unfold hologramObjects.
  repeat (apply items_insert; [reflexivity|]).
  unfold deref. rewrite Hr. reflexivity.
Qed.

Lemma hologramObjects_fresh (n r : ref) (h : gmap ref jsobj) :
  (forall k : ref, (n <= k)%nat -> h !! k = None) ->
  (5 + n <= r)%nat -> hologramObjects n h !! r = None.
Proof.
  intros Hf Hr. unfold hologramObjects. rewrite !lookup_insert_ne by lia.
  apply Hf. lia.
Qed.

(** The objects made for a hologram material carry nothing the count of the
    info bar reads. *)
Lemma hologramObjects_sameInfo (n : ref) (h : gmap ref jsobj) :
  (forall k : ref, (n <= k)%nat -> h !! k = None) ->
  sameInfo h (hologramObjects n h).
Proof.
  intros Hf r k Hk. unfold hologramObjects. rewrite !deref_insert.
  repeat (destruct (decide _) as [<-|_];
          [unfold deref; rewrite Hf by lia; destruct Hk as [->|[->| ->]]; reflexivity|]).
  reflexivity.
Qed.

Lemma previewObjects_sameInfo (l : list Fields) (n : ref) (h : gmap ref jsobj) :
  (forall k : ref, (n <= k)%nat -> h !! k = None) ->
  sameInfo h (previewObjects n h l).
Proof.
  revert n h. induction l as [|f l IH]; intros n h Hf; cbn [previewObjects].
  - apply sameInfo_refl.
  - destruct (isMesh f); [|apply IH; exact Hf].
    eapply sameInfo_trans; [apply hologramObjects_sameInfo; exact Hf|].
    apply IH. intros k Hk. apply hologramObjects_fresh; [exact Hf | exact Hk].
Qed.

Lemma previewObjects_items (l : list Fields) (n r : ref) (h : gmap ref jsobj) :
  (forall k : ref, (n <= k)%nat -> h !! k = None) ->
  (n <= r)%nat ->
  items (deref (previewObjects n h l) r) = None.
Proof.
  revert n h. induction l as [|f l IH]; intros n h Hf Hr; cbn [previewObjects].
  - unfold deref. rewrite (Hf r Hr). reflexivity.
  - destruct (isMesh f); [|apply IH; assumption].
    destruct (le_lt_dec (5 + n) r) as [Hle|Hlt].
    + apply IH; [|exact Hle]. intros k Hk. apply hologramObjects_fresh; assumption.
    + unfold deref. rewrite previewObjects_below by exact Hlt.
      apply hologramObjects_items. apply Hf. exact Hr.
Qed.

Lemma previewObjects_asArray (s : Viewer) (l : list Fields) (v : value) :
  storeFresh s ->
  asArray (previewObjects (nextRef s) (objects s) l) v = asArray (objects s) v.
Proof.
  intros Hfresh. destruct v as [| | b|r]; cbn [asArray]; try reflexivity.
  destruct (le_lt_dec (nextRef s) r) as [Hle|Hlt].
  - rewrite previewObjects_items by assumption.
    unfold deref. rewrite (Hfresh r Hle). reflexivity.
  - unfold deref. rewrite previewObjects_below by exact Hlt. reflexivity.
Qed.

Lemma previewObjects_wellFormedNode (s : Viewer) (l : list Fields) (f : Fields) :
  storeFresh s ->
  wellFormedNode (objects s) f = true ->
  wellFormedNode (previewObjects (nextRef s) (objects s) l) f = true.
Proof.
  intros Hfresh. unfold wellFormedNode. intros [Hg Hm]%andb_prop.
  apply andb_true_intro. split.
  - apply orb_prop in Hg as [Hg|Hg]; [rewrite Hg; reflexivity|].
    rewrite (previewObjects_disposable s l _ Hfresh Hg). apply orb_true_r.
  - apply orb_prop in Hm as [Hm|Hm]; [rewrite Hm; reflexivity|].
    rewrite previewObjects_asArray by exact Hfresh.
    destruct (asArray (objects s) (material f)) as [ms|].
    + apply orb_true_iff. right. apply forallb_forall. intros x Hx.
      rewrite forallb_forall in Hm.
      apply previewObjects_disposable; [exact Hfresh | apply Hm; exact Hx].
    + rewrite (previewObjects_disposable s l _ Hfresh Hm). apply orb_true_r.
Qed.

(** A preview material in the store that [toggleHologram(true)] leaves:
    not an array, with a [dispose] method, holding nothing disposable. *)
Lemma preview_holds (l : list Fields) (n : ref) (h : gmap ref jsobj) :
  let h1 := previewObjects (5 + n) (hologramObjects n h) l in
  asArray h1 (VRef (4 + n)%nat) = None /\
  disposable h1 (VRef (4 + n)%nat) = true /\
  materialHolds h1 (VRef (4 + n)%nat) = [(4 + n)%nat].
Proof.
  intros h1.
  assert (H4 : deref h1 (4 + n)%nat = deref (hologramObjects n h) (4 + n)%nat).
  { unfold deref, h1. rewrite previewObjects_below by lia. reflexivity. }
  assert (H3 : has_dispose (deref h1 (3 + n)%nat) = false).
  { unfold deref, h1. rewrite previewObjects_below by lia.
    unfold hologramObjects. rewrite lookup_insert_ne by lia.
    rewrite lookup_insert_eq. reflexivity. }
  unfold asArray, disposable, materialHolds. rewrite H4.
  unfold deref at 1 2 3, hologramObjects. rewrite !lookup_insert_eq.
  cbn [from_option Datatypes.id items has_dispose ownValues props map snd app List.filter
       disposable].
  rewrite H3. cbn. auto.
Qed.

Lemma holds_previewNodes (l : list Fields) (n : ref) (hfinal : gmap ref jsobj) :
  (forall f, In f l -> isMesh f = false ->
             truthy (geometry f) = false /\ truthy (material f) = false) ->
  (forall f, In f l -> isMesh f = true ->
             negb (truthy (geometry f)) || disposable hfinal (geometry f) = true) ->
  Forall (fun p => asArray hfinal (VRef p) = None /\
                   disposable hfinal (VRef p) = true /\
                   materialHolds hfinal (VRef p) = [p]) (previewRefs n l) ->
  forallb (wellFormedNode hfinal) (previewNodes n l) = true /\
  flat_map (nodeHolds hfinal) (previewNodes n l) = heldAsHologram n l.
Proof.
  revert n. induction l as [|f l IH]; intros n Hplain Hgeo Hprev; [split; reflexivity|].
  cbn [previewNodes previewRefs heldAsHologram] in *.
  destruct (isMesh f) eqn:Hm.
  - apply Forall_cons in Hprev as [(Ha & Hd & Hh) Hprev].
    destruct (IH (5 + n)%nat) as [IH1 IH2]; try assumption.
    { intros g Hg. apply Hplain. right. exact Hg. }
    { intros g Hg. apply Hgeo. right. exact Hg. }
    cbn [forallb flat_map]. rewrite IH1, IH2. split.
    + rewrite andb_true_r. unfold wellFormedNode.
      cbn [geometry material set_shadows set_material].
      rewrite (Hgeo f (or_introl eq_refl) Hm), Ha, Hd. reflexivity.
    + unfold nodeHolds at 1. cbn [geometry material set_shadows set_material].
      rewrite Ha, Hh. rewrite <- app_assoc. reflexivity.
  - destruct (IH n) as [IH1 IH2]; try assumption.
    { intros g Hg. apply Hplain. right. exact Hg. }
    { intros g Hg. apply Hgeo. right. exact Hg. }
    destruct (Hplain f (or_introl eq_refl) Hm) as [Hg0 Hm0].
    cbn [forallb flat_map]. rewrite IH1, IH2. split.
    + rewrite andb_true_r. unfold wellFormedNode. rewrite Hg0, Hm0. reflexivity.
    + unfold nodeHolds at 1.
      destruct (holds_not_truthy hfinal _ Hg0) as (-> & _).
      destruct (holds_not_truthy hfinal _ Hm0) as (_ & -> & ->). reflexivity.
Qed.

Lemma previewRefs_holds (l : list Fields) (n : ref) (h : gmap ref jsobj) :
  Forall (fun p => asArray (previewObjects n h l) (VRef p) = None /\
                   disposable (previewObjects n h l) (VRef p) = true /\
                   materialHolds (previewObjects n h l) (VRef p) = [p]) (previewRefs n l).
Proof.
  revert n h. induction l as [|f l IH]; intros n h; cbn [previewObjects previewRefs];
    [constructor|].
  destruct (isMesh f); [|apply IH].
  constructor; [apply preview_holds | apply IH].
Qed.

Lemma heldAsHologram_In (l : list Fields) (n r : ref) :
  In r (heldAsHologram n l) ->
  (exists f, In f l /\ isMesh f = true /\ geometry f = VRef r) \/ (n <= r)%nat.
Proof.
  revert n. induction l as [|f l IH]; intros n; cbn [heldAsHologram]; [intros []|].
  destruct (isMesh f) eqn:Hm.
  - rewrite in_app_iff. intros [Hg|[<-|Hr]].
    + left. exists f. split; [left; reflexivity|]. split; [exact Hm|].
      destruct (geometry f); cbn in Hg; try contradiction.
      destruct Hg as [->|[]]. reflexivity.
    + right. lia.
    + destruct (IH _ Hr) as [(g & Hg & Hgm & Hgg)|Hn].
      * left. exists g. split; [right; exact Hg | auto].
      * right. lia.
  - intros Hr. destruct (IH _ Hr) as [(g & Hg & Hgm & Hgg)|Hn].
    + left. exists g. split; [right; exact Hg | auto].
    + right. exact Hn.
Qed.

(** X7.  A model replaced while it is shown as hologram.  The old model is
    well formed and holds its resources in its meshes; the hologram is
    switched on and a new, well-formed model, whose triangles
    [updateInfoBar] can count, is then set up.  Both calls return.  The
    disposer runs on the old model as it then is: what it disposes is, mesh
    by mesh, the geometry and the material made for the hologram.  So every disposed object is the geometry of a mesh or was
    created by the hologram switch: the materials the meshes had before it,
    which the map of saved materials held, are not disposed, and the map is
    emptied. *)
Theorem setupLoadedModel_over_hologram (s : Viewer) (model new : Object3D)
    (name : option string) :
  currentModel s = Some model ->
  storeFresh s ->
  wellFormed (objects s) model = true ->
  wellFormed (objects s) new = true ->
  infoReady (objects s) new = true ->
  (forall f, In f (nodes model) -> isMesh f = false ->
             truthy (geometry f) = false /\ truthy (material f) = false) ->
  let n := nextRef s in
  exists s1 s2,
    toggleHologram true s = (Returned tt, s1) /\
    setupLoadedModel new name s1 = (Returned tt, s2) /\
    disposals (since (length (trace s)) s2) = heldAsHologram n (nodes model) /\
    (forall r, In r (disposals (since (length (trace s)) s2)) ->
               (exists f, In f (nodes model) /\ isMesh f = true /\ geometry f = VRef r) \/
               (n <= r)%nat) /\
    (forall f, In f (nodes model) -> isMesh f = true ->
               has (originalMaterials s1) (uuid f) = true) /\
    originalMaterials s2 = ∅ /\
    hologramActive s2 = false.
Proof.
  intros Hm Hfresh Hwf Hnew Hinfo Hplain n.
  pose proof (applyHologram_exact (nodes model) (set_hologramActive true s)) as Hon.
  change (nextRef (set_hologramActive true s)) with n in Hon.
  change (objects (set_hologramActive true s)) with (objects s) in Hon.
  change (originalMaterials (set_hologramActive true s)) with (originalMaterials s) in Hon.
  destruct (traverse_returned _ _ _ _ _ Hon) as (model1 & Htrav1 & Hnodes1).
  set (h1 := previewObjects n (objects s) (nodes model)) in *.
  match type of Htrav1 with
  | _ = (_, ?st) => set (s1' := st) in *
  end.
  set (s1 := set_currentModel (Some model1) s1').
  assert (Hrun1 : toggleHologram true s = (Returned tt, s1)).
  { unfold toggleHologram, bind at 1, gets at 1. rewrite Hm.
    unfold bind, modify. rewrite Htrav1. reflexivity. }
  destruct (holds_previewNodes (nodes model) n h1) as [Hwf1 Hheld].
  { exact Hplain. }
  { intros f Hf Hmesh. unfold wellFormed in Hwf. rewrite forallb_forall in Hwf.
    specialize (Hwf f Hf). unfold wellFormedNode in Hwf.
    apply andb_prop in Hwf as [Hg _].
    apply orb_prop in Hg as [Hg|Hg]; [rewrite Hg; reflexivity|].
    unfold h1, n. rewrite (previewObjects_disposable s _ _ Hfresh Hg). apply orb_true_r. }
  { apply previewRefs_holds. }
  destruct (setupLoadedModel_run new name s1) as (model' & h' & Hrun2 & _ & _).
  { intros old [= <-]. unfold wellFormed. rewrite Hnodes1. exact Hwf1. }
  { change (objects s1) with h1. unfold wellFormed in *.
    apply forallb_forall. intros f Hf. rewrite forallb_forall in Hnew.
    apply previewObjects_wellFormedNode; [exact Hfresh | apply Hnew; exact Hf]. }
  { change (objects s1) with h1. rewrite <- Hinfo. apply infoReady_ext.
    apply previewObjects_sameInfo. exact Hfresh. }
  assert (Hdisp : disposals (since (length (trace s)) (installed model' h' s1))
                  = heldAsHologram n (nodes model)).
  { unfold since, installed. cbn [trace].
    change (currentModel s1) with (Some model1).
    change (trace s1) with (trace s). change (objects s1) with h1.
    rewrite drop_app_length. rewrite !disposals_app, disposals_dispose.
    unfold holds. rewrite Hnodes1, Hheld. cbn. apply app_nil_r. }
  exists s1, (installed model' h' s1). split_and!.
  - exact Hrun1.
  - exact Hrun2.
  - exact Hdisp.
  - intros r Hr. rewrite Hdisp in Hr. apply heldAsHologram_In. exact Hr.
  - intros f Hf Hmesh. change (originalMaterials s1)
      with (snapshotMaterials (originalMaterials s) (nodes model)).
    apply snapshot_covers; assumption.
  - reflexivity.
  - reflexivity.
Qed.

Lemma setupLoadedModel_over_hologram_witness :
  let s := set_currentModel (Some modelB) loaded in
  exists s1 s2,
    toggleHologram true s = (Returned tt, s1) /\
    setupLoadedModel modelA None s1 = (Returned tt, s2) /\
    disposals (since (length (trace s)) s2) = [6; 12]%nat /\
    originalMaterials s2 = ∅.
Proof.
  intros s.
  destruct (setupLoadedModel_over_hologram s modelB modelA None eq_refl)
    as (s1 & s2 & H1 & H2 & H3 & _ & _ & H4 & _).
  - intros r Hr. change (8 <= r)%nat in Hr. change (objects s) with sampleObjects.
    unfold sampleObjects, list_to_map. cbn [foldr fst snd].
    rewrite !lookup_insert_ne by lia. apply lookup_empty.
  - vm_compute. reflexivity.
  - vm_compute. reflexivity.
  - vm_compute. reflexivity.
  - intros f Hf Hmesh. cbn in Hf.
    destruct Hf as [<-|[<-|[]]]; [split; reflexivity | discriminate Hmesh].
  - exists s1, s2. split_and!; [exact H1 | exact H2 | exact H3 | exact H4].
Defined.

End HologramReplace.

(** ** Drag and drop *)

Section DragAndDrop.

Lemma drop_zone (files : list File) (objectURL : string) (a : App) :
  dragCounter (ondrop files objectURL a) = 0%Z /\
  dropZone_visible (ondrop files objectURL a) = false.
Proof.
  unfold ondrop. destruct files as [|file rest]; [split; reflexivity|].
  cbv zeta. destruct (_ || _); [split; reflexivity|].
  destruct (endsWith _ _); split; reflexivity.
Qed.

Lemma drag_ok (e : DragEvent) (a : App) : dropZoneOk a -> dropZoneOk (drag e a).
Proof.
  unfold dropZoneOk. intros [Hc Hv]. destruct e as [| | |files url]; cbn [drag].
  - unfold ondragenter. cbn. split; [lia|]. split; [lia | reflexivity].
  - unfold ondragleave. cbn [dragCounter set_dragCounter].
    destruct (Z.leb_spec (dragCounter a - 1) 0) as [Hle|Hgt]; cbn.
    + split; [lia|]. split; [discriminate | lia].
    + split; [lia|]. split; [lia|]. intros _. apply Hv. lia.
  - exact (conj Hc Hv).
  - destruct (drop_zone files url a) as [-> ->]. split; [lia|]. split; [discriminate | lia].
Qed.

Lemma dragAll_app (es1 es2 : list DragEvent) (a : App) :
  dragAll (es1 ++ es2) a = dragAll es2 (dragAll es1 a).
Proof. unfold dragAll. apply fold_left_app. Qed.

(** X8.  The drop zone of [setupDragAndDrop], over every sequence of drag
    events: the counter never goes below zero and the zone shows exactly
    while the counter is positive; a drop always leaves the zone hidden and
    the counter at zero; and only a drop reaches the viewer or starts a
    load. *)
Theorem dropZone_invariant (es : list DragEvent) (a : App) :
  dropZoneOk a ->
  dropZoneOk (dragAll es a) /\
  (forall files objectURL,
      dragCounter (dragAll (es ++ [Drop files objectURL]) a) = 0%Z /\
      dropZone_visible (dragAll (es ++ [Drop files objectURL]) a) = false) /\
  (forallb (fun e => negb (isDrop e)) es = true ->
   viewer (dragAll es a) = viewer a /\ requests (dragAll es a) = requests a).
Proof.
  intros Hok. split_and!.
  - revert a Hok. induction es as [|e es IH]; intros a Hok; [exact Hok|].
    cbn [dragAll fold_left]. apply IH. apply drag_ok. exact Hok.
  - intros files url. rewrite dragAll_app. cbn [dragAll fold_left drag].
    apply drop_zone.
  - clear Hok. revert a. induction es as [|e es IH]; intros a; [split; reflexivity|].
    cbn [forallb]. intros [He Hes]%andb_prop.
    change (dragAll (e :: es) a) with (dragAll es (drag e a)).
    destruct (IH (drag e a) Hes) as [-> ->].
    destruct e; try discriminate; cbn [drag]; [split; reflexivity| |split; reflexivity].
    unfold ondragleave. cbn [dragCounter set_dragCounter].
    destruct (_ <=? _)%Z; split; reflexivity.
Qed.

Lemma dropZone_invariant_witness :
  dropZoneOk (dragAll [DragEnter; DragEnter; DragLeave; DragLeave; DragLeave] started).
Proof.
  apply (dropZone_invariant [DragEnter; DragEnter; DragLeave; DragLeave; DragLeave] started).
  unfold dropZoneOk. cbn. split; [lia|]. split; [discriminate | lia].
Defined.

Lemma toLowerCase_app (s1 s2 : string) :
  toLowerCase (s1 ++ s2) = (toLowerCase s1 ++ toLowerCase s2)%string.
Proof. induction s1 as [|c s1 IH]; simpl; [reflexivity | rewrite IH; reflexivity]. Qed.

Lemma list_ascii_app (s1 s2 : string) :
  String.list_ascii_of_string (s1 ++ s2)
  = String.list_ascii_of_string s1 ++ String.list_ascii_of_string s2.
Proof. induction s1 as [|c s1 IH]; simpl; [reflexivity | rewrite IH; reflexivity]. Qed.

Lemma endsWith_app (stem lower suffix : string) :
  endsWith (stem ++ lower) suffix
  = startsWith (rev (String.list_ascii_of_string lower)
                  ++ rev (String.list_ascii_of_string stem))
               (rev (String.list_ascii_of_string suffix)).
Proof. unfold endsWith. rewrite list_ascii_app, rev_app_distr. reflexivity. Qed.

(** X9.  What a dropped file starts is decided by the end of its name,
    whatever the case of its letters: a name that ends in .glb or .gltf
    starts the load of a model under the name the file has, one that ends in
    .exr the load of an environment map, each from the object URL made for
    the file; the loading overlay is shown and no alert is raised.  Only the
    first of the dropped files is looked at. *)
Theorem drop_by_extension (stem ext : string) (rest : list File) (objectURL : string)
    (a : App) :
  In (toLowerCase ext) [".glb"; ".gltf"; ".exr"] ->
  let file := mkFile (stem ++ ext) in
  let a' := ondrop (file :: rest) objectURL a in
  requests a'
  = requests a ++ [if String.eqb (toLowerCase ext) ".exr"
                   then RequestHDRI objectURL
                   else RequestModel objectURL (stem ++ ext) true] /\
  loading_visible (dom (viewer a')) = true /\
  trace (viewer a') = trace (viewer a) /\
  dragCounter a' = 0%Z /\
  dropZone_visible a' = false /\
  a' = ondrop [file] objectURL a.
Proof.
  intros Hext file a'. unfold a', file, ondrop. cbv zeta. cbn [file_name].
  rewrite toLowerCase_app, !endsWith_app.
  destruct Hext as [<-|[<-|[<-|[]]]]; cbn; split_and!; reflexivity.
Qed.

Lemma drop_by_extension_witness :
  requests (ondrop [mkFile "Robot.GLB"; mkFile "sky.exr"] "blob:1" started)
  = requests started ++ [RequestModel "blob:1" "Robot.GLB" true].
Proof.
  apply (drop_by_extension "Robot" ".GLB" [mkFile "sky.exr"] "blob:1" started).
  cbn. left. reflexivity.
Defined.

End DragAndDrop.

(** ** Keyboard *)

Section Keyboard.

Lemma lowerAscii_idem (c : Ascii.ascii) : lowerAscii (lowerAscii c) = lowerAscii c.
Proof. destruct c as [[] [] [] [] [] [] [] []]; vm_compute; reflexivity. Qed.

Lemma toLowerCase_idem (s : string) : toLowerCase (toLowerCase s) = toLowerCase s.
Proof.
  induction s as [|c s IH]; cbn; [reflexivity|]. rewrite lowerAscii_idem, IH. reflexivity.
Qed.

Lemma viewer_same (v : Viewer) :
  set_trace (trace v)
    (set_orbit_target (orbit_target v)
       (set_camera_position (camera_position v) (set_gizmo_object (gizmo_object v) v))) = v.
Proof. destruct v. reflexivity. Qed.

(** X10.  What a key can do.  The handler goes by the key in lower case, so
    Shift and Caps Lock make no difference; a key changes at most the mode
    of the gizmo with its buttons, the object the gizmo holds, the camera
    position and target, and the record of calls: never the model, the
    scene, the materials, the environment, the drop zone or the loads.  The
    gizmo afterwards holds what it held or nothing.  Without a current model
    no key changes the viewer, and Ctrl+S changes nothing at all. *)
Theorem keydown_effect (key : string) (ctrlKey : bool) (a : App) :
  let a' := onkeydown key ctrlKey a in
  a' = onkeydown (toLowerCase key) ctrlKey a /\
  (exists g p q t,
      viewer a' = set_trace t (set_orbit_target q (set_camera_position p
                                 (set_gizmo_object g (viewer a)))) /\
      (g = gizmo_object (viewer a) \/ g = None)) /\
  autoRotate a' = autoRotate a /\
  dragCounter a' = dragCounter a /\
  dropZone_visible a' = dropZone_visible a /\
  requests a' = requests a /\
  (currentModel (viewer a) = None -> viewer a' = viewer a) /\
  (toLowerCase key = "s" -> ctrlKey = true -> a' = a).
Proof.
  assert (Hsame : exists g p q t,
             viewer a = set_trace t (set_orbit_target q (set_camera_position p
                                       (set_gizmo_object g (viewer a)))) /\
             (g = gizmo_object (viewer a) \/ g = None)).
  { exists (gizmo_object (viewer a)), (camera_position (viewer a)),
           (orbit_target (viewer a)), (trace (viewer a)).
    rewrite viewer_same. auto. }
  cbv zeta. split; [unfold onkeydown; rewrite toLowerCase_idem; reflexivity|].
  unfold onkeydown.
  destruct (String.eqb_spec (toLowerCase key) "g") as [Hg|_];
    [split_and!; try reflexivity; try exact Hsame; rewrite Hg; discriminate|].
  destruct (String.eqb_spec (toLowerCase key) "r") as [Hr|_];
    [split_and!; try reflexivity; try exact Hsame; rewrite Hr; discriminate|].
  destruct (String.eqb_spec (toLowerCase key) "s") as [Hs|Hns].
  { destruct ctrlKey; cbn [negb];
      split_and!; try reflexivity; try exact Hsame; discriminate. }
  destruct (String.eqb_spec (toLowerCase key) "escape") as [He|_].
  { destruct (currentModel (viewer a)) as [model|] eqn:Hm;
      split_and!; try reflexivity; try exact Hsame; try discriminate;
      try (intros; contradiction).
    exists None, (camera_position (viewer a)), (orbit_target (viewer a)),
           (trace (viewer a) ++ [EvGizmoDetach]).
    split; [|right; reflexivity]. cbn. destruct (viewer a); reflexivity. }
  destruct (String.eqb_spec (toLowerCase key) "f") as [Hf|_].
  { destruct (currentModel (viewer a)) as [model|] eqn:Hm;
      split_and!; try reflexivity; try exact Hsame; try discriminate;
      try (intros; contradiction).
    exists (gizmo_object (viewer a)),
           (camera_position (snd (frameModel model (viewer a)))),
           (orbit_target (snd (frameModel model (viewer a)))),
           (trace (snd (frameModel model (viewer a)))).
    split; [|left; reflexivity].
    unfold inViewer. cbn [viewer set_viewer]. rewrite frameModel_run. cbv zeta.
    cbn [snd]. destruct (viewer a); reflexivity. }
  split_and!; try reflexivity; exact Hsame.
Qed.

Lemma keydown_effect_witness : onkeydown "S" true started = started.
Proof.
  destruct (keydown_effect "S" true started) as (_ & _ & _ & _ & _ & _ & _ & H).
  apply H; reflexivity.
Defined.

End Keyboard.

(** ** The render loop *)

Section RenderLoopFacts.
Local Open Scope R_scope.

Lemma spin_spin (x y : R) (f : Fields) : spin y (spin x f) = spin (x + y) f.
Proof.
  unfold spin. cbn [rotation set_rotation ex ey ez order].
  unfold set_rotation. cbn. f_equal. f_equal. lra.
Qed.

Lemma spin_zero (f : Fields) : spin 0 f = f.
Proof.
  unfold spin, set_rotation. destruct f as [u nm m c r g mt p [x y z o] sc b]. cbn.
  f_equal. f_equal. lra.
Qed.

Lemma with_root_with_root (g1 g2 : Fields -> Fields) (o : Object3D) :
  with_root g2 (with_root g1 o) = with_root (fun f => g2 (g1 f)) o.
Proof. destruct o. reflexivity. Qed.

Lemma animate_run (delta : R) (a : App) :
  animate delta a
  = set_viewer
      (logged [EvOrbitUpdate]
         match currentModel (viewer a) with
         | Some model =>
             if autoRotate a
             then set_currentModel
                    (Some (with_root (spin (autoRotateSpeed a * delta)) model)) (viewer a)
             else viewer a
         | None => viewer a
         end) a.
Proof.
  unfold animate. destruct (currentModel (viewer a)) as [model|]; [|reflexivity].
  destruct (autoRotate a); reflexivity.
Qed.

Lemma frames_run (deltas : list R) (a : App) :
  frames deltas a
  = set_viewer
      (logged (repeat EvOrbitUpdate (length deltas))
         match currentModel (viewer a) with
         | Some model =>
             if autoRotate a
             then set_currentModel
                    (Some (with_root (spin (autoRotateSpeed a * elapsed deltas)) model))
                    (viewer a)
             else viewer a
         | None => viewer a
         end) a.
Proof.
  revert a. induction deltas as [|d ds IH]; intros a.
  - cbn [frames fold_left length repeat elapsed fold_right]. rewrite logged_nil.
    destruct (currentModel (viewer a)) as [[f cs]|] eqn:Hm.
    + destruct (autoRotate a).
      * rewrite Rmult_0_r. cbn [with_root]. rewrite spin_zero, <- Hm.
        destruct a as [v ? ? ? ? ? ? ? ?]. cbn. destruct v; reflexivity.
      * destruct a; reflexivity.
    + destruct a; reflexivity.
  - change (frames (d :: ds) a) with (frames ds (animate d a)).
    rewrite IH, animate_run. cbn [length repeat elapsed fold_right].
    cbn [viewer set_viewer autoRotate autoRotateSpeed].
    destruct (currentModel (viewer a)) as [model|] eqn:Hm.
    + destruct (autoRotate a) eqn:Hr.
      * change (currentModel (logged [EvOrbitUpdate] ?v)) with (currentModel v).
        cbn [currentModel set_currentModel].
        rewrite with_root_with_root.
        replace (with_root (fun f => spin (autoRotateSpeed a * elapsed ds)
                                       (spin (autoRotateSpeed a * d) f)) model)
          with (with_root (spin (autoRotateSpeed a * (d + elapsed ds))) model).
        2:{ destruct model as [f cs]. cbn [with_root]. rewrite spin_spin.
            f_equal. f_equal. lra. }
        unfold logged, set_viewer. cbn. rewrite <- app_assoc. reflexivity.
      * change (currentModel (logged [EvOrbitUpdate] ?v)) with (currentModel v).
        rewrite Hm. unfold logged, set_viewer. cbn. rewrite <- app_assoc. reflexivity.
    + change (currentModel (logged [EvOrbitUpdate] ?v)) with (currentModel v).
      rewrite Hm. unfold logged, set_viewer. cbn. rewrite <- app_assoc. reflexivity.
Qed.


Lemma reset_spin (angle : R) (f : Fields) :
  set_scale (scale f) (set_rotation (rotation f) (set_position (position f) (spin angle f)))
  = f.
Proof. destruct f. reflexivity. Qed.

Lemma reset_same (f : Fields) :
  set_scale (scale f) (set_rotation (rotation f) (set_position (position f) f)) = f.
Proof. destruct f. reflexivity. Qed.

Lemma set_currentModel_logged (evs : list event) (v : Viewer) (model : Object3D)
    (other : option Object3D) :
  currentModel v = Some model ->
  set_currentModel (Some model) (logged evs (set_currentModel other v)) = logged evs v.
Proof. intros Hm. destruct v. cbn in Hm. subst. reflexivity. Qed.

(** X11.  The render loop over any number of frames.  With a current model
    and auto-rotation on, the frames add to the model's [rotation.y] the
    speed times the time that has passed, and change nothing else of the
    model: not its position, its scale, its other angles, nor any node
    below the root.  With auto-rotation off, or without a model, the frames
    change nothing.  Either way the orbit controller is updated once per
    frame, and the switches, the drop zone and the loads are as they were.
    After any number of frames, [resetModelTransform] gives back the model
    as the load left it: when the snapshot is the transform the model has
    before the frames, the viewer after the frames and the reset is the
    viewer before them, but for the controller updates. *)
Theorem frames_spin (deltas : list R) (a : App) :
  frames deltas a
  = set_viewer
      (logged (repeat EvOrbitUpdate (length deltas))
         match currentModel (viewer a) with
         | Some model =>
             if autoRotate a
             then set_currentModel
                    (Some (with_root (spin (autoRotateSpeed a * elapsed deltas)) model))
                    (viewer a)
             else viewer a
         | None => viewer a
         end) a /\
  (forall model,
      currentModel (viewer a) = Some model ->
      modelInitialTransform (viewer a) = Some (transformOf (root model)) ->
      resetModelTransform (viewer (frames deltas a))
      = (Returned tt, logged (repeat EvOrbitUpdate (length deltas)) (viewer a))).
Proof.
  split; [apply frames_run|].
  intros model Hm Ht. rewrite frames_run. cbn [viewer set_viewer]. rewrite Hm.
  unfold resetModelTransform, bind, gets, modify.
  destruct (autoRotate a).
  - cbn [currentModel modelInitialTransform logged set_trace set_currentModel].
    rewrite Ht. cbn [t_position t_rotation t_scale transformOf].
    f_equal. rewrite with_root_with_root.
    replace (with_root _ model) with model.
    + apply set_currentModel_logged. exact Hm.
    + destruct model as [f cs]. cbn [with_root root]. rewrite reset_spin. reflexivity.
  - change (currentModel (logged ?evs ?v)) with (currentModel v).
    change (modelInitialTransform (logged ?evs ?v)) with (modelInitialTransform v).
    rewrite Hm, Ht. cbn [t_position t_rotation t_scale transformOf].
    f_equal. replace (with_root _ model) with model.
    + rewrite <- (set_currentModel_logged _ (viewer a) model (currentModel (viewer a)) Hm)
        at 2.
      destruct (viewer a); reflexivity.
    + destruct model as [f cs]. cbn [with_root root]. rewrite reset_same. reflexivity.
Qed.

Lemma frames_spin_witness :
  resetModelTransform (viewer (frames [0.016; 0.017; 0.016] showingA))
  = (Returned tt, logged [EvOrbitUpdate; EvOrbitUpdate; EvOrbitUpdate] (viewer showingA)).
Proof.
  apply (proj2 (frames_spin [0.016; 0.017; 0.016] showingA) modelA); reflexivity.
Defined.

End RenderLoopFacts.

(** ** The wireframe switch *)

Section Wireframe.

Lemma setWireframe_run (checked : bool) (l : list Fields) (s : Viewer) :
  forallb envReady l = true ->
  mapM (setWireframe checked) l s
  = (Returned l, set_objects (wireframeObjects checked (objects s) l) s).
Proof.
  revert s. induction l as [|f l IH]; intros s.
  - intros _. cbn. rewrite set_objects_same. reflexivity.
  - cbn [forallb]. intros [Hf Hl]%andb_prop.
    cbn [mapM wireframeObjects]. unfold bind at 1. unfold setWireframe at 1.
    unfold envReady in Hf. fold (usesEnvironment f).
    destruct (usesEnvironment f) eqn:Hu; cbn [negb orb when] in *.
    + destruct (material f) as [| | b|r] eqn:Hm; try discriminate.
      unfold bind at 1. rewrite setProperty_run. unfold ret at 1.
      unfold bind. rewrite (IH _ Hl). reflexivity.
    + unfold bind at 1, ret at 1 2. unfold bind. rewrite (IH _ Hl).
      destruct (material f); reflexivity.
Qed.

Lemma wireframeObjects_set (checked : bool) (l : list Fields) (h : gmap ref jsobj) (r : ref) :
  (exists f, In f l /\ usesEnvironment f = true /\ material f = VRef r) \/
  getProp "wireframe" (props (deref h r)) = Some (VPrim checked) ->
  getProp "wireframe" (props (deref (wireframeObjects checked h l) r))
  = Some (VPrim checked).
Proof.
  revert h. induction l as [|f l IH]; intros h.
  - intros [(f & [] & _)|H]. exact H.
  - intros H. cbn [wireframeObjects].
    assert (Hstep : forall r0, usesEnvironment f = true -> material f = VRef r0 ->
                getProp "wireframe"
                  (props (deref (<[r0 := setProp "wireframe" (VPrim checked) (deref h r0)]> h)
                                r))
                = Some (VPrim checked) \/
                (r0 <> r /\
                 deref (<[r0 := setProp "wireframe" (VPrim checked) (deref h r0)]> h) r
                 = deref h r)).
    { intros r0 _ _. rewrite deref_insert. destruct (decide (r0 = r)) as [->|Hne].
      - left. cbn [setProp props]. apply getProp_assign_eq.
      - right. auto. }
    destruct (usesEnvironment f) eqn:Hu.
    + destruct (material f) as [| | b|r0] eqn:Hm.
      1-3: apply IH; destruct H as [(g & [<-|Hg] & Hgu & Hgm)|H];
        [congruence | left; exists g; auto | right; exact H].
      apply IH. destruct (Hstep r0 eq_refl eq_refl) as [Hset|[Hne Heq]].
      * right. exact Hset.
      * destruct H as [(g & [<-|Hg] & Hgu & Hgm)|H].
        -- congruence.
        -- left. exists g. auto.
        -- right. rewrite Heq. exact H.
    + assert (Hgoal : (exists f0, In f0 l /\ usesEnvironment f0 = true /\ material f0 = VRef r)
                      \/ getProp "wireframe" (props (deref h r)) = Some (VPrim checked)).
      { destruct H as [(g & [<-|Hg] & Hgu & Hgm)|H];
          [congruence | left; exists g; auto | right; exact H]. }
      destruct (material f); apply IH; exact Hgoal.
Qed.

Lemma wireframeObjects_other (checked : bool) (l : list Fields) (h : gmap ref jsobj)
    (r : ref) :
  (forall f, In f l -> usesEnvironment f = true -> material f <> VRef r) ->
  wireframeObjects checked h l !! r = h !! r.
Proof.
  revert h. induction l as [|f l IH]; intros h Hno; [reflexivity|].
  cbn [wireframeObjects].
  assert (Hl : forall g, In g l -> usesEnvironment g = true -> material g <> VRef r).
  { intros g Hg. apply Hno. right. exact Hg. }
  destruct (usesEnvironment f) eqn:Hu; [|destruct (material f); apply IH; exact Hl].
  destruct (material f) as [| | b|r0] eqn:Hm; try (apply IH; exact Hl).
  rewrite IH by exact Hl. apply lookup_insert_ne.
  intros ->. apply (Hno f (or_introl eq_refl) Hu). exact Hm.
Qed.

Lemma wireframeObjects_props (checked : bool) (l : list Fields) (h : gmap ref jsobj)
    (r : ref) (k : string) :
  k <> "wireframe" ->
  getProp k (props (deref (wireframeObjects checked h l) r)) = getProp k (props (deref h r)).
Proof.
  intros Hk. revert h. induction l as [|f l IH]; intros h; [reflexivity|].
  cbn [wireframeObjects].
  destruct (usesEnvironment f); [|destruct (material f); apply IH].
  destruct (material f) as [| | b|r0]; try apply IH.
  rewrite IH, deref_insert. destruct (decide (r0 = r)) as [->|Hne]; [|reflexivity].
  cbn [setProp props]. apply getProp_assign_ne. exact Hk.
Qed.

Lemma wireframeObjects_caps (checked : bool) (l : list Fields) (h : gmap ref jsobj) :
  sameCaps h (wireframeObjects checked h l).
Proof.
  revert h. induction l as [|f l IH]; intros h; [apply sameCaps_refl|].
  cbn [wireframeObjects].
  destruct (usesEnvironment f); [|destruct (material f); apply IH].
  destruct (material f) as [| | b|r0]; try apply IH.
  eapply sameCaps_trans; [apply sameCaps_setProp | apply IH].
Qed.

(** X12.  The wireframe switch, on a model whose meshes carry objects as
    materials: the handler returns and changes only the store.  The object
    that is the material of a mesh gets the flag, with its other properties
    as they were; every other object is untouched.  For a mesh whose
    material is an array of materials the flag therefore lands on the array,
    and the materials in it are as they were.  No object gains or loses its
    [dispose] method or its elements. *)
Theorem toggleWireframe_store (checked : bool) (s : Viewer) (model : Object3D) :
  currentModel s = Some model ->
  forallb envReady (nodes model) = true ->
  let h' := wireframeObjects checked (objects s) (nodes model) in
  toggleWireframe checked s = (Returned tt, set_objects h' s) /\
  (forall f r, In f (nodes model) -> usesEnvironment f = true -> material f = VRef r ->
               getProp "wireframe" (props (deref h' r)) = Some (VPrim checked)) /\
  (forall r k, k <> "wireframe" ->
               getProp k (props (deref h' r)) = getProp k (props (deref (objects s) r))) /\
  (forall r, (forall f, In f (nodes model) -> usesEnvironment f = true ->
                        material f <> VRef r) ->
             h' !! r = objects s !! r) /\
  sameCaps (objects s) h'.
Proof.
  intros Hm Hready h'. split_and!.
  - unfold toggleWireframe, bind at 1, gets at 1. rewrite Hm.
    destruct (traverse_returned _ _ _ _ _ (setWireframe_run checked (nodes model) s Hready))
      as (model' & Htrav & _).
    unfold bind. rewrite Htrav. reflexivity.
  - intros f r Hf Hu Hr. apply wireframeObjects_set. left. exists f. auto.
  - intros r k Hk. apply wireframeObjects_props. exact Hk.
  - intros r Hno. apply wireframeObjects_other. exact Hno.
  - apply wireframeObjects_caps.
Qed.

Lemma toggleWireframe_store_witness :
  let h' := objects (snd (toggleWireframe true multiMaterial)) in
  getProp "wireframe" (props (deref h' 9%nat)) = Some (VPrim true) /\
  h' !! 2%nat = objects multiMaterial !! 2%nat.
Proof.
  destruct (toggleWireframe_store true multiMaterial arrayMesh eq_refl eq_refl)
    as (Hrun & Hset & _ & Hother & _).
  rewrite Hrun. cbn [snd objects set_objects]. split.
  - apply (Hset (root arrayMesh) 9%nat); [left; reflexivity | reflexivity | reflexivity].
  - apply Hother. intros f [<-|[]] _. discriminate.
Defined.

End Wireframe.

(** ** What every handler keeps *)

Section Consistency.

Section Structure.
Context {P : Type} (part : Viewer -> P).

Lemma Keeping_ret {A} (x : A) : Keeping part (ret x).
Proof. intros s. reflexivity. Qed.

Lemma Keeping_throw {A} : Keeping part (@throw A).
Proof. intros s. reflexivity. Qed.

Lemma Keeping_gets {A} (f : Viewer -> A) : Keeping part (gets f).
Proof. intros s. reflexivity. Qed.

Lemma Keeping_bind {A B} (m : M A) (k : A -> M B) :
  Keeping part m -> (forall x, Keeping part (k x)) -> Keeping part (bind m k).
Proof.
  intros Hm Hk s. unfold bind. specialize (Hm s).
  destruct (m s) as [[x|] s1]; cbn [snd] in *; [rewrite Hk|]; exact Hm.
Qed.

Lemma Keeping_modify (f : Viewer -> Viewer) :
  (forall s, part (f s) = part s) -> Keeping part (modify f).
Proof. intros H s. apply H. Qed.

Lemma Keeping_when (b : bool) (m : M unit) : Keeping part m -> Keeping part (when b m).
Proof. intros H. destruct b; [exact H | apply Keeping_ret]. Qed.

Lemma Keeping_forEach {A} (f : A -> M unit) (l : list A) :
  (forall x, Keeping part (f x)) -> Keeping part (forEach f l).
Proof.
  intros H. induction l as [|x l IH]; cbn [forEach]; [apply Keeping_ret|].
  apply Keeping_bind; [apply H | intros _; exact IH].
Qed.

Lemma Keeping_mapM (cb : Fields -> M Fields) (l : list Fields) :
  (forall f, Keeping part (cb f)) -> Keeping part (mapM cb l).
Proof.
  intros H. induction l as [|f l IH]; cbn [mapM]; [apply Keeping_ret|].
  apply Keeping_bind; [apply H|]. intros f'.
  apply Keeping_bind; [exact IH|]. intros l'. apply Keeping_ret.
Qed.

Lemma Keeping_traverse (cb : Fields -> M Fields) (o : Object3D) :
  (forall f, Keeping part (cb f)) -> Keeping part (traverse cb o).
Proof.
  intros H s. pose proof (traverse_spec cb o s) as Hs.
  pose proof (Keeping_mapM cb (nodes o) H s) as Hk.
  destruct (traverse cb o s) as [[o'|] s']; rewrite Hs in Hk; exact Hk.
Qed.

(** After a computation, one that keeps the part changes nothing of it. *)
Lemma bind_Keeping {A B} (m : M A) (k : A -> M B) (s : Viewer) :
  (forall x, Keeping part (k x)) -> part (snd (bind m k s)) = part (snd (m s)).
Proof.
  intros Hk. unfold bind. destruct (m s) as [[x|] s1]; cbn [snd]; [apply Hk | reflexivity].
Qed.

End Structure.

(** A step that returns hands its result and state to what follows. *)
Lemma bind_returned {A B} (m : M A) (k : A -> M B) (s s1 : Viewer) (a : A) :
  m s = (Returned a, s1) -> bind m k s = k a s1.
Proof. intros H. unfold bind. rewrite H. reflexivity. Qed.

(** The functions of the viewer are built from the same few steps; whether
    one keeps a part of the state is read off its definition. *)
Ltac keeping :=
  repeat first
    [ apply Keeping_ret
    | apply Keeping_throw
    | apply Keeping_gets
    | apply Keeping_modify; intros ?; reflexivity
    | apply Keeping_bind; [|intros ?]
    | apply Keeping_when
    | apply Keeping_forEach; intros ?
    | apply Keeping_traverse; intros ?
    | match goal with
      | |- Keeping _ (match ?x with _ => _ end) => destruct x
      | |- Keeping _ ((if ?b then _ else _) _) => destruct b
      end
    | progress cbv beta zeta
    | progress unfold emit, setProperty, callDispose, alloc, scene_remove, scene_add,
        transformControls_detach, transformControls_attach, orbitControls_update,
        showLoading, readProp, countTriangles, updateInfoBar, disposeMaterial,
        disposeNode, disposeObject,
        frameModel, enableShadows, setupLoadedModel, loadGLBModel_onLoad,
        loadGLBModel_onError, useEnvironment, applyEnvironmentTexture, loadHDRI_start,
        loadHDRI_onLoad, loadHDRI_onError, loadPresetEXR_onError, createHologramMaterial,
        applyHologram, restoreOriginal, toggleHologram, resetCamera, resetModelTransform,
        editTransform, toggleHdriBackground, setWireframe, toggleWireframe ].

Lemma Keeping_emit (e : event) : Keeping modelPart (emit e).
Proof. keeping. Qed.

Lemma Keeping_setProperty (target : value) (k : string) (v : value) :
  Keeping modelPart (setProperty target k v).
Proof.
  destruct target; try apply Keeping_throw. apply Keeping_modify. reflexivity.
Qed.

Lemma Keeping_callDispose (v : value) : Keeping modelPart (callDispose v).
Proof.
  destruct v; try apply Keeping_throw. cbn [callDispose].
  apply Keeping_bind; [apply Keeping_gets|]. intros h.
  destruct (has_dispose _); [apply Keeping_emit | apply Keeping_throw].
Qed.

Lemma Keeping_disposeMaterial (m : value) : Keeping modelPart (disposeMaterial m).
Proof.
  destruct m; try apply Keeping_throw. cbn [disposeMaterial].
  apply Keeping_bind; [apply Keeping_gets|]. intros h.
  apply Keeping_bind; [|intros _; apply Keeping_callDispose].
  apply Keeping_forEach. intros v.
  apply Keeping_bind; [apply Keeping_gets|]. intros h'.
  apply Keeping_when, Keeping_callDispose.
Qed.

Lemma Keeping_disposeObject (obj : Object3D) : Keeping modelPart (disposeObject obj).
Proof.
  unfold disposeObject.
  apply Keeping_bind; [apply Keeping_emit|]. intros _.
  apply Keeping_bind; [|intros _; apply Keeping_ret].
  apply Keeping_traverse. intros f. unfold disposeNode.
  apply Keeping_bind; [apply Keeping_when, Keeping_callDispose|]. intros _.
  apply Keeping_bind; [|intros _; apply Keeping_ret].
  apply Keeping_when. apply Keeping_bind; [apply Keeping_gets|]. intros h.
  destruct (asArray h (material f)).
  - apply Keeping_forEach. intros m. apply Keeping_disposeMaterial.
  - apply Keeping_disposeMaterial.
Qed.

Lemma Keeping_enableShadows (f : Fields) : Keeping modelPart (enableShadows f).
Proof.
  unfold enableShadows. destruct (isMesh f); [|apply Keeping_ret].
  apply Keeping_bind; [|intros _; apply Keeping_ret].
  apply Keeping_when, Keeping_setProperty.
Qed.

Lemma Keeping_showLoading (visible : bool) (message : option string) :
  Keeping modelPart (showLoading visible message).
Proof. apply Keeping_modify. reflexivity. Qed.

Lemma Keeping_frameModel (object : Object3D) : Keeping modelPart (frameModel object).
Proof. intros s. rewrite frameModel_run. reflexivity. Qed.

Lemma Keeping_resetCamera : Keeping modelPart resetCamera.
Proof.
  unfold resetCamera. apply Keeping_bind; [apply Keeping_gets|]. intros [model|].
  - apply Keeping_frameModel.
  - apply Keeping_bind; [apply Keeping_modify; reflexivity|]. intros _.
    apply Keeping_bind; [apply Keeping_modify; reflexivity|]. intros _.
    apply Keeping_emit.
Qed.

Lemma Keeping_applyEnvironmentTexture (texture : ref) :
  Keeping modelPart (applyEnvironmentTexture texture).
Proof.
  unfold applyEnvironmentTexture.
  repeat first
    [ apply Keeping_emit
    | apply Keeping_setProperty
    | apply Keeping_gets
    | apply Keeping_ret
    | apply Keeping_callDispose
    | apply Keeping_modify; reflexivity
    | apply Keeping_bind; [|intros ?]
    | match goal with
      | |- Keeping modelPart (match ?x with _ => _ end) => destruct x
      end
    | apply Keeping_traverse; intros ?; unfold useEnvironment
    | apply Keeping_when ].
Qed.

Lemma Keeping_toggleWireframe (checked : bool) : Keeping modelPart (toggleWireframe checked).
Proof.
  unfold toggleWireframe. apply Keeping_bind; [apply Keeping_gets|]. intros [model|];
    [|apply Keeping_ret].
  apply Keeping_bind; [|intros _; apply Keeping_ret].
  apply Keeping_traverse. intros f. unfold setWireframe.
  apply Keeping_bind; [|intros _; apply Keeping_ret].
  apply Keeping_when, Keeping_setProperty.
Qed.

Lemma Keeping_toggleHdriBackground (checked : bool) :
  Keeping modelPart (toggleHdriBackground checked).
Proof. keeping. Qed.

Lemma Keeping_revoke (url : option string) :
  Keeping modelPart match url with
        | Some u => emit (EvRevokeObjectURL u)
        | None => ret tt
        end.
Proof. destruct url; [apply Keeping_emit | apply Keeping_ret]. Qed.

Lemma consistent_ext (s s' : Viewer) :
  modelPart s' = modelPart s -> consistent s -> consistent s'.
Proof.
  unfold modelPart. intros [= H1 H2 H3 H4 H5].
  unfold consistent, currentId, meshIds. rewrite H1, H2, H3, H4, H5. auto.
Qed.

(** The same model, up to the fields of its nodes that the handlers write;
    the gizmo as it was or detached. *)
Lemma consistent_same_model (s s' : Viewer) :
  gizmo_object s' = None \/ gizmo_object s' = gizmo_object s ->
  currentId s' = currentId s ->
  meshIds s' = meshIds s ->
  (modelInitialTransform s' = None <-> modelInitialTransform s = None) ->
  hologramActive s' = hologramActive s ->
  originalMaterials s' = originalMaterials s ->
  consistent s -> consistent s'.
Proof.
  intros Hg Hid Hmesh Ht Hh Hs (C1 & C2 & C3 & C4 & C5).
  assert (Hnone : currentModel s' = None <-> currentModel s = None).
  { unfold currentId in Hid.
    destruct (currentModel s'), (currentModel s); try discriminate; split; auto;
      discriminate. }
  unfold consistent. rewrite Hid, Hmesh, Hh, Hs. split_and!.
  - destruct Hg as [Hg|Hg]; [left; exact Hg|]. rewrite Hg. exact C1.
  - rewrite Ht, Hnone. exact C2.
  - intros Hon. rewrite Hnone. exact (C3 Hon).
  - exact C4.
  - exact C5.
Qed.

Lemma meshes_same (l l' : list Fields) :
  Forall2 (fun f f' => uuid f' = uuid f /\ isMesh f' = isMesh f) l l' ->
  map uuid (List.filter isMesh l') = map uuid (List.filter isMesh l).
Proof.
  induction 1 as [|f f' l l' [Hu Hm] _ IH]; [reflexivity|].
  cbn [List.filter]. rewrite Hm. destruct (isMesh f); cbn [map]; rewrite ?Hu, IH; reflexivity.
Qed.

Lemma Forall2_map_same (g : Fields -> Fields) (l : list Fields) :
  (forall f, uuid (g f) = uuid f /\ isMesh (g f) = isMesh f) ->
  Forall2 (fun f f' => uuid f' = uuid f /\ isMesh f' = isMesh f) l (map g l).
Proof. intros Hg. induction l as [|f l IH]; constructor; auto. Qed.

Lemma Forall2_same (l : list Fields) :
  Forall2 (fun f f' => uuid f' = uuid f /\ isMesh f' = isMesh f) l l.
Proof. induction l; constructor; auto. Qed.

Lemma with_root_same (g : Fields -> Fields) (o : Object3D) :
  (forall f, uuid (g f) = uuid f /\ isMesh (g f) = isMesh f) ->
  uuid (root (with_root g o)) = uuid (root o) /\
  map uuid (meshes (with_root g o)) = map uuid (meshes o).
Proof.
  intros Hg. destruct o as [f cs]. split; [apply Hg|].
  unfold meshes. apply meshes_same. cbn [with_root]. rewrite !nodes_unfold.
  constructor; [apply Hg | apply Forall2_same].
Qed.

(** A handler that rewrites the transform of the root of the current
    model. *)
Lemma consistent_with_root (g : Fields -> Fields) (s : Viewer) (model : Object3D) :
  currentModel s = Some model ->
  (forall f, uuid (g f) = uuid f /\ isMesh (g f) = isMesh f) ->
  consistent s -> consistent (set_currentModel (Some (with_root g model)) s).
Proof.
  intros Hm Hg. destruct (with_root_same g model Hg) as [Hu Hmesh].
  apply consistent_same_model; try reflexivity.
  - right. reflexivity.
  - unfold currentId. cbn [currentModel set_currentModel]. rewrite Hm, Hu. reflexivity.
  - unfold meshIds. cbn [currentModel set_currentModel]. rewrite Hm. exact Hmesh.
Qed.

Lemma snapshot_has (l : list Fields) (m : gmap string value) (k : string) :
  has (snapshotMaterials m l) k = true ->
  has m k = true \/ In k (map uuid (List.filter isMesh l)).
Proof.
  revert m. induction l as [|f l IH]; intros m; [left; assumption|].
  unfold snapshotMaterials. cbn [fold_left List.filter].
  fold (snapshotMaterials (if isMesh f && negb (has m (uuid f))
                           then <[uuid f := material f]> m else m) l).
  intros H. apply IH in H. destruct (isMesh f) eqn:Hm; cbn [andb map] in *.
  - destruct H as [H|H]; [|right; right; exact H].
    destruct (has m (uuid f)) eqn:Hh; cbn [negb] in H; [left; exact H|].
    unfold has in H. destruct (decide (uuid f = k)) as [<-|Hne].
    + right. left. reflexivity.
    + rewrite lookup_insert_ne in H by assumption. left. exact H.
  - exact H.
Qed.

Lemma toggleHologram_off_run (s : Viewer) (model : Object3D) :
  currentModel s = Some model ->
  exists model',
    toggleHologram false s
    = (Returned tt,
       set_currentModel (Some model')
         (logged (map EvDispose
                    (flat_map (disposedOnRestore (objects s) (originalMaterials s))
                              (nodes model)))
                 (set_hologramActive false s))) /\
    nodes model' = map (restoredNode (originalMaterials s)) (nodes model).
Proof.
  intros Hm.
  pose proof (restoreOriginal_run (nodes model) (set_hologramActive false s)) as Hrun.
  destruct (traverse_returned _ _ _ _ _ Hrun) as (model' & Htrav & Hnodes).
  exists model'. split; [|exact Hnodes].
  unfold toggleHologram, bind at 1, gets at 1. rewrite Hm.
  unfold bind, modify. rewrite Htrav. reflexivity.
Qed.

Lemma restoredNode_same (saved : gmap string value) (f : Fields) :
  uuid (restoredNode saved f) = uuid f /\ isMesh (restoredNode saved f) = isMesh f.
Proof. unfold restoredNode. destruct (_ && _); split; reflexivity. Qed.

Lemma root_same (l l' : list Fields) (o o' : Object3D) :
  nodes o = l -> nodes o' = l' ->
  Forall2 (fun f f' => uuid f' = uuid f /\ isMesh f' = isMesh f) l l' ->
  uuid (root o') = uuid (root o).
Proof.
  intros Ho Ho' Hall. destruct o as [f cs], o' as [f' cs'].
  rewrite nodes_unfold in Ho, Ho'. subst l l'.
  apply Forall2_cons_1 in Hall as [[Hu _] _]. exact Hu.
Qed.

Lemma consistent_toggleHologram (enabled : bool) (s : Viewer) :
  consistent s -> consistent (snd (toggleHologram enabled s)).
Proof.
  intros Hc. destruct (currentModel s) as [model|] eqn:Hm.
  2:{ unfold toggleHologram, bind, gets. rewrite Hm. exact Hc. }
  destruct Hc as (C1 & C2 & C3 & C4 & C5). destruct enabled.
  - destruct (toggleHologram_enable_run s model Hm) as (model' & h' & n' & Hrun & _ & Hall).
    rewrite Hrun. cbn [snd].
    assert (Hsame : Forall2 (fun f f' => uuid f' = uuid f /\ isMesh f' = isMesh f)
                            (nodes model) (nodes model')).
    { eapply Forall2_impl; [exact Hall|]. intros f f' Hon.
      exact (hologramOn_fields _ _ _ _ Hon). }
    pose proof (meshes_same _ _ Hsame) as Hmesh.
    pose proof (root_same _ _ model model' eq_refl eq_refl Hsame) as Hroot.
    unfold consistent, currentId, meshIds in *. state_simpl. rewrite Hm in *.
    unfold meshes. rewrite Hmesh, Hroot. split_and!.
    + exact C1.
    + rewrite C2. split; discriminate.
    + discriminate.
    + intros k Hk. apply snapshot_has in Hk as [Hk|Hk]; [apply C4|]; exact Hk.
    + intros _ k Hk. apply in_map_iff in Hk as (f & <- & Hf).
      apply List.filter_In in Hf as [Hf Hmesh']. apply snapshot_covers; assumption.
  - destruct (toggleHologram_off_run s model Hm) as (model' & Hrun & Hnodes).
    rewrite Hrun. cbn [snd].
    assert (Hsame : Forall2 (fun f f' => uuid f' = uuid f /\ isMesh f' = isMesh f)
                            (nodes model) (nodes model')).
    { rewrite Hnodes. apply Forall2_map_same. apply restoredNode_same. }
    pose proof (meshes_same _ _ Hsame) as Hmesh.
    pose proof (root_same _ _ model model' eq_refl eq_refl Hsame) as Hroot.
    unfold consistent, currentId, meshIds in *. state_simpl. rewrite Hm in *.
    unfold meshes. rewrite Hmesh, Hroot. split_and!.
    + exact C1.
    + rewrite C2. split; discriminate.
    + discriminate.
    + exact C4.
    + discriminate.
Qed.

Lemma Keeping_scene_remove (obj : Object3D) : Keeping modelPart (scene_remove obj).
Proof.
  unfold scene_remove. apply Keeping_bind; [apply Keeping_emit|]. intros _.
  apply Keeping_modify. reflexivity.
Qed.

(** [setupLoadedModel], whatever its outcome: either it stopped before the
    new model was made current, and then the gizmo is detached if there was
    a model and nothing else of the model part has changed; or the new model
    is current, held by the gizmo, with its snapshot, the hologram off and
    no saved material. *)
Lemma setupLoadedModel_part (model : Object3D) (name : option string) (s : Viewer) :
  let s' := snd (setupLoadedModel model name s) in
  modelPart s'
  = (match currentModel s with Some _ => None | None => gizmo_object s end,
     currentModel s, modelInitialTransform s, hologramActive s, originalMaterials s) \/
  exists model',
    modelPart s'
    = (Some (uuid (root model')), Some model', Some (transformOf (root model')), false, ∅).
Proof.
  cbv zeta. pattern (snd (setupLoadedModel model name s)).
  match goal with
  | |- ?Q0 _ => set (Q := Q0)
  end.
  unfold setupLoadedModel. unfold bind at 1, gets at 1.
  assert (Htail : forall s1 : Viewer,
             modelPart s1
             = (match currentModel s with Some _ => None | None => gizmo_object s end,
                currentModel s, modelInitialTransform s, hologramActive s,
                originalMaterials s) ->
             forall k : Object3D -> M unit,
               (forall m1 s2, exists model',
                     modelPart (snd (k m1 s2))
                     = (Some (uuid (root model')), Some model',
                        Some (transformOf (root model')), false, ∅)) ->
               let s' := snd (bind (traverse enableShadows
                                      (with_root (set_name (nameOr name "LoadedModel")) model))
                                   k s1) in
               modelPart s'
               = (match currentModel s with Some _ => None | None => gizmo_object s end,
                  currentModel s, modelInitialTransform s, hologramActive s,
                  originalMaterials s) \/
               exists model',
                 modelPart s'
                 = (Some (uuid (root model')), Some model',
                    Some (transformOf (root model')), false, ∅)).
  { intros s1 Hs1 k Hk. cbv zeta. unfold bind.
    pose proof (Keeping_traverse modelPart enableShadows
                  (with_root (set_name (nameOr name "LoadedModel")) model)
                  Keeping_enableShadows s1) as Hkeep.
    destruct (traverse enableShadows _ s1) as [[m1|] s2]; cbn [snd] in *.
    - right. apply Hk.
    - left. rewrite Hkeep. exact Hs1. }
  assert (Hrest : forall m1 s2, exists model',
             modelPart
               (snd ((let model0 := centerAndScale m1 in
                      scene_add model0 ;;
                      modify (set_currentModel (Some model0)) ;;
                      modify (set_modelInitialTransform (Some (transformOf (root model0)))) ;;
                      modify (set_hologramActive false) ;;
                      modify (set_originalMaterials ∅) ;;
                      modify (fun s =>
                                let d := dom s in
                                set_dom (mkDom (match toggle_hologram d with
                                                | Some _ => Some false
                                                | None => None
                                                end)
                                               (toggle_hdri_bg d) (loading_visible d)
                                               (loading_text d)) s) ;;
                      transformControls_attach model0 ;;
                      frameModel model0 ;;
                      updateInfoBar) s2))
             = (Some (uuid (root model')), Some model',
                Some (transformOf (root model')), false, ∅)).
  { intros m1 s2. exists (centerAndScale m1). cbv zeta.
    do 7 (erewrite bind_returned by reflexivity; cbv beta).
    assert (Hk : Keeping modelPart (frameModel (centerAndScale m1) ;; updateInfoBar))
      by keeping.
    rewrite (Hk _). reflexivity. }
  destruct (currentModel s) as [old|] eqn:Hold.
  - unfold bind at 1.
    pose proof (bind_Keeping modelPart transformControls_detach
                  (fun _ => scene_remove old ;; disposeObject old) s) as Hpart.
    assert (Hk : forall x : unit,
               Keeping modelPart ((fun _ => scene_remove old ;; disposeObject old) x)).
    { intros _. apply Keeping_bind; [apply Keeping_scene_remove|].
      intros _. apply Keeping_disposeObject. }
    specialize (Hpart Hk).
    destruct ((transformControls_detach ;; scene_remove old ;; disposeObject old) s)
      as [[[]|] s1]; cbn [snd] in Hpart; subst Q; cbv beta iota zeta.
    + apply Htail; [|exact Hrest]. rewrite Hpart.
      unfold modelPart. cbn. rewrite Hold. reflexivity.
    + left. cbn [snd]. rewrite Hpart.
      unfold modelPart. cbn. rewrite Hold. reflexivity.
  - unfold bind at 1, ret at 1. subst Q. cbv beta iota zeta. apply Htail; [|exact Hrest].
    unfold modelPart. rewrite Hold. reflexivity.
Qed.

Lemma consistent_setupLoadedModel (model : Object3D) (name : option string) (s s' : Viewer) :
  modelPart s' = modelPart (snd (setupLoadedModel model name s)) ->
  consistent s -> consistent s'.
Proof.
  intros Hs' Hc. destruct (setupLoadedModel_part model name s) as [Hpart|[model' Hpart]];
    rewrite Hpart in Hs'.
  - apply (consistent_ext (match currentModel s with
                           | Some _ => set_gizmo_object None s
                           | None => s
                           end)).
    + rewrite Hs'. destruct (currentModel s) eqn:Hm; unfold modelPart; state_simpl;
        rewrite ?Hm; reflexivity.
    + destruct (currentModel s) eqn:Hm; [|exact Hc].
      revert Hc. apply consistent_same_model; try reflexivity. left. reflexivity.
  - apply (consistent_ext
             (set_gizmo_object (Some (uuid (root model')))
                (set_currentModel (Some model')
                   (set_modelInitialTransform (Some (transformOf (root model')))
                      (set_hologramActive false (set_originalMaterials ∅ s)))))).
    + rewrite Hs'. reflexivity.
    + unfold consistent, currentId, meshIds. state_simpl. split_and!.
      * right. reflexivity.
      * split; discriminate.
      * discriminate.
      * intros k Hk. unfold has in Hk. rewrite lookup_empty in Hk. discriminate.
      * discriminate.
Qed.

Lemma transform_same (t : Transform) (f : Fields) :
  uuid (set_scale (t_scale t) (set_rotation (t_rotation t) (set_position (t_position t) f)))
  = uuid f /\
  isMesh (set_scale (t_scale t) (set_rotation (t_rotation t) (set_position (t_position t) f)))
  = isMesh f.
Proof. split; reflexivity. Qed.

Lemma consistent_editTransform (g : Transform -> Transform) (s : Viewer) :
  consistent s -> consistent (snd (editTransform g s)).
Proof.
  intros Hc. unfold editTransform, bind, gets.
  destruct (currentModel s) as [model|] eqn:Hm; [|exact Hc]. cbn [snd modify].
  apply (consistent_with_root
           (fun f => set_scale (t_scale (g (transformOf f)))
                       (set_rotation (t_rotation (g (transformOf f)))
                          (set_position (t_position (g (transformOf f))) f))));
    [exact Hm | | exact Hc].
  intros f. split; reflexivity.
Qed.

Lemma consistent_resetModelTransform (s : Viewer) :
  consistent s -> consistent (snd (resetModelTransform s)).
Proof.
  intros Hc. unfold resetModelTransform, bind, gets.
  destruct (currentModel s) as [model|] eqn:Hm; [|exact Hc].
  destruct (modelInitialTransform s) as [t|]; [|exact Hc]. cbn [snd modify].
  apply (consistent_with_root
           (fun f => set_scale (t_scale t)
                       (set_rotation (t_rotation t) (set_position (t_position t) f))));
    [exact Hm | | exact Hc].
  intros f. split; reflexivity.
Qed.

Lemma consistent_keeps {A} (m : M A) (s : Viewer) :
  Keeping modelPart m -> consistent s -> consistent (snd (m s)).
Proof. intros Hk. apply consistent_ext. apply Hk. Qed.

Lemma consistent_detach (s : Viewer) :
  consistent s -> consistent (snd (transformControls_detach s)).
Proof. apply consistent_same_model; try reflexivity. left. reflexivity. Qed.

Lemma consistent_keydown (key : string) (ctrlKey : bool) (a : App) :
  consistent (viewer a) -> consistent (viewer (onkeydown key ctrlKey a)).
Proof.
  intros Hc. unfold onkeydown.
  repeat match goal with
         | |- context [if String.eqb ?x ?y then _ else _] => destruct (String.eqb x y)
         | |- context [if negb ?b then _ else _] => destruct b; cbn [negb]
         | |- context [match currentModel ?v with _ => _ end] => destruct (currentModel v)
         end;
    try exact Hc.
  apply consistent_detach. exact Hc.
Qed.

Lemma consistent_drag (e : DragEvent) (a : App) :
  consistent (viewer a) -> consistent (viewer (drag e a)).
Proof.
  intros Hc. destruct e as [| | |files url]; cbn [drag]; try exact Hc.
  - unfold ondragleave. cbn [dragCounter set_dragCounter]. destruct (_ <=? _)%Z; exact Hc.
  - unfold ondrop. destruct files as [|file rest]; [exact Hc|]. cbv zeta.
    destruct (_ || _); [|destruct (endsWith _ _)].
    + apply (consistent_keeps (showLoading true (Some "Cargando modelo...")));
        [apply Keeping_showLoading | exact Hc].
    + apply (consistent_keeps loadHDRI_start); [apply Keeping_showLoading | exact Hc].
    + apply (consistent_keeps (emit _)); [apply Keeping_emit | exact Hc].
Qed.

Lemma loadPresetEXR_onLoad_viewer (texture : ref) (label : string) (a : App) :
  viewer (loadPresetEXR_onLoad texture label a)
  = snd ((applyEnvironmentTexture texture ;; showLoading false None) (viewer a)).
Proof.
  unfold loadPresetEXR_onLoad.
  destruct ((applyEnvironmentTexture texture ;; showLoading false None) (viewer a))
    as [[[]|] v]; reflexivity.
Qed.

Lemma loadPresetEXR_onLoad_page (texture : ref) (label : string) (a : App) :
  dragCounter (loadPresetEXR_onLoad texture label a) = dragCounter a /\
  dropZone_visible (loadPresetEXR_onLoad texture label a) = dropZone_visible a /\
  transformMode (loadPresetEXR_onLoad texture label a) = transformMode a /\
  transformButtons (loadPresetEXR_onLoad texture label a) = transformButtons a.
Proof.
  unfold loadPresetEXR_onLoad.
  destruct ((applyEnvironmentTexture texture ;; showLoading false None) (viewer a))
    as [[[]|] v]; split_and!; reflexivity.
Qed.

Lemma consistent_handle (x : Action) (a : App) :
  consistent (viewer a) -> consistent (viewer (handle x a)).
Proof.
  intros Hc. destruct x; cbn [handle]; unfold inViewer; cbn [viewer set_viewer].
  - eapply consistent_setupLoadedModel; [|exact Hc].
    unfold loadGLBModel_onLoad. apply bind_Keeping. intros _.
    apply Keeping_bind; [apply Keeping_showLoading | intros _; apply Keeping_revoke].
  - apply consistent_keeps; [|exact Hc]. unfold loadGLBModel_onError.
    apply Keeping_bind; [apply Keeping_emit|]. intros _.
    apply Keeping_bind; [apply Keeping_showLoading|]. intros _.
    apply Keeping_bind; [apply Keeping_emit|]. intros _. apply Keeping_revoke.
  - apply consistent_keeps; [|exact Hc]. unfold loadHDRI_onLoad.
    apply Keeping_bind; [apply Keeping_applyEnvironmentTexture|]. intros _.
    apply Keeping_bind; [apply Keeping_showLoading|]. intros _. apply Keeping_emit.
  - apply consistent_keeps; [|exact Hc]. unfold loadHDRI_onError.
    apply Keeping_bind; [apply Keeping_emit|]. intros _.
    apply Keeping_bind; [apply Keeping_showLoading|]. intros _.
    apply Keeping_bind; [apply Keeping_emit|]. intros _. apply Keeping_emit.
  - rewrite loadPresetEXR_onLoad_viewer. apply consistent_keeps; [keeping | exact Hc].
  - apply consistent_keeps; [|exact Hc]. unfold loadPresetEXR_onError.
    apply Keeping_bind; [apply Keeping_emit|]. intros _. apply Keeping_showLoading.
  - apply consistent_keeps; [apply Keeping_resetCamera | exact Hc].
  - apply consistent_resetModelTransform. exact Hc.
  - destruct (gizmo_object (viewer a)); [|exact Hc].
    apply consistent_editTransform. exact Hc.
  - apply consistent_toggleHologram. exact Hc.
  - apply consistent_keeps; [apply Keeping_toggleHdriBackground | exact Hc].
  - apply consistent_keeps; [apply Keeping_toggleWireframe | exact Hc].
  - exact Hc.
  - exact Hc.
  - apply consistent_keydown. exact Hc.
  - unfold animate.
    assert (Hmid : consistent
                     (viewer match currentModel (viewer a) with
                             | Some model =>
                                 if autoRotate a
                                 then set_viewer
                                        (set_currentModel
                                           (Some (with_root
                                                    (spin (autoRotateSpeed a * delta)%R)
                                                    model)) (viewer a)) a
                                 else a
                             | None => a
                             end)).
    { destruct (currentModel (viewer a)) as [model|] eqn:Hm; [|exact Hc].
      destruct (autoRotate a); [|exact Hc]. cbn [viewer set_viewer].
      apply consistent_with_root; [exact Hm | | exact Hc].
      intros f. split; reflexivity. }
    revert Hmid. apply (consistent_keeps orbitControls_update). apply Keeping_emit.
  - apply consistent_drag. exact Hc.
Qed.

Lemma dropZone_handle (x : Action) (a : App) :
  dropZoneOk a -> dropZoneOk (handle x a).
Proof.
  intros Hok.
  assert (Hsame : forall a', dragCounter a' = dragCounter a ->
                             dropZone_visible a' = dropZone_visible a -> dropZoneOk a').
  { intros a' H1 H2. unfold dropZoneOk. rewrite H1, H2. exact Hok. }
  destruct x; cbn [handle]; try (apply Hsame; reflexivity).
  - destruct (loadPresetEXR_onLoad_page texture label a) as (H1 & H2 & _).
    apply Hsame; assumption.
  - destruct (gizmo_object (viewer a)); apply Hsame; reflexivity.
  - unfold onkeydown.
    repeat match goal with
           | |- context [if String.eqb ?x ?y then _ else _] => destruct (String.eqb x y)
           | |- context [if negb ?b then _ else _] => destruct b; cbn [negb]
           | |- context [match currentModel ?v with _ => _ end] => destruct (currentModel v)
           end;
      apply Hsame; reflexivity.
  - unfold animate. destruct (currentModel (viewer a)); [destruct (autoRotate a)|];
      apply Hsame; reflexivity.
  - destruct e as [| | |files url]; cbn [drag].
    + unfold dropZoneOk, ondragenter in *. cbn. destruct Hok as [Hc Hv].
      split; [lia|]. split; [lia | reflexivity].
    + unfold dropZoneOk, ondragleave in *. cbn [dragCounter set_dragCounter].
      destruct Hok as [Hc Hv].
      destruct (Z.leb_spec (dragCounter a - 1) 0) as [Hle|Hgt]; cbn.
      * split; [lia|]. split; [discriminate | lia].
      * split; [lia|]. split; [lia|]. intros _. apply Hv. lia.
    + exact Hok.
    + unfold dropZoneOk.
      assert (Hz : dragCounter (ondrop files url a) = 0%Z /\
                   dropZone_visible (ondrop files url a) = false).
      { unfold ondrop. destruct files as [|file rest]; [split; reflexivity|].
        cbv zeta. destruct (_ || _); [split; reflexivity|].
        destruct (endsWith _ _); split; reflexivity. }
      destruct Hz as [-> ->]. split; [lia|]. split; [discriminate | lia].
Qed.

Lemma envConsistent_ext (s s' : Viewer) :
  envPart s' = envPart s -> envConsistent s -> envConsistent s'.
Proof.
  unfold envPart. intros [= H1 H2 H3]. unfold envConsistent. rewrite H1, H2, H3. auto.
Qed.

Lemma envConsistent_keeps {A} (m : M A) (s : Viewer) :
  Keeping envPart m -> envConsistent s -> envConsistent (snd (m s)).
Proof. intros Hk. apply envConsistent_ext. apply Hk. Qed.

Lemma bind_modify {B} (f : Viewer -> Viewer) (k : unit -> M B) (s : Viewer) :
  bind (modify f) k s = k tt (f s).
Proof. reflexivity. Qed.

Lemma bind_emit {B} (e : event) (k : unit -> M B) (s : Viewer) :
  bind (emit e) k s = k tt (logged [e] s).
Proof. reflexivity. Qed.

Lemma bind_setProperty {B} (r : ref) (key : string) (v : value) (k : unit -> M B)
    (s : Viewer) :
  bind (setProperty (VRef r) key v) k s
  = k tt (set_objects (<[r := setProp key v (deref (objects s) r)]> (objects s)) s).
Proof. reflexivity. Qed.

Lemma bind_gets {A B} (f : Viewer -> A) (k : A -> M B) (s : Viewer) :
  bind (gets f) k s = k (f s) s.
Proof. reflexivity. Qed.

(** [applyEnvironmentTexture], whatever its outcome: the texture is the
    lighting environment and the background. *)
Lemma applyEnvironmentTexture_shown (texture : ref) (s : Viewer) :
  shownPart (snd (applyEnvironmentTexture texture s)) = (Some texture, BgTexture texture).
Proof.
  unfold applyEnvironmentTexture.
  rewrite bind_setProperty, bind_modify, bind_emit, bind_modify, bind_emit.
  match goal with
  | |- shownPart (snd (?m ?st)) = _ =>
      assert (Hk : Keeping shownPart m) by keeping; rewrite (Hk st)
  end.
  reflexivity.
Qed.

(** ... and the current map is the texture, or still the map that was
    current if disposing that one threw. *)
Lemma applyEnvironmentTexture_current (texture : ref) (s : Viewer) :
  currentHDRI (snd (applyEnvironmentTexture texture s)) = Some texture \/
  (currentHDRI (snd (applyEnvironmentTexture texture s)) = currentHDRI s /\
   currentHDRI s <> None).
Proof.
  cut (forall cur, currentHDRI (snd (applyEnvironmentTexture texture s)) = cur ->
                   cur = Some texture \/ (cur = currentHDRI s /\ currentHDRI s <> None)).
  { intros H. apply H. reflexivity. }
  intros cur Hcur. unfold applyEnvironmentTexture in Hcur.
  rewrite bind_setProperty, bind_modify, bind_emit, bind_modify, bind_emit, bind_modify,
    bind_gets in Hcur.
  match type of Hcur with
  | context [bind _ _ ?st] => set (s5 := st) in Hcur
  end.
  change (currentHDRI s5) with (currentHDRI s) in Hcur.
  assert (Hrest : forall s6,
             currentHDRI
               (snd ((modify (set_currentHDRI (Some texture)) ;;
                      current <- gets currentModel ;;
                      match current with
                      | Some model => traverse (useEnvironment texture) model ;; ret tt
                      | None => ret tt
                      end ;;
                      updateInfoBar) s6)) = Some texture).
  { intros s6. rewrite bind_modify.
    match goal with
    | |- currentHDRI (snd (?m ?st)) = _ =>
        assert (Hk : Keeping currentHDRI m) by keeping; rewrite (Hk st)
    end.
    reflexivity. }
  destruct (currentHDRI s) as [old|] eqn:Hh.
  - unfold bind at 1 in Hcur.
    assert (Hk : Keeping currentHDRI (callDispose (VRef old))) by keeping.
    specialize (Hk s5).
    destruct (callDispose (VRef old) s5) as [[[]|] s6]; cbn [snd] in Hk.
    + left. rewrite <- Hcur. apply Hrest.
    + right. cbn [snd] in Hcur. rewrite <- Hcur, Hk. split; [exact Hh | discriminate].
  - unfold bind at 1, ret at 1 in Hcur. left. rewrite <- Hcur. apply Hrest.
Qed.

Lemma envConsistent_applyEnvironmentTexture (texture : ref) (s s' : Viewer) :
  envPart s' = envPart (snd (applyEnvironmentTexture texture s)) ->
  envConsistent s'.
Proof.
  unfold envPart. intros [= H1 H2 H3].
  pose proof (applyEnvironmentTexture_shown texture s) as Hs.
  unfold shownPart in Hs. injection Hs as He Hb.
  rewrite He in H1. rewrite Hb in H2.
  assert (Hc : currentHDRI s' <> None).
  { rewrite H3. destruct (applyEnvironmentTexture_current texture s) as [Hc|[Hc Hn]];
      rewrite Hc; [discriminate | exact Hn]. }
  unfold envConsistent. rewrite H1, H2. split_and!.
  - split; [intros Habs; contradiction | discriminate].
  - intros r [= <-]. left. reflexivity.
  - discriminate.
Qed.

Lemma envConsistent_toggleHdriBackground (checked : bool) (s : Viewer) :
  envConsistent s -> envConsistent (snd (toggleHdriBackground checked s)).
Proof.
  intros (E1 & E2 & E3). unfold toggleHdriBackground, bind, emit, modify, gets.
  cbn [currentHDRI set_dom].
  destruct checked, (currentHDRI s) as [texture|] eqn:Hh; cbn [snd];
    unfold envConsistent; state_simpl; rewrite ?Hh; split_and!;
    try exact E1; try discriminate.
  - intros r [= <-]. right. reflexivity.
  - intros hex [= <-]. reflexivity.
  - intros hex [= <-]. reflexivity.
  - intros hex [= <-]. reflexivity.
Qed.

Lemma envConsistent_keydown (key : string) (ctrlKey : bool) (a : App) :
  envConsistent (viewer a) -> envConsistent (viewer (onkeydown key ctrlKey a)).
Proof.
  intros Hc. unfold onkeydown.
  repeat match goal with
         | |- context [if String.eqb ?x ?y then _ else _] => destruct (String.eqb x y)
         | |- context [if negb ?b then _ else _] => destruct b; cbn [negb]
         | |- context [match currentModel ?v with _ => _ end] => destruct (currentModel v)
         end;
    exact Hc.
Qed.

Lemma envConsistent_drag (e : DragEvent) (a : App) :
  envConsistent (viewer a) -> envConsistent (viewer (drag e a)).
Proof.
  intros Hc. destruct e as [| | |files url]; cbn [drag]; try exact Hc.
  - unfold ondragleave. cbn [dragCounter set_dragCounter]. destruct (_ <=? _)%Z; exact Hc.
  - unfold ondrop. destruct files as [|file rest]; [exact Hc|]. cbv zeta.
    destruct (_ || _); [|destruct (endsWith _ _)]; exact Hc.
Qed.

Lemma envConsistent_handle (x : Action) (a : App) :
  envConsistent (viewer a) -> envConsistent (viewer (handle x a)).
Proof.
  intros Hc. destruct x; cbn [handle]; unfold inViewer; cbn [viewer set_viewer].
  - apply envConsistent_keeps; [keeping | exact Hc].
  - apply envConsistent_keeps; [keeping | exact Hc].
  - eapply envConsistent_applyEnvironmentTexture.
    unfold loadHDRI_onLoad. apply bind_Keeping. intros ?. keeping.
  - apply envConsistent_keeps; [keeping | exact Hc].
  - rewrite loadPresetEXR_onLoad_viewer.
    eapply envConsistent_applyEnvironmentTexture. apply bind_Keeping. intros ?. keeping.
  - apply envConsistent_keeps; [keeping | exact Hc].
  - apply envConsistent_keeps; [keeping | exact Hc].
  - apply envConsistent_keeps; [keeping | exact Hc].
  - destruct (gizmo_object (viewer a)); [|exact Hc].
    apply envConsistent_keeps; [keeping | exact Hc].
  - apply envConsistent_keeps; [keeping | exact Hc].
  - apply envConsistent_toggleHdriBackground. exact Hc.
  - apply envConsistent_keeps; [keeping | exact Hc].
  - exact Hc.
  - exact Hc.
  - apply envConsistent_keydown. exact Hc.
  - unfold animate. destruct (currentModel (viewer a)); [destruct (autoRotate a)|];
      exact Hc.
  - apply envConsistent_drag. exact Hc.
Qed.

Lemma modeShown_setTransformMode (mode : option string) (a : App) :
  modeShown (setTransformMode mode a).
Proof.
  unfold modeShown, setTransformMode. cbn [transformMode transformButtons set_transformMode
                                            set_transformButtons].
  induction (transformButtons a) as [|btn l IH]; constructor; [reflexivity | exact IH].
Qed.

Lemma modeShown_handle (x : Action) (a : App) : modeShown a -> modeShown (handle x a).
Proof.
  intros Hok. destruct x; cbn [handle]; try exact Hok.
  - destruct (loadPresetEXR_onLoad_page texture label a) as (_ & _ & H1 & H2).
    unfold modeShown. rewrite H1, H2. exact Hok.
  - destruct (gizmo_object (viewer a)); exact Hok.
  - apply modeShown_setTransformMode.
  - unfold onkeydown.
    repeat match goal with
           | |- context [if String.eqb ?x ?y then _ else _] => destruct (String.eqb x y)
           | |- context [if negb ?b then _ else _] => destruct b; cbn [negb]
           | |- context [match currentModel ?v with _ => _ end] => destruct (currentModel v)
           end;
      try exact Hok; apply modeShown_setTransformMode.
  - unfold animate. destruct (currentModel (viewer a)); [destruct (autoRotate a)|];
      exact Hok.
  - destruct e as [| | |files url]; cbn [drag]; try exact Hok.
    + unfold ondragleave. cbn [dragCounter set_dragCounter]. destruct (_ <=? _)%Z; exact Hok.
    + unfold ondrop. destruct files as [|file rest]; [exact Hok|]. cbv zeta.
      destruct (_ || _); [|destruct (endsWith _ _)]; exact Hok.
Qed.

(** X13.  Whatever the loaders, the user and the browser do, in whatever
    order, and whether the handlers return or throw.  The gizmo holds the
    current model or nothing; a snapshot of the initial transform exists
    exactly when a model is current; the hologram is on only for a current
    model; materials are saved only under uuids of meshes of the current
    model, and while the hologram is on every such mesh has one saved.  The
    scene has a lighting environment exactly when there is a current
    environment map, and its background is black or a texture that is the
    lighting environment or the current map.  The drop counter is not
    negative and the drop zone shows exactly while it is positive.  The mode
    buttons show the mode of the gizmo. *)
Theorem handlers_consistent (xs : list Action) (a : App) :
  consistent (viewer a) -> envConsistent (viewer a) -> dropZoneOk a -> modeShown a ->
  consistent (viewer (handleAll xs a)) /\
  envConsistent (viewer (handleAll xs a)) /\
  dropZoneOk (handleAll xs a) /\
  modeShown (handleAll xs a).
Proof.
  revert a. induction xs as [|x xs IH]; intros a Hc He Hok Hmode; [split_and!; assumption|].
  change (handleAll (x :: xs) a) with (handleAll xs (handle x a)).
  apply IH;
    [apply consistent_handle | apply envConsistent_handle | apply dropZone_handle
    | apply modeShown_handle]; assumption.
Qed.

Lemma handlers_consistent_witness :
  let a := handleAll [PresetLoaded 5 "Camino al Atardecer"; ModelLoaded modelA "A.glb" None;
                      SwitchHologram true; HdriLoaded "blob:2" 4; KeyDown "Escape" false;
                      Drag DragEnter]
                     started in
  consistent (viewer a) /\ envConsistent (viewer a) /\ dropZoneOk a /\ modeShown a.
Proof.
  apply (handlers_consistent _ started).
  - unfold consistent, currentId, meshIds, has. cbn.
    split_and!; [left; reflexivity | split; reflexivity | discriminate | | discriminate].
    intros k Hk. rewrite lookup_empty in Hk. discriminate.
  - unfold envConsistent. cbn. split_and!; [split; reflexivity | discriminate |].
    intros hex [= <-]. reflexivity.
  - unfold dropZoneOk. cbn. split; [lia|]. split; [discriminate | lia].
  - unfold modeShown. cbn. repeat constructor.
Defined.

End Consistency.

(** ** The callbacks of a model load *)

Section ModelLoad.

Lemma revoked_app (l1 l2 : list event) : revoked (l1 ++ l2) = revoked l1 ++ revoked l2.
Proof. unfold revoked. apply flat_map_app. Qed.

Lemma revoked_dispose (l : list ref) : revoked (map EvDispose l) = [].
Proof. induction l as [|r l IH]; [reflexivity | exact IH]. Qed.

(** X14.  The two ways a model load ends.  On success, with well-formed
    models and a new model whose triangles [updateInfoBar] can count, the
    callback returns with the overlay hidden, and among the
    calls it makes the object URL of a local file is revoked once, as the
    last of them; for a load from a URL nothing is revoked.  On failure the
    callback returns having logged the error, hidden the overlay, alerted
    the user and revoked the object URL if there is one; nothing else
    changes, so the model on screen stays as it is. *)
Theorem loadGLBModel_ends (model : Object3D) (nm : string) (url : option string)
    (s : Viewer) :
  (forall old, currentModel s = Some old -> wellFormed (objects s) old = true) ->
  wellFormed (objects s) model = true ->
  infoReady (objects s) model = true ->
  (exists s' calls,
      loadGLBModel_onLoad model nm url s = (Returned tt, s') /\
      since (length (trace s)) s' = calls ++ map EvRevokeObjectURL (option_list url) /\
      revoked calls = [] /\
      loading_visible (dom s') = false /\
      loading_text (dom s') = loading_text (dom s)) /\
  loadGLBModel_onError url s
  = (Returned tt,
     logged ([EvConsoleError "Error loading GLB:";
              EvAlert "Error al cargar el modelo. Revisa la consola para más detalles."]
             ++ map EvRevokeObjectURL (option_list url))
            (set_dom (overlayHidden (dom s)) s)).
Proof.
  intros Hold Hwf Hinfo. split.
  - destruct (setupLoadedModel_run model (Some nm) s Hold Hwf Hinfo)
      as (model' & h' & Hrun & _ & _).
    unfold loadGLBModel_onLoad. unfold bind at 1. rewrite Hrun.
    exists (logged (map EvRevokeObjectURL (option_list url))
              (set_dom (overlayHidden (dom (installed model' h' s))) (installed model' h' s))),
           (match currentModel s with
            | Some old =>
                [EvGizmoDetach; EvSceneRemove (uuid (root old));
                 EvDisposeObject (uuid (root old))]
                ++ map EvDispose (holds (objects s) old)
            | None => []
            end
            ++ [EvSceneAdd (uuid (root model')); EvGizmoAttach (uuid (root model'));
                EvOrbitUpdate; EvUpdateInfoBar]).
    split_and!.
    + destruct url; [reflexivity|]. cbn [option_list map]. rewrite logged_nil. reflexivity.
    + unfold since, installed, logged. cbn [trace set_trace set_dom dom].
      rewrite <- !app_assoc, drop_app_length. rewrite <- ?app_assoc. reflexivity.
    + rewrite revoked_app. destruct (currentModel s); [|reflexivity].
      rewrite revoked_app, revoked_dispose. reflexivity.
    + reflexivity.
    + reflexivity.
  - unfold loadGLBModel_onError, showLoading, logged, overlayHidden.
    cbv beta iota delta [bind gets ret modify emit].
    destruct url as [u|]; cbn [trace set_trace set_dom dom option_list map app];
      rewrite <- ?app_assoc; reflexivity.
Qed.

Lemma loadGLBModel_ends_witness :
  exists s' calls,
    loadGLBModel_onLoad modelB "B.glb" (Some "blob:3") viewingA = (Returned tt, s') /\
    since (length (trace viewingA)) s' = calls ++ [EvRevokeObjectURL "blob:3"] /\
    revoked calls = [].
Proof.
  assert (Hold : forall old, currentModel viewingA = Some old ->
                             wellFormed (objects viewingA) old = true).
  { assert (H : match currentModel viewingA with
                | Some old => wellFormed (objects viewingA) old
                | None => true
                end = true) by (vm_compute; reflexivity).
    intros old Hm. rewrite Hm in H. exact H. }
  assert (Hwf : wellFormed (objects viewingA) modelB = true) by (vm_compute; reflexivity).
  assert (Hinfo : infoReady (objects viewingA) modelB = true) by (vm_compute; reflexivity).
  destruct (loadGLBModel_ends modelB "B.glb" (Some "blob:3") viewingA Hold Hwf Hinfo)
    as [(s' & calls & H1 & H2 & H3 & _) _].
  exists s', calls. split_and!; [exact H1 | exact H2 | exact H3].
Defined.

End ModelLoad.

(** ** Switches used while the model is shown as hologram *)

Section UnderHologram.

Lemma toggleHologram_on_exact (s : Viewer) (model : Object3D) :
  currentModel s = Some model ->
  exists model1,
    toggleHologram true s
    = (Returned tt,
       set_currentModel (Some model1)
         (set_nextRef (previewNext (nextRef s) (nodes model))
            (set_objects (previewObjects (nextRef s) (objects s) (nodes model))
               (set_originalMaterials
                  (snapshotMaterials (originalMaterials s) (nodes model))
                  (set_hologramActive true s))))) /\
    nodes model1 = previewNodes (nextRef s) (nodes model).
Proof.
  intros Hm.
  pose proof (applyHologram_exact (nodes model) (set_hologramActive true s)) as Hon.
  destruct (traverse_returned _ _ _ _ _ Hon) as (model1 & Htrav & Hnodes).
  exists model1. split; [|exact Hnodes].
  unfold toggleHologram, bind at 1, gets at 1. rewrite Hm.
  unfold bind, modify. rewrite Htrav. reflexivity.
Qed.

Lemma toggleHologram_off_previews (s : Viewer) (model model1 : Object3D) (n : ref) :
  currentModel s = Some model1 ->
  nodes model1 = previewNodes n (nodes model) ->
  (forall f, In f (nodes model) -> isMesh f = true ->
             originalMaterials s !! uuid f = Some (material f)) ->
  exists model3 disposed,
    toggleHologram false s
    = (Returned tt,
       set_currentModel (Some model3) (logged disposed (set_hologramActive false s))) /\
    nodes model3 = map shadowed (nodes model).
Proof.
  intros Hm Hnodes Hsaved.
  destruct (toggleHologram_off_run s model1 Hm) as (model3 & Hrun & Hnodes3).
  exists model3. eexists. split; [exact Hrun|].
  rewrite Hnodes3, Hnodes. apply restored_previewNodes. exact Hsaved.
Qed.

Lemma previewNodes_material (l : list Fields) (n : ref) (f : Fields) :
  In f (previewNodes n l) -> isMesh f = true ->
  exists p, material f = VRef p /\ (n <= p)%nat.
Proof.
  revert n. induction l as [|g l IH]; intros n; cbn [previewNodes]; [intros []|].
  destruct (isMesh g) eqn:Hg.
  - intros [<-|Hin] Hmesh.
    + exists (4 + n)%nat. split; [reflexivity | lia].
    + destruct (IH _ Hin Hmesh) as (p & Hp & Hle). exists p. split; [exact Hp | lia].
  - intros [<-|Hin] Hmesh; [congruence|]. apply (IH _ Hin Hmesh).
Qed.

Lemma previewNodes_envReady (l : list Fields) (n : ref) :
  forallb envReady (previewNodes n l) = true.
Proof.
  revert n. induction l as [|g l IH]; intros n; cbn [previewNodes]; [reflexivity|].
  destruct (isMesh g) eqn:Hg; cbn [forallb]; rewrite IH, andb_true_r.
  - unfold envReady. cbn [material set_shadows set_material]. apply orb_true_r.
  - unfold envReady, usesEnvironment. rewrite Hg. reflexivity.
Qed.

Lemma previewNodes_untouched (l : list Fields) (n r : ref) :
  (r < n)%nat ->
  forall f, In f (previewNodes n l) -> usesEnvironment f = true -> material f <> VRef r.
Proof.
  intros Hr f Hf Hu. unfold usesEnvironment in Hu. apply andb_prop in Hu as [Hmesh _].
  destruct (previewNodes_material l n f Hf Hmesh) as (p & -> & Hp).
  intros [= ->]. lia.
Qed.

(** X15.  The wireframe switched while the model is shown as hologram, for a
    model whose meshes have distinct uuids and no saved material yet.  The
    hologram is switched on, the wireframe switch is used, the hologram is
    switched off: the three handlers return and every mesh has its own
    material back; but no object that existed before the hologram was
    switched on has changed, so the materials of the meshes have not got the
    flag: it went to the hologram materials, which are gone. *)
Theorem toggleWireframe_under_hologram (checked : bool) (s : Viewer) (model : Object3D) :
  currentModel s = Some model ->
  NoDup (map uuid (meshes model)) ->
  (forall f, In f (nodes model) -> isMesh f = true -> originalMaterials s !! uuid f = None) ->
  exists s1 s2 s3 model3,
    toggleHologram true s = (Returned tt, s1) /\
    toggleWireframe checked s1 = (Returned tt, s2) /\
    toggleHologram false s2 = (Returned tt, s3) /\
    currentModel s3 = Some model3 /\
    nodes model3 = map shadowed (nodes model) /\
    (forall r : ref, (r < nextRef s)%nat -> objects s3 !! r = objects s !! r).
Proof.
  intros Hm Hnd Hfresh.
  destruct (toggleHologram_on_exact s model Hm) as (model1 & Hrun1 & Hnodes1).
  match type of Hrun1 with
  | _ = (_, ?st) => set (s1 := st) in *
  end.
  assert (Hready : forallb envReady (nodes model1) = true).
  { rewrite Hnodes1. apply previewNodes_envReady. }
  pose proof (setWireframe_run checked (nodes model1) s1 Hready) as Hwire.
  destruct (traverse_returned _ _ _ _ _ Hwire) as (model1' & Htrav & _).
  set (s2 := set_objects (wireframeObjects checked (objects s1) (nodes model1)) s1) in *.
  assert (Hrun2 : toggleWireframe checked s1 = (Returned tt, s2)).
  { unfold toggleWireframe, bind at 1, gets at 1.
    change (currentModel s1) with (Some model1). cbv beta iota.
    unfold bind. rewrite Htrav. reflexivity. }
  destruct (toggleHologram_off_previews s2 model model1 (nextRef s) eq_refl Hnodes1)
    as (model3 & disposed & Hrun3 & Hnodes3).
  { apply snapshot_get; assumption. }
  exists s1, s2. eexists. exists model3. split_and!;
    [exact Hrun1 | exact Hrun2 | exact Hrun3 | reflexivity | exact Hnodes3 |].
  intros r Hr. cbn [objects set_currentModel logged set_trace set_hologramActive s2
                      set_objects s1 set_nextRef].
  rewrite wireframeObjects_other.
  - apply previewObjects_below. exact Hr.
  - rewrite Hnodes1. apply previewNodes_untouched. exact Hr.
Qed.

Lemma toggleWireframe_under_hologram_witness :
  let s := set_currentModel (Some modelA) loaded in
  exists s1 s2 s3,
    toggleHologram true s = (Returned tt, s1) /\
    toggleWireframe true s1 = (Returned tt, s2) /\
    toggleHologram false s2 = (Returned tt, s3) /\
    objects s3 !! 2%nat = objects s !! 2%nat.
Proof.
  intros s.
  assert (Hnd : NoDup (map uuid (meshes modelA))).
  { apply (bool_decide_unpack _). vm_compute. reflexivity. }
  destruct (toggleWireframe_under_hologram true s modelA eq_refl Hnd)
    as (s1 & s2 & s3 & m3 & H1 & H2 & H3 & _ & _ & Hobj).
  { intros f _ _. apply lookup_empty. }
  exists s1, s2, s3. split_and!; [exact H1 | exact H2 | exact H3 |].
  apply Hobj. cbn. lia.
Defined.

Lemma useEnvironment_exact (texture : ref) (l : list Fields) (s : Viewer) :
  forallb envReady l = true ->
  mapM (useEnvironment texture) l s
  = (Returned l,
     set_objects (environmentObjects texture (objects s) l)
       (logged (map (fun f => EvSetEnvMap (uuid f) texture) (List.filter usesEnvironment l))
               s)).
Proof.
  revert s. induction l as [|f l IH]; intros s.
  - intros _. cbn. rewrite logged_nil, set_objects_same. reflexivity.
  - cbn [forallb]. intros [Hf Hl]%andb_prop.
    cbn [mapM environmentObjects List.filter]. unfold bind at 1.
    assert (Hstep : useEnvironment texture f s
                    = (Returned f,
                       match usesEnvironment f, material f with
                       | true, VRef r =>
                           set_objects (withEnvironment texture r (objects s))
                                       (logged [EvSetEnvMap (uuid f) texture] s)
                       | _, _ => s
                       end)).
    { unfold envReady in Hf. unfold useEnvironment. fold (usesEnvironment f).
      destruct (usesEnvironment f) eqn:Hu; cbn [negb orb when] in *.
      - destruct (material f) as [| | b|r] eqn:Hmat; try discriminate. reflexivity.
      - reflexivity. }
    rewrite Hstep. unfold bind.
    destruct (usesEnvironment f) eqn:Hu.
    + unfold envReady in Hf. rewrite Hu in Hf. cbn [negb orb] in Hf.
      destruct (material f) as [| | b|r] eqn:Hmat; try discriminate.
      rewrite (IH _ Hl). unfold ret. cbn [map objects set_objects logged set_trace trace].
      f_equal. unfold logged, set_objects, set_trace. cbn. rewrite <- app_assoc. reflexivity.
    + rewrite (IH _ Hl). unfold ret. destruct (material f); reflexivity.
Qed.

Lemma withEnvironment_other (texture r r' : ref) (h : gmap ref jsobj) :
  r <> r' -> withEnvironment texture r h !! r' = h !! r'.
Proof.
  intros Hne. unfold withEnvironment. cbv zeta.
  rewrite !lookup_insert_ne by exact Hne. reflexivity.
Qed.

Lemma environmentObjects_other (texture : ref) (l : list Fields) (h : gmap ref jsobj)
    (r : ref) :
  (forall f, In f l -> usesEnvironment f = true -> material f <> VRef r) ->
  environmentObjects texture h l !! r = h !! r.
Proof.
  revert h. induction l as [|f l IH]; intros h Hno; [reflexivity|].
  cbn [environmentObjects].
  assert (Hl : forall g, In g l -> usesEnvironment g = true -> material g <> VRef r).
  { intros g Hg. apply Hno. right. exact Hg. }
  destruct (usesEnvironment f) eqn:Hu; [|destruct (material f); apply IH; exact Hl].
  destruct (material f) as [| | b|r0] eqn:Hm; try (apply IH; exact Hl).
  rewrite IH by exact Hl. apply withEnvironment_other.
  intros ->. apply (Hno f (or_introl eq_refl) Hu). exact Hm.
Qed.

(** The writes of the environment map leave what the count of the info bar
    reads. *)
Lemma environmentObjects_sameInfo (texture : ref) (l : list Fields) (h : gmap ref jsobj) :
  sameInfo h (environmentObjects texture h l).
Proof.
  revert h. induction l as [|f l IH]; intros h; cbn [environmentObjects].
  - apply sameInfo_refl.
  - destruct (usesEnvironment f); [|destruct (material f); apply IH].
    destruct (material f) as [| | b|r]; try apply IH.
    eapply sameInfo_trans; [apply withEnvironment_sameInfo | apply IH].
Qed.

(** The hologram switch keeps the meshes and their geometries. *)
Lemma previewNodes_countable (l : list Fields) (n : ref) :
  map isMesh (previewNodes n l) = map isMesh l /\
  map geometry (previewNodes n l) = map geometry l.
Proof.
  revert n. induction l as [|f l IH]; intros n; [split; reflexivity|].
  cbn [previewNodes]. destruct (isMesh f) eqn:Hmesh; cbn [map].
  - destruct (IH (5 + n)%nat) as [-> ->]. cbn [isMesh geometry set_shadows set_material].
    rewrite Hmesh. split; reflexivity.
  - destruct (IH n) as [-> ->]. rewrite Hmesh. split; reflexivity.
Qed.

(** [applyEnvironmentTexture] on a model whose mesh materials are objects
    and whose triangles can be counted, over a current map that can be
    disposed. *)
Lemma applyEnvironmentTexture_exact (texture : ref) (s : Viewer) (model : Object3D) :
  currentModel s = Some model ->
  forallb envReady (nodes model) = true ->
  infoReady (objects s) model = true ->
  (forall old, currentHDRI s = Some old -> has_dispose (deref (objects s) old) = true) ->
  exists s',
    applyEnvironmentTexture texture s = (Returned tt, s') /\
    objects s'
    = environmentObjects texture
        (<[texture := setProp "mapping" (VPrim true) (deref (objects s) texture)]> (objects s))
        (nodes model) /\
    currentModel s' = Some model /\
    originalMaterials s' = originalMaterials s /\
    scene_environment s' = Some texture /\
    scene_background s' = BgTexture texture /\
    currentHDRI s' = Some texture.
Proof.
  intros Hm Hready Hinfo Hold. unfold applyEnvironmentTexture.
  rewrite bind_setProperty, bind_modify, bind_emit, bind_modify, bind_emit, bind_modify,
    bind_gets.
  match goal with
  | |- context [bind _ _ ?st] => set (s5 := st)
  end.
  change (currentHDRI s5) with (currentHDRI s).
  assert (Hdispose : exists evs,
             match currentHDRI s with
             | Some old => callDispose (VRef old)
             | None => ret tt
             end s5 = (Returned tt, logged evs s5)).
  { destruct (currentHDRI s) as [old|] eqn:Hh.
    - exists (map EvDispose (refOf (VRef old))). apply callDispose_run.
      cbn [disposable objects s5 set_dom logged set_trace set_scene_background
             set_scene_environment set_objects].
      rewrite deref_insert. destruct (decide (texture = old)) as [->|Hne].
      + cbn [setProp has_dispose]. apply Hold. reflexivity.
      + apply Hold. reflexivity.
    - exists []. unfold ret. rewrite logged_nil. reflexivity. }
  destruct Hdispose as (evs & Hdispose).
  unfold bind at 1. rewrite Hdispose.
  rewrite bind_modify, bind_gets.
  change (currentModel (set_currentHDRI (Some texture) (logged evs s5))) with (currentModel s).
  rewrite Hm.
  pose proof (useEnvironment_exact texture (nodes model)
                (set_currentHDRI (Some texture) (logged evs s5)) Hready) as Hrun.
  destruct (traverse_returned _ _ _ _ _ Hrun) as (model' & Htrav & _).
  unfold bind. rewrite Htrav. unfold ret.
  match goal with
  | |- context [updateInfoBar ?st] => rewrite (updateInfoBar_run st)
  end.
  2:{ intros m Hcur.
      cbn [currentModel set_objects set_currentHDRI logged set_trace s5 set_dom
           set_scene_background set_scene_environment] in Hcur.
      rewrite Hm in Hcur. injection Hcur as <-. rewrite <- Hinfo. apply infoReady_ext.
      cbn [objects set_objects set_currentHDRI logged set_trace].
      eapply sameInfo_trans; [|apply environmentObjects_sameInfo].
      apply sameInfo_setProp; discriminate. }
  eexists. split; [reflexivity|].
  cbn [objects currentModel originalMaterials scene_environment scene_background currentHDRI
       set_trace set_objects set_currentHDRI logged s5 set_dom set_scene_background
       set_scene_environment].
  split_and!; try reflexivity. exact Hm.
Qed.

(** X16.  An environment map applied while the model is shown as hologram,
    for a model whose meshes have distinct uuids and no saved material yet,
    in a store whose next identity is fresh, over a current map (if any)
    that can be disposed.  The hologram is switched on, the texture is
    applied, the hologram is switched off: the three calls return, the
    texture is the current map and the lighting environment, and every mesh
    has its own material back; but apart from the texture itself no object
    that existed before the hologram was switched on has changed.  So the
    materials of the meshes do not carry the texture as [envMap]: what they
    carried before, they still carry.  The model is one whose triangles
    [updateInfoBar], which [applyEnvironmentTexture] calls last, can
    count. *)
Theorem applyEnvironmentTexture_under_hologram (texture : ref) (s : Viewer)
    (model : Object3D) :
  currentModel s = Some model ->
  storeFresh s ->
  NoDup (map uuid (meshes model)) ->
  (forall f, In f (nodes model) -> isMesh f = true -> originalMaterials s !! uuid f = None) ->
  (forall old, currentHDRI s = Some old -> has_dispose (deref (objects s) old) = true) ->
  infoReady (objects s) model = true ->
  exists s1 s2 s3 model3,
    toggleHologram true s = (Returned tt, s1) /\
    applyEnvironmentTexture texture s1 = (Returned tt, s2) /\
    toggleHologram false s2 = (Returned tt, s3) /\
    currentModel s3 = Some model3 /\
    nodes model3 = map shadowed (nodes model) /\
    currentHDRI s3 = Some texture /\
    scene_environment s3 = Some texture /\
    (forall r : ref, (r < nextRef s)%nat -> r <> texture ->
                     objects s3 !! r = objects s !! r).
Proof.
  intros Hm Hstore Hnd Hfresh Hold Hinfo.
  destruct (toggleHologram_on_exact s model Hm) as (model1 & Hrun1 & Hnodes1).
  match type of Hrun1 with
  | _ = (_, ?st) => set (s1 := st) in *
  end.
  assert (Hready : forallb envReady (nodes model1) = true).
  { rewrite Hnodes1. apply previewNodes_envReady. }
  destruct (applyEnvironmentTexture_exact texture s1 model1 eq_refl Hready)
    as (s2 & Hrun2 & Hobj2 & Hm2 & Hsaved2 & Henv2 & _ & Hcur2).
  { change (objects s1) with (previewObjects (nextRef s) (objects s) (nodes model)).
    rewrite <- Hinfo. unfold infoReady. rewrite Hnodes1.
    destruct (previewNodes_countable (nodes model) (nextRef s)) as [Hmesh Hgeo].
    apply countables_ext; [|exact Hmesh | exact Hgeo].
    apply previewObjects_sameInfo. exact Hstore. }
  { intros old Hh. change (currentHDRI s1) with (currentHDRI s) in Hh.
    change (objects s1) with (previewObjects (nextRef s) (objects s) (nodes model)).
    apply (previewObjects_disposable s (nodes model) (VRef old) Hstore).
    apply Hold. exact Hh. }
  destruct (toggleHologram_off_previews s2 model model1 (nextRef s) Hm2 Hnodes1)
    as (model3 & disposed & Hrun3 & Hnodes3).
  { rewrite Hsaved2. apply snapshot_get; assumption. }
  exists s1, s2. eexists. exists model3. split_and!;
    [exact Hrun1 | exact Hrun2 | exact Hrun3 | reflexivity | exact Hnodes3
    | exact Hcur2 | exact Henv2 |].
  intros r Hr Hne. cbn [objects set_currentModel logged set_trace set_hologramActive].
  rewrite Hobj2, environmentObjects_other.
  - rewrite lookup_insert_ne by congruence.
    apply previewObjects_below. exact Hr.
  - rewrite Hnodes1. apply previewNodes_untouched. exact Hr.
Qed.

Lemma applyEnvironmentTexture_under_hologram_witness :
  let s := set_currentModel (Some modelA) loaded in
  exists s1 s2 s3,
    toggleHologram true s = (Returned tt, s1) /\
    applyEnvironmentTexture 4 s1 = (Returned tt, s2) /\
    toggleHologram false s2 = (Returned tt, s3) /\
    currentHDRI s3 = Some 4%nat /\
    objects s3 !! 2%nat = objects s !! 2%nat.
Proof.
  intros s.
  assert (Hnd : NoDup (map uuid (meshes modelA))).
  { apply (bool_decide_unpack _). vm_compute. reflexivity. }
  assert (Hstore : storeFresh s).
  { intros r Hr. change (8 <= r)%nat in Hr. change (objects s) with sampleObjects.
    unfold sampleObjects, list_to_map. cbn [foldr fst snd].
    rewrite !lookup_insert_ne by lia. apply lookup_empty. }
  destruct (applyEnvironmentTexture_under_hologram 4 s modelA eq_refl Hstore Hnd)
    as (s1 & s2 & s3 & m3 & H1 & H2 & H3 & _ & _ & Hcur & _ & Hobj).
  { intros f _ _. apply lookup_empty. }
  { intros old Hh. discriminate Hh. }
  { vm_compute. reflexivity. }
  exists s1, s2, s3. split_and!; [exact H1 | exact H2 | exact H3 | exact Hcur |].
  apply Hobj; [cbn; lia | discriminate].
Defined.

End UnderHologram.
